(** * openwhisk-bench: the benchmark engine, embedded and verified

    A shallow embedding of [openwhisk_bench/metrics.py] and
    [openwhisk_bench/runner.py].

    - Python values coming out of [response.json()] are the inductive type
      [pyval]; Python exceptions are the enumeration [exn]; a call either
      returns or raises ([outcome]).
    - Numbers are exact rationals in canonical form ([Qc]).  Python's
      [int] and [float] are not told apart and the rounding of [float]
      arithmetic is not modelled: means, variances and the success rate
      are the exact values.  The non-finite floats ([NaN], [Infinity]) and
      the overflow of a conversion to [float] are outside the model of the
      statistics.  The square root [statistics.stdev] takes of the
      variance is a parameter of the development.
    - Strings are byte strings; [str.lower] is modelled on the ASCII
      letters, which is all that a comparison with ['success'] can
      observe.
    - The bytes of an HTTP response are not modelled: a response carries
      what [response.json()], [json.loads] and [pprint.pformat] make of
      them, a value or an exception.
    - The HTTP transport, the wall clock, [time.sleep] and the operating
      system behind it are an explicit [World] threaded through the
      runner; the [while True] polling loop takes a fuel argument and
      reports [Diverge] when it runs out.
    - The number formatting, [json.dumps] and [tabulate] of
      [format_results] are parameters that return a text or raise. *)

From Stdlib Require Import ZArith QArith Qcanon String Ascii List Bool Lia
  Permutation DecimalString.
Import ListNotations.

Set Warnings "-register-all".
Local Open Scope string_scope.
Local Open Scope list_scope.

(* ================================================================== *)
(** * Python values, exceptions and outcomes                           *)
(* ================================================================== *)

Module Py.

(** The exceptions the modelled code can meet.  [ValueError] stands for the
    class and its subclasses (the [JSONDecodeError] of [requests] among
    them), which an [except ValueError] clause all catches; [OSError]
    likewise; [ConnectionError] stands for every transport failure raised by
    [requests]. *)
Inductive exn : Type :=
| ValueError
| KeyError
| AttributeError
| TypeError
| ZeroDivisionError
| StatisticsError
| ConnectionError
| RecursionError
| OverflowError
| OSError
| NameError.

(** Result of evaluating a pure Python expression. *)
Inductive outcome (A : Type) : Type :=
| Returned (a : A)
| Raised (e : exn).

Arguments Returned {A} a.
Arguments Raised {A} e.

Definition bind {A B : Type} (m : outcome A) (k : A -> outcome B) : outcome B :=
  match m with
  | Returned a => k a
  | Raised e => Raised e
  end.

(** What [json.loads] can build: [None], [bool], numbers, [str], [list] and
    [dict] with string keys.  A [PyDict] lists the members of the JSON object
    in document order; as in [json.loads], a later member overrides an
    earlier one of the same name (see [dict_get]). *)
Inductive pyval : Type :=
| PyNone
| PyBool (b : bool)
| PyNum (q : Qc)
| PyStr (s : string)
| PyList (l : list pyval)
| PyDict (d : list (string * pyval)).

Definition num (z : Z) : pyval := PyNum (Q2Qc (inject_Z z)).

(** Lookup in a parsed JSON object: [None] when the name is absent. *)
Fixpoint dict_get (d : list (string * pyval)) (k : string) : option pyval :=
  match d with
  | [] => None
  | (k', v) :: rest =>
      match dict_get rest k with
      | Some x => Some x
      | None => if String.eqb k' k then Some v else None
      end
  end.

(** The distinct names of a parsed JSON object, in first-insertion order. *)
Fixpoint dict_keys (d : list (string * pyval)) (seen : list string) : list string :=
  match d with
  | [] => []
  | (k, _) :: rest =>
      if existsb (String.eqb k) seen then dict_keys rest seen
      else k :: dict_keys rest (k :: seen)
  end.

(** [obj.get(k, default)]: only a [dict] has the method. *)
Definition py_get (obj : pyval) (k : string) (default : pyval) : outcome pyval :=
  match obj with
  | PyDict d =>
      match dict_get d k with
      | Some v => Returned v
      | None => Returned default
      end
  | _ => Raised AttributeError
  end.

(** [obj[k]] for a string [k]: [KeyError] on a dict without the key,
    [TypeError] on every other JSON value (lists and strings want integer
    indices, the rest is not subscriptable). *)
Definition py_getitem (obj : pyval) (k : string) : outcome pyval :=
  match obj with
  | PyDict d =>
      match dict_get d k with
      | Some v => Returned v
      | None => Raised KeyError
      end
  | _ => Raised TypeError
  end.

Fixpoint chars (s : string) : list pyval :=
  match s with
  | EmptyString => []
  | String c rest => PyStr (String c EmptyString) :: chars rest
  end.

(** [for item in obj]: the elements of a list, the keys of a dict, the
    characters of a string; nothing else is iterable. *)
Definition py_iter (obj : pyval) : outcome (list pyval) :=
  match obj with
  | PyList l => Returned l
  | PyDict d => Returned (map PyStr (dict_keys d []))
  | PyStr s => Returned (chars s)
  | _ => Raised TypeError
  end.

(** Numeric reading of a value: [bool] is a subclass of [int]. *)
Definition as_number (v : pyval) : option Qc :=
  match v with
  | PyNum q => Some q
  | PyBool true => Some (Q2Qc 1)
  | PyBool false => Some (Q2Qc 0)
  | _ => None
  end.

Definition Qc_eqb (x y : Qc) : bool := Qeq_bool x y.
Definition Qc_leb (x y : Qc) : bool := Qle_bool x y.

(** [a == b] on the hashable JSON values. *)
Definition py_eqb (a b : pyval) : bool :=
  match a, b with
  | PyNone, PyNone => true
  | PyStr s, PyStr t => String.eqb s t
  | _, _ =>
      match as_number a, as_number b with
      | Some x, Some y => Qc_eqb x y
      | _, _ => false
      end
  end.

Definition hashable (v : pyval) : bool :=
  match v with
  | PyList _ | PyDict _ => false
  | _ => true
  end.

(** Truth value of [if v]. *)
Definition truthy (v : pyval) : bool :=
  match v with
  | PyNone => false
  | PyBool b => b
  | PyNum q => negb (Qc_eqb q (Q2Qc 0))
  | PyStr s => negb (String.eqb s EmptyString)
  | PyList l => match l with [] => false | _ => true end
  | PyDict d => match d with [] => false | _ => true end
  end.

(** A dict built at run time (the comprehension of [extract_metrics]): keys
    are hashable values, each bound once, in insertion order. *)
Definition pydict : Type := list (pyval * pyval).

(** [d[k] = v] on an already hashed key: overwrite the binding of an equal
    key, else append. *)
Fixpoint dict_store (d : pydict) (k v : pyval) : pydict :=
  match d with
  | [] => [(k, v)]
  | (k', v') :: rest =>
      if py_eqb k' k then (k', v) :: rest else (k', v') :: dict_store rest k v
  end.

Definition dict_setitem (d : pydict) (k v : pyval) : outcome pydict :=
  if hashable k then Returned (dict_store d k v) else Raised TypeError.

(** [d.get(k, default)] on a run-time dict. *)
Fixpoint pydict_get (d : pydict) (k default : pyval) : pyval :=
  match d with
  | [] => default
  | (k', v) :: rest => if py_eqb k' k then v else pydict_get rest k default
  end.

Definition ascii_lower (c : ascii) : ascii :=
  let n := nat_of_ascii c in
  if andb (Nat.leb 65 n) (Nat.leb n 90) then ascii_of_nat (n + 32) else c.

Fixpoint lower (s : string) : string :=
  match s with
  | EmptyString => EmptyString
  | String c rest => String (ascii_lower c) (lower rest)
  end.

(** [obj.lower()]: only [str] has the method. *)
Definition py_lower (obj : pyval) : outcome pyval :=
  match obj with
  | PyStr s => Returned (PyStr (lower s))
  | _ => Raised AttributeError
  end.

(** [str(n)] for an [int]. *)
Definition str_of_int (n : Z) : string := NilZero.string_of_int (Z.to_int n).

End Py.

Export Py.

Declare Scope py_scope.
Notation "x <- m ;; k" := (bind m (fun x => k))
  (at level 100, m at next level, right associativity) : py_scope.

(* ================================================================== *)
(** * config.py: the configuration object                             *)
(* ================================================================== *)

(** The attributes [Config.load_defaults] and [Config.parse_arguments] set.
    The counts are Python [int]s, hence [Z]. *)
Record Config : Type := mkConfig {
  num_runs : Z;
  num_invocations : Z;
  warmup_invocations : Z;
  workers : Z;
  verbose : bool;
  print_csv : bool;
  function : string;
  blocking : bool;
  input_file : option string;
  input_string : option string;
  output_file : option string;
  time_limit : Z;
  time_precision : Z;
  apihost : string;
  authorization : string;
  payload : pyval
}.

(** The same configuration with another [time_limit]. *)
Definition with_time_limit (t : Z) (c : Config) : Config :=
  {| num_runs := num_runs c;
     num_invocations := num_invocations c;
     warmup_invocations := warmup_invocations c;
     workers := workers c;
     verbose := verbose c;
     print_csv := print_csv c;
     function := function c;
     blocking := blocking c;
     input_file := input_file c;
     input_string := input_string c;
     output_file := output_file c;
     time_limit := t;
     time_precision := time_precision c;
     apihost := apihost c;
     authorization := authorization c;
     payload := payload c |}.

(** What [json.loads(response_dict['_content'].decode('utf-8'))] makes of
    the content of a response in [format_response_dict]. *)
Inductive loads : Type :=
| NotBytes                      (* [_content] is not a [bytes] object *)
| Loaded (json_content : pyval) (* the parsed content *)
| Undecoded                     (* [UnicodeDecodeError] or [json.JSONDecodeError] *)
| LoadsRaised (e : exn).        (* any other exception *)

(** The bytes of a response are not modelled; a [Body] holds what the
    library calls made on them give:
    - [decoded]: [response.json()] of [requests], a value or the exception
      it raises ([ValueError] on text that is not JSON or on an integer
      literal beyond the interpreter's digit limit, [RecursionError] on
      nesting too deep);
    - [loaded]: the decoding of [format_response_dict], made with
      [bytes.decode] and [json.loads] and not with [response.json()];
    - [pformatted]: [pprint.pformat] of the dict [format_response_dict] has
      built, the text or the exception it raises ([RecursionError] on
      nesting too deep for the printer). *)
Record Body : Type := mkBody {
  decoded : outcome pyval;
  loaded : loads;
  pformatted : outcome string
}.

(** The content of a reply that [response.json()] decodes to [v], or that
    is not JSON ([None]), and that the log formats without an exception. *)
Definition body_of (v : option pyval) : Body :=
  match v with
  | Some json_content =>
      {| decoded := Returned json_content; loaded := Loaded json_content;
         pformatted := Returned "{...}" |}
  | None =>
      {| decoded := Raised ValueError; loaded := Undecoded;
         pformatted := Returned "{...}" |}
  end.

(** A [requests.Response] as the benchmark reads it: the status code, the
    content, the transport's [elapsed] in seconds, and the
    [client_elapsed_time] attribute the runner attaches (absent until then). *)
Record Response : Type := mkResponse {
  status_code : Z;
  content : Body;
  elapsed : Qc;
  attr_client_elapsed_time : option Qc
}.

(** [response.json()] *)
Definition response_json (r : Response) : outcome pyval :=
  decoded (content r).

(* ================================================================== *)
(** * metrics.py                                                       *)
(* ================================================================== *)

Module Metrics.

Local Open Scope py_scope.

(** The dict [extract_metrics] returns.  Its values are whatever the body
    held: nothing in [extract_metrics] checks their types. *)
Record InvocationResult : Type := mkResult {
  initTime : pyval;
  waitTime : pyval;
  duration : pyval;
  client_elapsed_time : pyval;
  success : pyval
}.

(** The record of the [except] branch. *)
Definition zero_result : InvocationResult :=
  {| initTime := num 0; waitTime := num 0; duration := num 0;
     client_elapsed_time := num 0; success := PyBool false |}.

(** [{item['key']: item['value'] for item in items}], one item at a time. *)
Fixpoint annotations_of (items : list pyval) (acc : pydict) : outcome pydict :=
  match items with
  | [] => Returned acc
  | item :: rest =>
      k <- py_getitem item "key" ;;
      v <- py_getitem item "value" ;;
      acc' <- dict_setitem acc k v ;;
      annotations_of rest acc'
  end.

(** Lines 18-19: the two success predicates. *)
Definition success_of (json_response : pyval) (config : Config) : outcome pyval :=
  if blocking config then py_get json_response "success" (PyBool false)
  else
    r <- py_get json_response "response" (PyDict []) ;;
    s <- py_get r "status" (PyStr EmptyString) ;;
    l <- py_lower s ;;
    Returned (PyBool (py_eqb l (PyStr "success"))).

(** [getattr(response, 'client_elapsed_time', 0)] *)
Definition getattr_client_elapsed_time (response : Response) : pyval :=
  match attr_client_elapsed_time response with
  | Some t => PyNum t
  | None => num 0
  end.

(** The body of the [try] block. *)
Definition extract_metrics_try (response : Response) (config : Config)
  : outcome InvocationResult :=
  json_response <- response_json response ;;
  src <- py_get json_response "annotations" (PyList []) ;;
  items <- py_iter src ;;
  annotations <- annotations_of items [] ;;
  let init_time := pydict_get annotations (PyStr "initTime") (num 0) in
  let wait_time := pydict_get annotations (PyStr "waitTime") (num 0) in
  d <- py_get json_response "duration" (num 0) ;;
  let cet := getattr_client_elapsed_time response in
  s <- success_of json_response config ;;
  Returned {| initTime := init_time; waitTime := wait_time; duration := d;
              client_elapsed_time := cet; success := s |}.

(** [extract_metrics]: [except (ValueError, KeyError)] recovers with the zero
    record; every other exception leaves the function, whether it comes
    from [response.json()] or from the lines after it. *)
Definition extract_metrics (response : Response) (config : Config)
  : outcome InvocationResult :=
  match extract_metrics_try response config with
  | Raised ValueError | Raised KeyError => Returned zero_result
  | o => o
  end.

(** ** benchmark_statistics *)

Record Stat : Type := mkStat {
  avg : Qc;
  min : Qc;
  max : Qc;
  std : Qc
}.

(** The dict [benchmark_statistics] returns. *)
Record Stats : Type := mkStats {
  st_initTime : Stat;
  st_waitTime : Stat;
  st_duration : Stat;
  st_client_elapsed_time : Stat;
  success_rate : Qc
}.

Definition Qc_of_nat (n : nat) : Qc := Q2Qc (inject_Z (Z.of_nat n)).

(** The data of [statistics] functions must be numbers. *)
Fixpoint numbers (xs : list pyval) : outcome (list Qc) :=
  match xs with
  | [] => Returned []
  | x :: rest =>
      match as_number x with
      | None => Raised TypeError
      | Some q => qs <- numbers rest ;; Returned (q :: qs)
      end
  end.

Definition total (qs : list Qc) : Qc := fold_right Qcplus (Q2Qc 0) qs.

Definition mean_of (qs : list Qc) : Qc := (total qs / Qc_of_nat (length qs))%Qc.

(** [statistics.mean] *)
Definition mean (xs : list pyval) : outcome Qc :=
  qs <- numbers xs ;;
  match qs with
  | [] => Raised StatisticsError
  | _ => Returned (mean_of qs)
  end.

Definition smaller (m x : Qc) : Qc := if Qc_leb m x then m else x.
Definition larger (m x : Qc) : Qc := if Qc_leb x m then m else x.

(** The builtin [min], on data [mean] has accepted. *)
Definition py_min (xs : list pyval) : outcome Qc :=
  qs <- numbers xs ;;
  match qs with
  | [] => Raised ValueError
  | q :: rest => Returned (fold_left smaller rest q)
  end.

(** The builtin [max]. *)
Definition py_max (xs : list pyval) : outcome Qc :=
  qs <- numbers xs ;;
  match qs with
  | [] => Raised ValueError
  | q :: rest => Returned (fold_left larger rest q)
  end.

(** Sum of the squared deviations from the mean. *)
Definition sum_sq (qs : list Qc) : Qc :=
  let m := mean_of qs in
  total (map (fun x => ((x - m) * (x - m))%Qc) qs).

Definition variance_of (qs : list Qc) : Qc :=
  (sum_sq qs / Qc_of_nat (length qs - 1))%Qc.

Section Aggregation.

(** The square root [statistics.stdev] applies to the sample variance. *)
Variable sqrt : Qc -> Qc.

(** [statistics.stdev]: fewer than two data points raise [StatisticsError]. *)
Definition stdev (xs : list pyval) : outcome Qc :=
  if Nat.ltb (length xs) 2 then Raised StatisticsError
  else qs <- numbers xs ;; Returned (sqrt (variance_of qs)).

(** One entry of the [stats] dict literal, in evaluation order. *)
Definition stat_of (xs : list pyval) : outcome Stat :=
  a <- mean xs ;;
  lo <- py_min xs ;;
  hi <- py_max xs ;;
  sd <- stdev xs ;;
  Returned {| avg := a; min := lo; max := hi; std := sd |}.

Definition successes (metrics_list : list InvocationResult) : nat :=
  length (filter (fun m => truthy (success m)) metrics_list).

(** [a / b] on numbers: a zero divisor raises [ZeroDivisionError]. *)
Definition py_truediv (a b : Qc) : outcome Qc :=
  if Qc_eqb b (Q2Qc 0) then Raised ZeroDivisionError else Returned (a / b)%Qc.

(** Line 41: [sum(1 for m in metrics_list if m['success']) / len(metrics_list) * 100].
    Nothing looks at the length of the series before the division. *)
Definition success_rate_of (metrics_list : list InvocationResult) : outcome Qc :=
  quotient <- py_truediv (Qc_of_nat (successes metrics_list))
                (Qc_of_nat (length metrics_list)) ;;
  Returned (quotient * Qc_of_nat 100)%Qc.

Definition benchmark_statistics (metrics_list : list InvocationResult)
  : outcome Stats :=
  let init_times := map initTime metrics_list in
  let wait_times := map waitTime metrics_list in
  let durations := map duration metrics_list in
  let client_elapsed_times := map client_elapsed_time metrics_list in
  rate <- success_rate_of metrics_list ;;
  s1 <- stat_of init_times ;;
  s2 <- stat_of wait_times ;;
  s3 <- stat_of durations ;;
  s4 <- stat_of client_elapsed_times ;;
  Returned {| st_initTime := s1; st_waitTime := s2; st_duration := s3;
              st_client_elapsed_time := s4; success_rate := rate |}.

End Aggregation.

End Metrics.

Export Metrics.

(* ================================================================== *)
(** * runner.py                                                        *)
(* ================================================================== *)

Module Runner.

(** ** The world outside the process *)

Inductive Method : Type := POST | GET.

(** What [requests.post(url, json=..., headers={'Authorization': ...})] and
    [requests.get(url, headers=...)] put on the wire. *)
Record Request : Type := mkRequest {
  meth : Method;
  url : string;
  json : option pyval;
  authorization_header : string
}.

Inductive Event : Type :=
| EvRequest (rq : Request)
| EvSleep (seconds : Qc)
| EvClock (reading : Qc).

(** What the transport does with a request: an HTTP response (status,
    content, elapsed seconds) or a failure raised by [requests]. *)
Inductive Reply : Type :=
| Answer (status : Z) (body : Body) (secs : Qc)
| Unreachable.

(** [server n rq] is the reply to [rq] when [n] exchanges came before it;
    [wall_clock n] is what the [n]-th call of [time.time()] reads;
    [os_refuses n secs] tells whether the operating system fails a sleep of
    [secs] seconds asked when [n] exchanges came before it; [trace] records
    the requests, the sleeps and the readings of the clock in the order they
    were made, most recent first. *)
Record World : Type := mkWorld {
  server : nat -> Request -> Reply;
  exchanges : nat;
  wall_clock : nat -> Qc;
  clock_reads : nat;
  os_refuses : nat -> Qc -> bool;
  trace : list Event
}.

(** How a run ends: a value, an exception that leaves the function, or a
    polling loop that is still going when the fuel is spent. *)
Inductive result (A : Type) : Type :=
| Ok (a : A)
| Err (e : exn)
| Diverge.

Arguments Ok {A} a.
Arguments Err {A} e.
Arguments Diverge {A}.

Definition M (A : Type) : Type := World -> result A * World.

Definition ret {A : Type} (a : A) : M A := fun w => (Ok a, w).

Definition raise {A : Type} (e : exn) : M A := fun w => (Err e, w).

Definition bindM {A B : Type} (m : M A) (k : A -> M B) : M B :=
  fun w =>
    match m w with
    | (Ok a, w') => k a w'
    | (Err e, w') => (Err e, w')
    | (Diverge, w') => (Diverge, w')
    end.

(** A pure Python expression evaluated in the runner. *)
Definition lift {A : Type} (o : outcome A) : M A :=
  match o with
  | Returned a => ret a
  | Raised e => raise e
  end.

Declare Scope run_scope.
Delimit Scope run_scope with run.
Notation "x <- m ;; k" := (bindM m (fun x => k))
  (at level 100, m at next level, right associativity) : run_scope.
Notation "' ( x , y ) <- m ;; k" := (bindM m (fun p => let '(x, y) := p in k))
  (at level 100, m at next level, x name, y name, right associativity) : run_scope.
Notation "m ;;; k" := (bindM m (fun _ => k))
  (at level 100, right associativity) : run_scope.

Local Open Scope run_scope.

(** One HTTP exchange. *)
Definition http (rq : Request) : M Response :=
  fun w =>
    let w' := {| server := server w;
                 exchanges := S (exchanges w);
                 wall_clock := wall_clock w;
                 clock_reads := clock_reads w;
                 os_refuses := os_refuses w;
                 trace := EvRequest rq :: trace w |} in
    match server w (exchanges w) rq with
    | Answer st b el => (Ok (mkResponse st b el None), w')
    | Unreachable => (Err ConnectionError, w')
    end.

Definition requests_post (u : string) (body : pyval) (auth : string) : M Response :=
  http {| meth := POST; url := u; json := Some body; authorization_header := auth |}.

Definition requests_get (u : string) (auth : string) : M Response :=
  http {| meth := GET; url := u; json := None; authorization_header := auth |}.

(** [time.time()] *)
Definition time_time : M Qc :=
  fun w =>
    (Ok (wall_clock w (clock_reads w)),
     {| server := server w;
        exchanges := exchanges w;
        wall_clock := wall_clock w;
        clock_reads := S (clock_reads w);
        os_refuses := os_refuses w;
        trace := EvClock (wall_clock w (clock_reads w)) :: trace w |}).

(** [time.sleep] counts the length in nanoseconds in a signed 64-bit
    integer: [sleep_range] is [2^63] nanoseconds, in seconds. *)
Definition sleep_range : Qc := Q2Qc (9223372036854775808 # 1000000000).

(** What [time.sleep(secs)] raises before it asks the operating system:
    [OverflowError] when the length in nanoseconds does not fit a signed
    64-bit count, [ValueError] when it fits and is negative. *)
Definition sleep_error (secs : Qc) : option exn :=
  if Qc_leb sleep_range secs then Some OverflowError
  else if Qc_leb (- sleep_range) secs then
    if Qc_leb (Q2Qc 0) secs then None else Some ValueError
  else Some OverflowError.

(** [time.sleep(secs)]: the checks of [sleep_error], then the sleep itself,
    which the operating system can fail with an [OSError]. *)
Definition time_sleep (secs : Qc) : M unit :=
  fun w =>
    match sleep_error secs with
    | Some e => (Err e, w)
    | None =>
        if os_refuses w (exchanges w) secs then (Err OSError, w)
        else
          (Ok tt,
           {| server := server w;
              exchanges := exchanges w;
              wall_clock := wall_clock w;
              clock_reads := clock_reads w;
              os_refuses := os_refuses w;
              trace := EvSleep secs :: trace w |})
    end.

(** [for _ in range(n)] with the loop-carried state made explicit. *)
Fixpoint for_range {S : Type} (n : nat) (body : S -> M S) (s : S) : M S :=
  match n with
  | O => ret s
  | Datatypes.S n' => s' <- body s ;; for_range n' body s'
  end.

(** [len(range(n))] for a Python [int] [n]: a negative bound gives no
    iteration. *)
Definition range_len (n : Z) : nat := Z.to_nat n.

(** ** The calls *)

(** [format_response_dict]: when [_content] is [bytes] it is decoded and
    parsed; [except (UnicodeDecodeError, json.JSONDecodeError)] keeps the
    content as it is and lets every other exception through; the dict is
    then handed to [pprint.pformat]. *)
Definition format_response_dict (response : Response) : outcome string :=
  match loaded (content response) with
  | LoadsRaised e => Raised e
  | NotBytes | Loaded _ | Undecoded => pformatted (content response)
  end.

Definition Qc_of_Z (z : Z) : Qc := Q2Qc (inject_Z z).

(** [response.client_elapsed_time = ms] *)
Definition set_client_elapsed_time (r : Response) (ms : Qc) : Response :=
  {| status_code := status_code r;
     content := content r;
     elapsed := elapsed r;
     attr_client_elapsed_time := Some ms |}.

Definition action_url (config : Config) (blocking_flag : string) : string :=
  apihost config ++ "/namespaces/_/actions/" ++ function config
    ++ "?blocking=" ++ blocking_flag ++ "&result=true&workers="
    ++ str_of_int (workers config).

Definition sync_call (config : Config) : M Response :=
  let u := action_url config "true" in
  response <- requests_post u (payload config) (authorization config) ;;
  ret (set_client_elapsed_time response (elapsed response * Qc_of_Z 1000)%Qc).

(** [config.apihost+'/namespaces/_/activations/'+activation_id]: [+] wants a
    [str] on the right. *)
Definition activation_url (config : Config) (activation_id : pyval) : outcome string :=
  match activation_id with
  | PyStr a => Returned (apihost config ++ "/namespaces/_/activations/" ++ a)%string
  | _ => Raised TypeError
  end.

(** The [while True] loop of [async_call]; [fuel] bounds the number of GETs
    the model follows. *)
Fixpoint poll (fuel : nat) (config : Config) (u : string) : M Response :=
  match fuel with
  | O => fun w => (Diverge, w)
  | S fuel' =>
      get_response <- requests_get u (authorization config) ;;
      if Z.eqb (status_code get_response) 200 then ret get_response
      else
        time_sleep (Qc_of_Z (time_precision config) / Qc_of_Z 1000)%Qc ;;;
        poll fuel' config u
  end.

Definition async_call (fuel : nat) (config : Config) : M (Response * Response) :=
  let u := action_url config "false" in
  start_time <- time_time ;;
  post_response <- requests_post u (payload config) (authorization config) ;;
  body <- lift (response_json post_response) ;;
  activation_id <- lift (py_getitem body "activationId") ;;
  u <- lift (activation_url config activation_id) ;;
  get_response <- poll fuel config u ;;
  now <- time_time ;;
  ret (post_response,
       set_client_elapsed_time get_response ((now - start_time) * Qc_of_Z 1000)%Qc).

(** [log.info(text)] hands the text to the logger and raises nothing; the
    log is not part of the [World]. *)
Definition log_info (text : string) : M unit := ret tt.

(** The argument of each [log.info] is an f-string, built before the call
    whatever the log level: [format_response_dict] runs on every
    invocation and its exceptions leave [bench_single_invocations]. *)
Definition bench_single_invocations (fuel : nat) (config : Config)
  : M InvocationResult :=
  if blocking config then
    response <- sync_call config ;;
    text <- lift (format_response_dict response) ;;
    log_info text ;;;
    lift (extract_metrics response config)
  else
    '(post_response, get_response) <- async_call fuel config ;;
    post_text <- lift (format_response_dict post_response) ;;
    log_info post_text ;;;
    get_text <- lift (format_response_dict get_response) ;;
    log_info get_text ;;;
    lift (extract_metrics get_response config).

(** Returns [None] in warmup mode, as the Python function does. *)
Definition bench_multiple_invocations (fuel : nat) (config : Config) (warmup : bool)
  : M (option (list InvocationResult)) :=
  if warmup then
    for_range (range_len (warmup_invocations config))
      (fun _ => bench_single_invocations fuel config ;;; ret tt) tt ;;;
    ret None
  else
    metrics_list <-
      for_range (range_len (num_invocations config))
        (fun metrics_list =>
           metrics <- bench_single_invocations fuel config ;;
           ret (metrics_list ++ [metrics]))
        [] ;;
    ret (Some metrics_list).

(** [all_metrics.extend(metrics_list)] *)
Definition extend (all_metrics : list InvocationResult)
  (metrics_list : option (list InvocationResult)) : outcome (list InvocationResult) :=
  match metrics_list with
  | Some l => Returned (all_metrics ++ l)
  | None => Raised TypeError
  end.

(** [run_benchmark] down to the call of [benchmark_statistics]: the value is
    the [all_metrics] list handed to it. *)
Definition collect_metrics (fuel : nat) (config : Config) : M (list InvocationResult) :=
  bench_multiple_invocations fuel config true ;;;
  for_range (range_len (num_runs config))
    (fun all_metrics =>
       metrics_list <- bench_multiple_invocations fuel config false ;;
       lift (extend all_metrics metrics_list))
    [].

Section Benchmark.

Variable sqrt : Qc -> Qc.

(** [run_benchmark] through the computation of [stats]; formatting, printing
    and the optional CSV file come after, in [Presentation.present].  The
    two [log.info] of lines 104 and 109 format integers only and are left
    out.  The value pairs the series with its statistics. *)
Definition run_benchmark (fuel : nat) (config : Config)
  : M (list InvocationResult * Stats) :=
  all_metrics <- collect_metrics fuel config ;;
  stats <- lift (benchmark_statistics sqrt all_metrics) ;;
  ret (all_metrics, stats).

End Benchmark.

(** The invocations of a run, one after the other, with their results in
    the order they were made. *)
Fixpoint invocations (fuel : nat) (config : Config) (n : nat)
  : M (list InvocationResult) :=
  match n with
  | O => ret []
  | S n' =>
      r <- bench_single_invocations fuel config ;;
      rs <- invocations fuel config n' ;;
      ret (r :: rs)
  end.

End Runner.

Export Runner.

(* ================================================================== *)
(** * Fixtures                                                         *)
(* ================================================================== *)

Module Fixture.

(** A square root good enough to run the examples: exact on 0 and 1. *)
Definition sqrt0 (q : Qc) : Qc := q.

Definition config_of (b : bool) (runs invs warm : Z) : Config :=
  {| num_runs := runs; num_invocations := invs; warmup_invocations := warm;
     workers := 1; verbose := false; print_csv := false; function := "hello";
     blocking := b; input_file := None; input_string := None;
     output_file := None; time_limit := 10; time_precision := 100;
     apihost := "https://host/api/v1"; authorization := "Basic abc";
     payload := PyDict [("name", PyStr "x")] |}.

Definition annotation (k : string) (v : pyval) : pyval :=
  PyDict [("key", PyStr k); ("value", v)].

(** The completed activation of the end-to-end scenario. *)
Definition activation : pyval :=
  PyDict [("annotations", PyList [annotation "initTime" (num 5)]);
          ("duration", num 10);
          ("success", PyBool true);
          ("response", PyDict [("status", PyStr "Success")]);
          ("activationId", PyStr "a1")].

Definition response_of (body : option pyval) (ms : option Qc) : Response :=
  {| status_code := 200; content := body_of body; elapsed := Q2Qc 1;
     attr_client_elapsed_time := ms |}.

(** A platform that accepts every POST and completes an activation on every
    second exchange. *)
Definition platform (n : nat) (rq : Request) : Reply :=
  match meth rq with
  | POST => Answer 202 (body_of (Some activation)) (Q2Qc 1)
  | GET => if Nat.even n then Answer 200 (body_of (Some activation)) (Q2Qc 1)
           else Answer 202 (body_of None) (Q2Qc 1)
  end.

Definition world0 : World :=
  {| server := platform; exchanges := 0; wall_clock := Qc_of_nat;
     clock_reads := 0; os_refuses := fun _ _ => false; trace := [] |}.

(** The list a run ended with, empty when it did not end with one. *)
Definition series_of {A : Type} (r : result (list A)) : list A :=
  match r with
  | Ok l => l
  | _ => []
  end.

Definition sample (i w d c : Z) (s : bool) : InvocationResult :=
  {| initTime := num i; waitTime := num w; duration := num d;
     client_elapsed_time := num c; success := PyBool s |}.

End Fixture.

(** The non-blocking run of the fixture: 2 runs of 3 invocations after 1
    warmup, at most 4 polls per invocation. *)
Abbreviation fixture_run :=
  (collect_metrics 4 (Fixture.config_of false 2 3 1) Fixture.world0).

(* ================================================================== *)
(** * Shapes of inputs used in the statements                          *)
(* ================================================================== *)

(** Comparison of two strings that ignores the case of ASCII letters,
    character by character. *)
Fixpoint caseless_eqb (s t : string) : bool :=
  match s, t with
  | EmptyString, EmptyString => true
  | String a s', String b t' =>
      Ascii.eqb (ascii_lower a) (ascii_lower b) && caseless_eqb s' t'
  | _, _ => false
  end.

(** The key and value of an annotation entry the comprehension can store: an
    object with both members and a hashable key. *)
Definition entry_of (item : pyval) : option (pyval * pyval) :=
  match item with
  | PyDict d =>
      match dict_get d "key", dict_get d "value" with
      | Some k, Some v => if hashable k then Some (k, v) else None
      | _, _ => None
      end
  | _ => None
  end.

Definition entry_complete (item : pyval) : bool :=
  match entry_of item with Some _ => true | None => false end.

(** An object that lacks ['key'] or ['value']. *)
Definition entry_incomplete (item : pyval) : bool :=
  match item with
  | PyDict d =>
      match dict_get d "key", dict_get d "value" with
      | Some _, Some _ => false
      | _, _ => true
      end
  | _ => false
  end.

(** The comprehension reaches an incomplete entry: the entries before it are
    complete. *)
Fixpoint hits_incomplete_entry (items : list pyval) : bool :=
  match items with
  | [] => false
  | item :: rest =>
      entry_incomplete item || (entry_complete item && hits_incomplete_entry rest)
  end.

(** Bodies [extract_metrics] degrades to the zero record: the body does not
    decode, or the comprehension reaches an annotation without ['key'] or
    ['value']. *)
Definition degraded_input (response : Response) : bool :=
  match response_json response with
  | Raised ValueError => true
  | Returned (PyDict d) =>
      match dict_get d "annotations" with
      | Some (PyList items) => hits_incomplete_entry items
      | _ => false
      end
  | _ => false
  end.

(** One step of the comprehension on a complete entry. *)
Definition store_entry (acc : pydict) (kv : pyval * pyval) : pydict :=
  dict_store acc (fst kv) (snd kv).

(** Is this entry's key the string [name]? *)
Definition entry_named (name : string) (item : pyval) : bool :=
  match entry_of item with
  | Some (k, _) => py_eqb k (PyStr name)
  | None => false
  end.

(** The GET request of the polling loop. *)
Definition get_request (config : Config) (u : string) : Request :=
  {| meth := GET; url := u; json := None;
     authorization_header := authorization config |}.

(** The reply the [k]-th GET (from 0) of a loop started in [w] receives:
    only the GETs of the loop advance the count of exchanges. *)
Definition reply_at (w : World) (config : Config) (u : string) (k : nat) : Reply :=
  server w (exchanges w + k) (get_request config u).

(** The reply has HTTP status 200. *)
Definition completes (r : Reply) : bool :=
  match r with
  | Answer st _ _ => Z.eqb st 200
  | Unreachable => false
  end.

(** The reply is an HTTP response with another status. *)
Definition pending (r : Reply) : bool :=
  match r with
  | Answer st _ _ => negb (Z.eqb st 200)
  | Unreachable => false
  end.

(** The pause between two polls, in seconds. *)
Definition poll_pause (config : Config) : Qc :=
  (Qc_of_Z (time_precision config) / Qc_of_Z 1000)%Qc.

(** The world after one GET of the loop. *)
Definition after_get (config : Config) (u : string) (w : World) : World :=
  {| server := server w; exchanges := S (exchanges w);
     wall_clock := wall_clock w; clock_reads := clock_reads w;
     os_refuses := os_refuses w;
     trace := EvRequest (get_request config u) :: trace w |}.

(** The world after one GET and the sleep that follows it. *)
Definition after_pause (config : Config) (u : string) (w : World) : World :=
  {| server := server w; exchanges := S (exchanges w);
     wall_clock := wall_clock w; clock_reads := clock_reads w;
     os_refuses := os_refuses w;
     trace := EvSleep (poll_pause config)
                :: EvRequest (get_request config u) :: trace w |}.

(** The events of a loop that polls [n] times without completion and once
    more: GETs separated by one sleep each (most recent first). *)
Fixpoint poll_trace (config : Config) (u : string) (n : nat) : list Event :=
  match n with
  | O => [EvRequest (get_request config u)]
  | S k =>
      EvRequest (get_request config u) :: EvSleep (poll_pause config)
        :: poll_trace config u k
  end.

(** A transport that answers 202 to the first [n] exchanges and 200 from
    then on. *)
Definition slow_world (n : nat) : World :=
  {| server := fun k _ => if Nat.ltb k n then Answer 202 (body_of None) (Q2Qc 0)
                          else Answer 200 (body_of None) (Q2Qc 0);
     exchanges := 0; wall_clock := fun _ => Q2Qc 0; clock_reads := 0;
     os_refuses := fun _ _ => false; trace := [] |}.

(** Whether [time.sleep] takes the pause after the [k]-th GET (from 0) of a
    loop started in [w]: the length passes the checks of [sleep_error] and
    the operating system does not fail the sleep. *)
Definition pauses (w : World) (config : Config) (k : nat) : bool :=
  match sleep_error (poll_pause config) with
  | Some _ => false
  | None => negb (os_refuses w (exchanges w + S k) (poll_pause config))
  end.

(** The exception of a pause [time.sleep] does not take. *)
Definition pause_exn (config : Config) : exn :=
  match sleep_error (poll_pause config) with
  | Some e => e
  | None => OSError
  end.

(** The [k]-th turn of the loop goes on to the next: its GET is answered
    with a status other than 200 and the pause after it is taken. *)
Definition waits (w : World) (config : Config) (u : string) (k : nat) : bool :=
  pending (reply_at w config u k) && pauses w config k.

(** The world after [n] turns of the loop that went on to the next. *)
Fixpoint after_pauses (config : Config) (u : string) (n : nat) (w : World) : World :=
  match n with
  | O => w
  | S k => after_pauses config u k (after_pause config u w)
  end.

(** The response object [requests] builds from a reply. *)
Definition response_to (r : Reply) : option Response :=
  match r with
  | Answer st b el => Some (mkResponse st b el None)
  | Unreachable => None
  end.

(** The activation id [async_call] reads off the reply to its POST: the
    string under ['activationId'] of a body that decodes to an object. *)
Definition activation_id_of (r : Reply) : option string :=
  match r with
  | Answer _ b _ =>
      match decoded b with
      | Returned (PyDict d) =>
          match dict_get d "activationId" with
          | Some (PyStr a) => Some a
          | _ => None
          end
      | _ => None
      end
  | Unreachable => None
  end.

(** The URL the loop polls for the activation [a]. *)
Definition poll_url (config : Config) (a : string) : string :=
  (apihost config ++ "/namespaces/_/activations/" ++ a)%string.

(** A transport that accepts every POST with the activation id ["a1"] and
    answers 202 to the GETs among the exchanges up to the [n]-th, 200 to
    the later ones. *)
Definition patient_world (n : nat) : World :=
  {| server := fun k rq =>
       match meth rq with
       | POST => Answer 202 (body_of (Some (PyDict [("activationId", PyStr "a1")])))
                   (Q2Qc 0)
       | GET => if Nat.leb k n then Answer 202 (body_of None) (Q2Qc 0)
                else Answer 200 (body_of None) (Q2Qc 0)
       end;
     exchanges := 0; wall_clock := fun _ => Q2Qc 0; clock_reads := 0;
     os_refuses := fun _ _ => false; trace := [] |}.

(** A value [statistics] accepts as a number. *)
Definition is_number (v : pyval) : bool :=
  match as_number v with Some _ => true | None => false end.

(** A record whose four numeric fields hold numbers. *)
Definition numeric_result (m : InvocationResult) : bool :=
  is_number (initTime m) && is_number (waitTime m)
  && is_number (duration m) && is_number (client_elapsed_time m).

(** [minimum <= average <= maximum] *)
Definition stat_ordered (st : Stat) : Prop :=
  (min st <= avg st)%Qc /\ (avg st <= max st)%Qc.

(** [d.get(k, default)] on parsed JSON. *)
Definition get_default (d : list (string * pyval)) (k : string) (default : pyval) : pyval :=
  match dict_get d k with
  | Some v => v
  | None => default
  end.

(** The string [response.status] of a body, with the defaults of line 19;
    [None] when one of the two is present with the wrong type. *)
Definition status_string (d : list (string * pyval)) : option string :=
  match get_default d "response" (PyDict []) with
  | PyDict rd =>
      match get_default rd "status" (PyStr EmptyString) with
      | PyStr s => Some s
      | _ => None
      end
  | _ => None
  end.

(** The four numeric dimensions: the field of a record and the entry of the
    [stats] dict computed from it. *)
Inductive Dimension : Type :=
| DInitTime
| DWaitTime
| DDuration
| DClientElapsedTime.

Definition field_of (dm : Dimension) : InvocationResult -> pyval :=
  match dm with
  | DInitTime => initTime
  | DWaitTime => waitTime
  | DDuration => duration
  | DClientElapsedTime => client_elapsed_time
  end.

Definition stat_for (dm : Dimension) : Stats -> Stat :=
  match dm with
  | DInitTime => st_initTime
  | DWaitTime => st_waitTime
  | DDuration => st_duration
  | DClientElapsedTime => st_client_elapsed_time
  end.

(** The POST of an invocation; [flag] is ["true"] in [sync_call] and
    ["false"] in [async_call]. *)
Definition post_request (config : Config) (flag : string) : Request :=
  {| meth := POST; url := action_url config flag; json := Some (payload config);
     authorization_header := authorization config |}.

(** The world after the POST of an invocation. *)
Definition after_post (config : Config) (flag : string) (w : World) : World :=
  {| server := server w; exchanges := S (exchanges w);
     wall_clock := wall_clock w; clock_reads := clock_reads w;
     os_refuses := os_refuses w;
     trace := EvRequest (post_request config flag) :: trace w |}.

(** The world after one [time.time()]. *)
Definition after_clock (w : World) : World :=
  {| server := server w; exchanges := exchanges w;
     wall_clock := wall_clock w; clock_reads := S (clock_reads w);
     os_refuses := os_refuses w;
     trace := EvClock (wall_clock w (clock_reads w)) :: trace w |}.

(** The world in which the polling loop of [async_call] starts: the clock
    was read and the POST was made. *)
Definition loop_start (config : Config) (w : World) : World :=
  after_post config "false" (after_clock w).

(** The events a run with [config] may leave in the trace: the POST of its
    mode with the configured payload, GETs of activations under [apihost],
    sleeps of [time_precision / 1000] seconds and readings of the clock in
    non-blocking mode only, every request with the configured credential. *)
Definition configured_event (config : Config) (ev : Event) : Prop :=
  match ev with
  | EvRequest rq =>
      authorization_header rq = authorization config
      /\ match meth rq with
         | POST =>
             url rq = action_url config (if blocking config then "true" else "false")
             /\ json rq = Some (payload config)
         | GET =>
             blocking config = false
             /\ json rq = None
             /\ exists a,
                  url rq = (apihost config ++ "/namespaces/_/activations/" ++ a)%string
         end
  | EvSleep secs => blocking config = false /\ secs = poll_pause config
  | EvClock _ => blocking config = false
  end.

(** From [w] to [w']: the transport and the clock are the same and the trace
    grew by events that satisfy [P]. *)
Definition emits (P : Event -> Prop) (w w' : World) : Prop :=
  server w' = server w
  /\ wall_clock w' = wall_clock w
  /\ exists evs, trace w' = evs ++ trace w /\ Forall P evs.

(** A computation that only [emits] events satisfying [P], however it
    ends. *)
Definition emitting (P : Event -> Prop) {A : Type} (m : M A) : Prop :=
  forall w, emits P w (snd (m w)).

(** A configuration with another [time_precision]. *)
Definition with_time_precision_of (c : Config) (ms : Z) : Config :=
  {| num_runs := num_runs c;
     num_invocations := num_invocations c;
     warmup_invocations := warmup_invocations c;
     workers := workers c;
     verbose := verbose c;
     print_csv := print_csv c;
     function := function c;
     blocking := blocking c;
     input_file := input_file c;
     input_string := input_string c;
     output_file := output_file c;
     time_limit := time_limit c;
     time_precision := ms;
     apihost := apihost c;
     authorization := authorization c;
     payload := payload c |}.

(** A configuration with another [output_file]. *)
Definition with_output_file (c : Config) (path : option string) : Config :=
  {| num_runs := num_runs c;
     num_invocations := num_invocations c;
     warmup_invocations := warmup_invocations c;
     workers := workers c;
     verbose := verbose c;
     print_csv := print_csv c;
     function := function c;
     blocking := blocking c;
     input_file := input_file c;
     input_string := input_string c;
     output_file := path;
     time_limit := time_limit c;
     time_precision := time_precision c;
     apihost := apihost c;
     authorization := authorization c;
     payload := payload c |}.

(** A transport that gives the same reply to every request. *)
Definition constant_world (r : Reply) : World :=
  {| server := fun _ _ => r; exchanges := 0; wall_clock := Qc_of_nat;
     clock_reads := 0; os_refuses := fun _ _ => false; trace := [] |}.

(** An [outcome] as the [result] of a run. *)
Definition result_of {A : Type} (o : outcome A) : result A :=
  match o with
  | Returned a => Ok a
  | Raised e => Err e
  end.

(** The reply is an HTTP response on which [response.json()] raises
    [ValueError]. *)
Definition undecodable (r : Reply) : bool :=
  match r with
  | Answer _ b _ =>
      match decoded b with
      | Raised ValueError => true
      | _ => false
      end
  | Unreachable => false
  end.

(** The reply is an HTTP response that [format_response_dict] formats. *)
Definition loggable (r : Reply) : bool :=
  match r with
  | Answer st b el =>
      match format_response_dict (mkResponse st b el None) with
      | Returned _ => true
      | Raised _ => false
      end
  | Unreachable => false
  end.

(** What [bench_single_invocations] makes of a response once the call has
    returned it: the text for the log, built first, then the record. *)
Definition recorded (response : Response) (config : Config)
  : outcome InvocationResult :=
  bind (format_response_dict response) (fun _ => extract_metrics response config).

(** Does the [except (ValueError, KeyError)] clause of [extract_metrics]
    name the exception? *)
Definition caught (e : exn) : bool :=
  match e with
  | ValueError | KeyError => true
  | _ => false
  end.

(** The exception [async_call] raises on the reply to its POST, if any:
    the body does not decode, is not an object, has no ['activationId'], or
    has one that is not a string. *)
Definition activation_id_error (body : outcome pyval) : option exn :=
  match body with
  | Raised e => Some e
  | Returned (PyDict d) =>
      match dict_get d "activationId" with
      | None => Some KeyError
      | Some (PyStr _) => None
      | Some _ => Some TypeError
      end
  | Returned _ => Some TypeError
  end.

(* ================================================================== *)
(** * metrics.py and runner.py: presenting the results                 *)
(* ================================================================== *)

Module Presentation.

(** [payload_str[:n]] *)
Fixpoint slice_to (n : nat) (s : string) : string :=
  match n, s with
  | S n', String c rest => String c (slice_to n' rest)
  | _, _ => EmptyString
  end.

(** Lines 81-83 of [format_results], on [payload_str = json.dumps(config.payload,
    indent=4)] (ASCII, as [json.dumps] escapes everything else):
    [if len(payload_str) > 500: payload_str = payload_str[:500] + '... (truncated)']. *)
Definition truncate_payload (payload_str : string) : string :=
  if Nat.ltb 500 (String.length payload_str)
  then (slice_to 500 payload_str ++ "... (truncated)")%string
  else payload_str.

(** The names bound at the top level of [metrics.py]: its three imports and
    its four functions. *)
Definition metrics_module_names : list string :=
  ["statistics"; "json"; "tabulate"; "extract_metrics"; "benchmark_statistics";
   "format_results"; "write_results_to_file_csv"].

(** Looking up a global name in [metrics.py] (no builtin is called [csv] or
    [log]). *)
Definition name_bound (name : string) : bool :=
  existsb (String.eqb name) metrics_module_names.

(** How the presentation step ends: it completes, or an exception leaves
    it. *)
Inductive report_result : Type :=
| Reported
| Failed (e : exn).

(** Standard output and the files: [can_open path] tells whether
    [open(path, 'w')] succeeds, [files path] is the lines of the file when it
    exists, [stdout] is what was printed, most recent first. *)
Record Outside : Type := mkOutside {
  can_open : string -> bool;
  files : string -> option (list string);
  stdout : list string
}.

(** [open(path, 'w')] creates the file or empties it. *)
Definition truncated (path : string) (o : Outside) : Outside :=
  {| can_open := can_open o;
     files := fun p => if String.eqb p path then Some [] else files o p;
     stdout := stdout o |}.

Definition with_lines (path : string) (lines : list string) (o : Outside) : Outside :=
  {| can_open := can_open o;
     files := fun p => if String.eqb p path then Some lines else files o p;
     stdout := stdout o |}.

Definition printed (text : string) (o : Outside) : Outside :=
  {| can_open := can_open o; files := files o; stdout := text :: stdout o |}.

(** [if config.output_file:] *)
Definition path_given (output : option string) : bool :=
  match output with
  | None => false
  | Some p => negb (String.eqb p EmptyString)
  end.

Section Rendering.

(** The library calls of [format_results]: [format(x, spec)] of a number,
    which raises [OverflowError] on an [int] too large for a [float];
    [json.dumps(value, indent=...)]; [tabulate(rows, headers=...,
    tablefmt='grid')].  What they print is not modelled, what they raise
    is theirs to say. *)
Variable format_spec : string -> Qc -> outcome string.
Variable json_dumps : pyval -> option nat -> outcome string.
Variable tabulate : list (list string) -> list string -> outcome string.

(** The lines [csv.DictWriter] would write. *)
Variable csv_lines : Stats -> list string.

Local Open Scope py_scope.

(** The four formatted cells of one dimension, in the order the f-strings
    evaluate them. *)
Definition cells (st : Stat) : outcome (list string) :=
  a <- format_spec ".4f" (avg st) ;;
  lo <- format_spec ".4f" (min st) ;;
  hi <- format_spec ".4f" (max st) ;;
  sd <- format_spec ".4f" (std st) ;;
  Returned [a; lo; hi; sd].

(** [','.join] of a label and its cells, with the newline of the f-string. *)
Fixpoint csv_row (label : string) (cs : list string) : string :=
  match cs with
  | [] => (label ++ String (ascii_of_nat 10) EmptyString)%string
  | c :: rest => csv_row (label ++ "," ++ c)%string rest
  end.

(** The five rows of the report: both branches of [format_results] format
    the same seventeen numbers in the same order. *)
Definition rows (stats : Stats) : outcome (list (list string)) :=
  i <- cells (st_initTime stats) ;;
  w <- cells (st_waitTime stats) ;;
  d <- cells (st_duration stats) ;;
  c <- cells (st_client_elapsed_time stats) ;;
  rate <- format_spec ".2f" (success_rate stats) ;;
  Returned [ "InitTime" :: i; "WaitTime" :: w; "Duration" :: d;
             "Client Elapsed Time" :: c;
             ["Success Rate"; (rate ++ "%")%string; "-"; "-"; "-"] ].

Definition csv_line (row : list string) : string :=
  match row with
  | [] => EmptyString
  | label :: cs => csv_row label cs
  end.

(** [format_results]: lines 58-67 with [print_csv], lines 70-95 without. *)
Definition format_results (stats : Stats) (config : Config) : outcome string :=
  if print_csv config then
    table_data <- rows stats ;;
    Returned (fold_left String.append (map csv_line table_data)
                (csv_row "Metric"
                   ["Average"; "Minimum"; "Maximum"; "Standard Deviation"]))
  else
    let headers := ["Metric"; "Average"; "Minimum"; "Maximum"; "Standard Deviation"] in
    table_data <- rows stats ;;
    payload_str <- json_dumps (payload config) (Some 4%nat) ;;
    let payload_str := truncate_payload payload_str in
    compact <- json_dumps (payload config) None ;;
    table <- tabulate table_data headers ;;
    let nl := String (ascii_of_nat 10) EmptyString in
    Returned (nl ++ nl
              ++ "-------------------------------------------------------------------"
              ++ nl ++ "Benchmark Results:" ++ nl
              ++ "Number of Warp-up invocations: "
              ++ str_of_int (warmup_invocations config) ++ nl
              ++ "Number of runs: " ++ str_of_int (num_runs config) ++ nl
              ++ "Number of invocations per run: "
              ++ str_of_int (num_invocations config) ++ nl ++ nl
              ++ "Payload size: "
              ++ str_of_int (Z.of_nat (String.length compact)) ++ " bytes" ++ nl
              ++ "Payload: " ++ payload_str ++ nl ++ nl
              ++ table ++ nl)%string.

(** [write_results_to_file_csv]: open the file, then look up [csv], write
    the header and the rows, leave the [with] block and look up [log]. *)
Definition write_results_to_file_csv (stats : Stats) (config : Config)
  (o : Outside) : report_result * Outside :=
  match output_file config with
  | None => (Failed TypeError, o)
  | Some path =>
      if can_open o path then
        let o1 := truncated path o in
        if name_bound "csv" then
          let o2 := with_lines path (csv_lines stats) o1 in
          if name_bound "log" then (Reported, o2) else (Failed NameError, o2)
        else (Failed NameError, o1)
      else (Failed OSError, o)
  end.

(** The end of [run_benchmark], from [stats] on: format, print, and write
    the file when [output_file] is set.  An exception of [format_results]
    leaves before anything is printed. *)
Definition present (stats : Stats) (config : Config) (o : Outside)
  : report_result * Outside :=
  match format_results stats config with
  | Raised e => (Failed e, o)
  | Returned results =>
      let o1 := printed results o in
      if path_given (output_file config)
      then write_results_to_file_csv stats config o1
      else (Reported, o1)
  end.

End Rendering.

End Presentation.

(* ================================================================== *)
(** * Properties of the Python layer                                   *)
(* ================================================================== *)

Local Open Scope py_scope.

Lemma Qc_eqb_eq (x y : Qc) : Qc_eqb x y = true <-> x = y.
Proof.
  unfold Qc_eqb. rewrite Qeq_bool_iff. split.
  - apply Qc_is_canon.
  - intros ->. reflexivity.
Qed.

Lemma Qc_leb_le (x y : Qc) : Qc_leb x y = true <-> (x <= y)%Qc.
Proof. unfold Qc_leb, Qcle. apply Qle_bool_iff. Qed.

Lemma Qc_leb_gt (x y : Qc) : Qc_leb x y = false -> (y <= x)%Qc.
Proof.
  intros H. apply Qcnot_lt_le. intros Hlt.
  apply Qclt_le_weak, Qc_leb_le in Hlt. congruence.
Qed.

Lemma bind_Returned {A B : Type} (m : outcome A) (k : A -> outcome B) (b : B) :
  bind m k = Returned b -> exists a, m = Returned a /\ k a = Returned b.
Proof. destruct m as [a|e]; simpl; intros H; [eauto | discriminate]. Qed.

Ltac bind_inv H :=
  let a := fresh "a" in
  let Ha := fresh "Ha" in
  apply bind_Returned in H; destruct H as (a & Ha & H).

Lemma lower_eqb_caseless (s t : string) :
  String.eqb (lower s) (lower t) = caseless_eqb s t.
Proof.
  revert t. induction s as [|a s IH]; intros [|b t]; simpl; try reflexivity.
  rewrite IH. reflexivity.
Qed.

Lemma lower_success_caseless (s : string) :
  py_eqb (PyStr (lower s)) (PyStr "success") = caseless_eqb s "success".
Proof. simpl py_eqb. rewrite <- lower_eqb_caseless. reflexivity. Qed.

(* ================================================================== *)
(** * extract_metrics                                                  *)
(* ================================================================== *)

Lemma py_get_dict (d : list (string * pyval)) (k : string) (default : pyval) :
  py_get (PyDict d) k default = Returned (get_default d k default).
Proof. unfold py_get, get_default. destruct (dict_get d k); reflexivity. Qed.

Lemma annotations_of_incomplete (items : list pyval) :
  hits_incomplete_entry items = true ->
  forall acc, annotations_of items acc = Raised KeyError.
Proof.
  induction items as [|item rest IH]; simpl; [discriminate|].
  intros H acc. apply orb_true_iff in H. destruct H as [H|H].
  - destruct item; simpl in H; try discriminate.
    simpl. destruct (dict_get d "key"); [|reflexivity].
    simpl. destruct (dict_get d "value"); [discriminate|reflexivity].
  - apply andb_true_iff in H. destruct H as [Hc Hr].
    unfold entry_complete, entry_of in Hc.
    destruct item; try discriminate.
    simpl. destruct (dict_get d "key") as [k|]; [|discriminate].
    destruct (dict_get d "value") as [v|]; [|discriminate].
    simpl. unfold dict_setitem. destruct (hashable k); [|discriminate].
    simpl. apply IH, Hr.
Qed.

Lemma annotations_of_entries (items : list pyval) (kvs : list (pyval * pyval)) :
  Forall2 (fun item kv => entry_of item = Some kv) items kvs ->
  forall acc, annotations_of items acc = Returned (fold_left store_entry kvs acc).
Proof.
  induction 1 as [|item kv items kvs Hkv _ IH]; intros acc; [reflexivity|].
  unfold entry_of in Hkv. destruct item; try discriminate.
  simpl. destruct (dict_get d "key") as [k|]; [|discriminate].
  destruct (dict_get d "value") as [v|]; [|discriminate].
  simpl. unfold dict_setitem.
  destruct (hashable k); [|discriminate].
  injection Hkv as <-. simpl. apply IH.
Qed.

Lemma py_eqb_str_compat (k' k : pyval) (s : string) :
  py_eqb k' k = true -> py_eqb k' (PyStr s) = py_eqb k (PyStr s).
Proof.
  destruct k' as [| [] | | t | |], k as [| [] | | u | |]; simpl;
    try discriminate; try reflexivity.
  intros H. apply String.eqb_eq in H. subst. reflexivity.
Qed.

Lemma py_eqb_str_both (k' k : pyval) (s : string) :
  py_eqb k' (PyStr s) = true -> py_eqb k (PyStr s) = true -> py_eqb k' k = true.
Proof.
  destruct k' as [| [] | | t | |], k as [| [] | | u | |]; simpl;
    try discriminate.
  intros H1 H2. apply String.eqb_eq in H1, H2. subst. apply String.eqb_refl.
Qed.

Lemma pydict_get_store (d : pydict) (k v : pyval) (s : string) (default : pyval) :
  pydict_get (dict_store d k v) (PyStr s) default =
  if py_eqb k (PyStr s) then v else pydict_get d (PyStr s) default.
Proof.
  induction d as [|[k' v'] rest IH]; simpl; [reflexivity|].
  destruct (py_eqb k' k) eqn:Hk; simpl.
  - rewrite (py_eqb_str_compat _ _ s Hk).
    destruct (py_eqb k (PyStr s)); reflexivity.
  - rewrite IH.
    destruct (py_eqb k' (PyStr s)) eqn:H1, (py_eqb k (PyStr s)) eqn:H2;
      try reflexivity.
    rewrite (py_eqb_str_both _ _ _ H1 H2) in Hk. discriminate.
Qed.

Lemma pydict_get_fold_other (kvs : list (pyval * pyval)) (s : string) (default : pyval) :
  Forall (fun kv => py_eqb (fst kv) (PyStr s) = false) kvs ->
  forall acc,
    pydict_get (fold_left store_entry kvs acc) (PyStr s) default =
    pydict_get acc (PyStr s) default.
Proof.
  induction 1 as [|[k v] kvs Hk _ IH]; intros acc; simpl; [reflexivity|].
  rewrite IH. unfold store_entry. simpl in *.
  rewrite pydict_get_store, Hk. reflexivity.
Qed.

(** The dict built from [pre ++ (name, v) :: post] maps [name] to [v] when no
    entry of [post] has that key. *)
Lemma pydict_get_last (pre post : list (pyval * pyval)) (s : string) (v default : pyval) :
  Forall (fun kv => py_eqb (fst kv) (PyStr s) = false) post ->
  pydict_get (fold_left store_entry (pre ++ (PyStr s, v) :: post) []) (PyStr s) default = v.
Proof.
  intros Hpost. rewrite fold_left_app. simpl.
  rewrite pydict_get_fold_other by assumption.
  unfold store_entry at 1. simpl fst. simpl snd.
  rewrite pydict_get_store. simpl. rewrite String.eqb_refl. reflexivity.
Qed.

Lemma entries_exist (items : list pyval) :
  Forall (fun item => entry_complete item = true) items ->
  exists kvs, Forall2 (fun item kv => entry_of item = Some kv) items kvs.
Proof.
  induction 1 as [|item items Hc _ [kvs IH]].
  - exists []. constructor.
  - unfold entry_complete in Hc. destruct (entry_of item) as [kv|] eqn:E; [|discriminate].
    exists (kv :: kvs). constructor; assumption.
Qed.

(** A body that decodes to an object without an annotation list: each
    absent top-level field takes its own default and the measured time is
    kept. *)
Lemma extract_metrics_defaults (response : Response) (config : Config)
  (d : list (string * pyval)) (s : pyval) :
  response_json response = Returned (PyDict d) ->
  dict_get d "annotations" = None ->
  success_of (PyDict d) config = Returned s ->
  extract_metrics response config =
  Returned {| initTime := num 0; waitTime := num 0;
              duration := get_default d "duration" (num 0);
              client_elapsed_time := getattr_client_elapsed_time response;
              success := s |}.
Proof.
  intros Hb Ha Hs.
  unfold extract_metrics, extract_metrics_try.
  rewrite Hb. cbn [bind]. rewrite !py_get_dict.
  unfold get_default at 1. rewrite Ha. cbn [bind py_iter annotations_of].
  rewrite Hs. reflexivity.
Qed.

Lemma success_of_blocking (d : list (string * pyval)) (config : Config) :
  blocking config = true ->
  success_of (PyDict d) config = Returned (get_default d "success" (PyBool false)).
Proof. intros H. unfold success_of. rewrite H. apply py_get_dict. Qed.

(** C1, as the code has it: when the body does not decode, or the
    comprehension over the annotation list reaches an object without ['key']
    or ['value'], [extract_metrics] returns exactly the record with the four
    numeric fields at 0 and [success] false, and raises nothing.  A body
    that decodes to an object and only lacks top-level fields is not
    degraded to that record: in blocking mode, without an annotation list,
    [initTime] and [waitTime] are 0, [duration] and [success] are the
    body's members or their defaults 0 and false, and
    [client_elapsed_time] is the measured value. *)
Theorem extract_metrics_degrades (response : Response) (config : Config) :
  (degraded_input response = true ->
   extract_metrics response config = Returned zero_result)
  /\ (forall d,
        response_json response = Returned (PyDict d) ->
        dict_get d "annotations" = None ->
        blocking config = true ->
        extract_metrics response config =
        Returned {| initTime := num 0; waitTime := num 0;
                    duration := get_default d "duration" (num 0);
                    client_elapsed_time := getattr_client_elapsed_time response;
                    success := get_default d "success" (PyBool false) |}).
Proof.
  split.
  - unfold degraded_input, extract_metrics, extract_metrics_try.
    destruct (response_json response) as [body|e];
      [|destruct e; try discriminate; reflexivity].
    destruct body as [| | | | |d]; try discriminate.
    cbn [bind]. rewrite py_get_dict. unfold get_default.
    destruct (dict_get d "annotations") as [a|]; [|discriminate].
    destruct a as [| | | |items|]; try discriminate.
    intros H. cbn [bind py_iter].
    rewrite (annotations_of_incomplete items H). reflexivity.
  - intros d Hb Ha Hm.
    apply extract_metrics_defaults; [exact Hb | exact Ha |].
    apply success_of_blocking, Hm.
Qed.

Lemma extract_metrics_degrades_witness :
  degraded_input
    (Fixture.response_of
       (Some (PyDict [("annotations",
                       PyList [Fixture.annotation "initTime" (num 5);
                               PyDict [("key", PyStr "waitTime")]]);
                      ("duration", num 10); ("success", PyBool true)]))
       (Some (Q2Qc 7))) = true
  /\ extract_metrics
       (Fixture.response_of
          (Some (PyDict [("annotations",
                          PyList [Fixture.annotation "initTime" (num 5);
                                  PyDict [("key", PyStr "waitTime")]]);
                         ("duration", num 10); ("success", PyBool true)]))
          (Some (Q2Qc 7)))
       (Fixture.config_of true 2 3 1) = Returned zero_result
  /\ extract_metrics
       (Fixture.response_of (Some (PyDict [("duration", num 10)])) (Some (Q2Qc 7)))
       (Fixture.config_of true 2 3 1)
     = Returned {| initTime := num 0; waitTime := num 0; duration := num 10;
                   client_elapsed_time := PyNum (Q2Qc 7);
                   success := PyBool false |}.
Proof.
  split; [reflexivity|]. split.
  - apply (proj1 (extract_metrics_degrades _ _)). reflexivity.
  - exact (proj2 (extract_metrics_degrades
                    (Fixture.response_of (Some (PyDict [("duration", num 10)]))
                       (Some (Q2Qc 7)))
                    (Fixture.config_of true 2 3 1))
             _ eq_refl eq_refl eq_refl).
Defined.

(** C1 as stated fails: the body [{}] lacks every expected field, yet the
    record keeps the measured [client_elapsed_time] (7 here) instead of 0. *)
Lemma extract_metrics_missing_fields_keep_elapsed :
  extract_metrics (Fixture.response_of (Some (PyDict [])) (Some (Q2Qc 7)))
    (Fixture.config_of true 2 3 1)
  = Returned {| initTime := num 0; waitTime := num 0; duration := num 0;
                client_elapsed_time := PyNum (Q2Qc 7); success := PyBool false |}
  /\ extract_metrics (Fixture.response_of (Some (PyDict [])) (Some (Q2Qc 7)))
       (Fixture.config_of true 2 3 1)
     <> Returned zero_result.
Proof.
  split; [reflexivity|].
  intros H. vm_compute in H. discriminate H.
Qed.

(** Bodies that decode but are not objects leave [extract_metrics] with an
    exception the [except] clause does not name. *)
Lemma extract_metrics_raises_on_non_object (response : Response) (config : Config)
  (body : pyval) :
  response_json response = Returned body ->
  (forall d, body <> PyDict d) ->
  extract_metrics response config = Raised AttributeError.
Proof.
  intros Hb Hd.
  unfold extract_metrics, extract_metrics_try. rewrite Hb.
  destruct body; try reflexivity. exfalso. eapply Hd. reflexivity.
Qed.

(** C2: when the [try] block runs to its [return], the [success] field is, in
    blocking mode, the top-level [success] member of the body (false when
    absent) and, in non-blocking mode, the truth of "[response.status]
    equals ["success"] up to case". *)
Theorem success_by_mode (response : Response) (config : Config)
  (d : list (string * pyval)) (r : InvocationResult) :
  response_json response = Returned (PyDict d) ->
  extract_metrics_try response config = Returned r ->
  extract_metrics response config = Returned r
  /\ (blocking config = true ->
      success r = get_default d "success" (PyBool false))
  /\ (blocking config = false ->
      exists s, status_string d = Some s
                /\ success r = PyBool (caseless_eqb s "success")).
Proof.
  intros Hb Ht. split.
  { unfold extract_metrics. rewrite Ht. reflexivity. }
  unfold extract_metrics_try in Ht. rewrite Hb in Ht.
  cbn [bind] in Ht. rewrite py_get_dict in Ht. cbn [bind] in Ht.
  bind_inv Ht. bind_inv Ht. rewrite py_get_dict in Ht. cbn [bind] in Ht.
  bind_inv Ht. injection Ht as <-. simpl success.
  unfold success_of in Ha1. split; intros Hm; rewrite Hm in Ha1.
  - rewrite py_get_dict in Ha1. congruence.
  - rewrite py_get_dict in Ha1. cbn [bind] in Ha1. unfold status_string.
    destruct (get_default d "response" (PyDict [])) as [| | | | |rd];
      try discriminate.
    rewrite py_get_dict in Ha1. cbn [bind] in Ha1.
    destruct (get_default rd "status" (PyStr EmptyString)) as [| | |s| |];
      try discriminate.
    cbn [bind py_lower] in Ha1. exists s. split; [reflexivity|].
    rewrite lower_success_caseless in Ha1. congruence.
Qed.

Lemma success_by_mode_witness :
  exists r,
    extract_metrics
      (Fixture.response_of (Some Fixture.activation) (Some (Q2Qc 7)))
      (Fixture.config_of false 2 3 1) = Returned r
    /\ success r = PyBool true.
Proof.
  eexists.
  pose proof (success_by_mode
                (Fixture.response_of (Some Fixture.activation) (Some (Q2Qc 7)))
                (Fixture.config_of false 2 3 1) _ _ eq_refl eq_refl) as (H1 & _ & H3).
  split; [exact H1|].
  destruct (H3 eq_refl) as (s & Hs & Hr).
  rewrite Hr. injection Hs as <-. reflexivity.
Defined.

(** The fixtures of the two predicates: a blocking body with [success] true,
    a non-blocking status ["Success"] and a non-blocking status
    ["failure"]. *)
Example success_fixtures :
  success_of (PyDict [("success", PyBool true)]) (Fixture.config_of true 2 3 1)
  = Returned (PyBool true)
  /\ success_of (PyDict [("response", PyDict [("status", PyStr "Success")])])
       (Fixture.config_of false 2 3 1)
     = Returned (PyBool true)
  /\ success_of (PyDict [("response", PyDict [("status", PyStr "failure")])])
       (Fixture.config_of false 2 3 1)
     = Returned (PyBool false)
  /\ success_of (PyDict []) (Fixture.config_of false 2 3 1)
     = Returned (PyBool false).
Proof. repeat split. Qed.

(** C10: when every annotation entry is an object with a hashable key and a
    value, the entry named [name] that no later entry of the same name
    follows supplies the value the record gets for [initTime] or
    [waitTime]. *)
Theorem last_annotation_wins (response : Response) (config : Config)
  (d : list (string * pyval)) (pre post : list pyval) (item v s : pyval)
  (name : string) :
  response_json response = Returned (PyDict d) ->
  dict_get d "annotations" = Some (PyList (pre ++ item :: post)) ->
  entry_of item = Some (PyStr name, v) ->
  Forall (fun it => entry_complete it = true) (pre ++ post) ->
  Forall (fun it => entry_named name it = false) post ->
  success_of (PyDict d) config = Returned s ->
  exists r,
    extract_metrics response config = Returned r
    /\ (name = "initTime" -> initTime r = v)
    /\ (name = "waitTime" -> waitTime r = v).
Proof.
  intros Hb Ha Hitem Hall Hpost Hs.
  apply Forall_app in Hall. destruct Hall as [Hpre Hpost'].
  destruct (entries_exist pre Hpre) as [kpre Fpre].
  destruct (entries_exist post Hpost') as [kpost Fpost].
  assert (Hothers : Forall (fun kv => py_eqb (fst kv) (PyStr name) = false) kpost).
  { clear - Fpost Hpost. induction Fpost as [|it kv post kpost E _ IH].
    - constructor.
    - inversion Hpost as [|? ? Hn Hrest]; subst. constructor; [|apply IH, Hrest].
      unfold entry_named in Hn. rewrite E in Hn. destruct kv. exact Hn. }
  assert (Fall : Forall2 (fun it kv => entry_of it = Some kv)
                   (pre ++ item :: post) (kpre ++ (PyStr name, v) :: kpost)).
  { apply Forall2_app; [assumption|]. constructor; assumption. }
  unfold extract_metrics, extract_metrics_try.
  rewrite Hb. cbn [bind]. rewrite py_get_dict. unfold get_default at 1.
  rewrite Ha. cbn [bind py_iter].
  rewrite (annotations_of_entries _ _ Fall). cbn [bind].
  rewrite py_get_dict. cbn [bind]. rewrite Hs. cbn [bind].
  eexists. split; [reflexivity|]. simpl.
  split; intros ->; apply pydict_get_last; assumption.
Qed.

Lemma last_annotation_wins_witness :
  exists r,
    extract_metrics
      (Fixture.response_of
         (Some (PyDict [("annotations",
                         PyList [Fixture.annotation "initTime" (num 5);
                                 Fixture.annotation "waitTime" (num 2);
                                 Fixture.annotation "initTime" (num 9);
                                 Fixture.annotation "limits" PyNone]);
                        ("success", PyBool true)]))
         (Some (Q2Qc 7)))
      (Fixture.config_of true 2 3 1) = Returned r
    /\ initTime r = num 9.
Proof.
  destruct (last_annotation_wins
              (Fixture.response_of
                 (Some (PyDict [("annotations",
                                 PyList [Fixture.annotation "initTime" (num 5);
                                         Fixture.annotation "waitTime" (num 2);
                                         Fixture.annotation "initTime" (num 9);
                                         Fixture.annotation "limits" PyNone]);
                                ("success", PyBool true)]))
                 (Some (Q2Qc 7)))
              (Fixture.config_of true 2 3 1)
              _
              [Fixture.annotation "initTime" (num 5);
               Fixture.annotation "waitTime" (num 2)]
              [Fixture.annotation "limits" PyNone]
              (Fixture.annotation "initTime" (num 9))
              (num 9) (PyBool true) "initTime"
              eq_refl eq_refl eq_refl)
    as (r & Hr & Hi & _).
  - repeat constructor.
  - repeat constructor.
  - reflexivity.
  - exists r. split; [exact Hr|]. apply Hi. reflexivity.
Defined.

(* ================================================================== *)
(** * benchmark_statistics                                             *)
(* ================================================================== *)

Local Open Scope Qc_scope.

Lemma Qc_of_nat_le (n m : nat) : (n <= m)%nat -> Qc_of_nat n <= Qc_of_nat m.
Proof.
  intros H. unfold Qc_of_nat, Qcle. cbn [this Q2Qc].
  rewrite !Qred_correct, <- Zle_Qle. lia.
Qed.

Lemma Qc_of_nat_S (n : nat) : Qc_of_nat (S n) = Q2Qc 1 + Qc_of_nat n.
Proof.
  unfold Qc_of_nat, Qcplus. apply Q2Qc_eq_iff. cbn [this Q2Qc].
  rewrite !Qred_correct, Nat2Z.inj_succ. unfold Z.succ.
  rewrite inject_Z_plus. ring.
Qed.

Lemma Qc_of_nat_0 : Qc_of_nat 0 = Q2Qc 0.
Proof. reflexivity. Qed.

Lemma Qc_of_nat_pos (n : nat) : (0 < n)%nat -> Q2Qc 0 < Qc_of_nat n.
Proof.
  intros H. unfold Qc_of_nat, Qclt. cbn [this Q2Qc].
  rewrite !Qred_correct. change 0%Q with (inject_Z 0).
  rewrite <- Zlt_Qlt. lia.
Qed.

Lemma Qc_of_nat_nonzero (n : nat) : (0 < n)%nat -> Qc_of_nat n <> Q2Qc 0.
Proof.
  intros H E. apply Qc_of_nat_pos in H. rewrite E in H.
  exact (Qclt_not_eq _ _ H eq_refl).
Qed.

Lemma Qcdiv_mult_cancel (x y : Qc) : y <> Q2Qc 0 -> x / y * y = x.
Proof. intros H. field. exact H. Qed.

(** ** Sums and means between bounds *)

Lemma total_lower (lo : Qc) (qs : list Qc) :
  Forall (fun x => lo <= x) qs -> Qc_of_nat (length qs) * lo <= total qs.
Proof.
  induction 1 as [|x qs Hx _ IH]; simpl.
  - rewrite Qc_of_nat_0, Qcmult_0_l. apply Qcle_refl.
  - rewrite Qc_of_nat_S, Qcmult_plus_distr_l, Qcmult_1_l.
    apply Qcplus_le_compat; assumption.
Qed.

Lemma total_upper (hi : Qc) (qs : list Qc) :
  Forall (fun x => x <= hi) qs -> total qs <= Qc_of_nat (length qs) * hi.
Proof.
  induction 1 as [|x qs Hx _ IH]; simpl.
  - rewrite Qc_of_nat_0, Qcmult_0_l. apply Qcle_refl.
  - rewrite Qc_of_nat_S, Qcmult_plus_distr_l, Qcmult_1_l.
    apply Qcplus_le_compat; assumption.
Qed.

Lemma mean_of_lower (lo : Qc) (qs : list Qc) :
  qs <> [] -> Forall (fun x => lo <= x) qs -> lo <= mean_of qs.
Proof.
  intros Hne H. unfold mean_of.
  assert (Hlen : (0 < length qs)%nat) by (destruct qs; [congruence | simpl; lia]).
  apply Qcmult_lt_0_le_reg_r with (z := Qc_of_nat (length qs)).
  - apply Qc_of_nat_pos, Hlen.
  - rewrite Qcdiv_mult_cancel by (apply Qc_of_nat_nonzero, Hlen).
    rewrite Qcmult_comm. apply total_lower, H.
Qed.

Lemma mean_of_upper (hi : Qc) (qs : list Qc) :
  qs <> [] -> Forall (fun x => x <= hi) qs -> mean_of qs <= hi.
Proof.
  intros Hne H. unfold mean_of.
  assert (Hlen : (0 < length qs)%nat) by (destruct qs; [congruence | simpl; lia]).
  apply Qcmult_lt_0_le_reg_r with (z := Qc_of_nat (length qs)).
  - apply Qc_of_nat_pos, Hlen.
  - rewrite Qcdiv_mult_cancel by (apply Qc_of_nat_nonzero, Hlen).
    rewrite Qcmult_comm. apply total_upper, H.
Qed.

(** ** The builtins [min] and [max] *)

Lemma smaller_le_l (m x : Qc) : smaller m x <= m.
Proof.
  unfold smaller. destruct (Qc_leb m x) eqn:E.
  - apply Qcle_refl.
  - apply Qc_leb_gt, E.
Qed.

Lemma smaller_le_r (m x : Qc) : smaller m x <= x.
Proof.
  unfold smaller. destruct (Qc_leb m x) eqn:E.
  - apply Qc_leb_le, E.
  - apply Qcle_refl.
Qed.

Lemma larger_ge_l (m x : Qc) : m <= larger m x.
Proof.
  unfold larger. destruct (Qc_leb x m) eqn:E.
  - apply Qcle_refl.
  - apply Qc_leb_gt, E.
Qed.

Lemma larger_ge_r (m x : Qc) : x <= larger m x.
Proof.
  unfold larger. destruct (Qc_leb x m) eqn:E.
  - apply Qc_leb_le, E.
  - apply Qcle_refl.
Qed.

Lemma fold_smaller_spec (l : list Qc) :
  forall m,
    In (fold_left smaller l m) (m :: l)
    /\ Forall (fun x => fold_left smaller l m <= x) (m :: l).
Proof.
  induction l as [|x l IH]; intros m; simpl.
  - split; [left; reflexivity|]. constructor; [apply Qcle_refl | constructor].
  - destruct (IH (smaller m x)) as [Hin Hall]. split.
    + simpl in Hin. destruct Hin as [Hin|Hin]; [|right; right; exact Hin].
      rewrite <- Hin. unfold smaller. destruct (Qc_leb m x); auto.
    + inversion Hall as [|? ? H1 H2]; subst.
      constructor; [eapply Qcle_trans; [exact H1 | apply smaller_le_l]|].
      constructor; [eapply Qcle_trans; [exact H1 | apply smaller_le_r]|].
      exact H2.
Qed.

Lemma fold_larger_spec (l : list Qc) :
  forall m,
    In (fold_left larger l m) (m :: l)
    /\ Forall (fun x => x <= fold_left larger l m) (m :: l).
Proof.
  induction l as [|x l IH]; intros m; simpl.
  - split; [left; reflexivity|]. constructor; [apply Qcle_refl | constructor].
  - destruct (IH (larger m x)) as [Hin Hall]. split.
    + simpl in Hin. destruct Hin as [Hin|Hin]; [|right; right; exact Hin].
      rewrite <- Hin. unfold larger. destruct (Qc_leb x m); auto.
    + inversion Hall as [|? ? H1 H2]; subst.
      constructor; [eapply Qcle_trans; [apply larger_ge_l | exact H1]|].
      constructor; [eapply Qcle_trans; [apply larger_ge_r | exact H1]|].
      exact H2.
Qed.

(** ** What [stat_of] returns *)

Lemma numbers_length (xs : list pyval) (qs : list Qc) :
  numbers xs = Returned qs -> length qs = length xs.
Proof.
  revert qs. induction xs as [|x xs IH]; simpl; intros qs H.
  - injection H as <-. reflexivity.
  - destruct (as_number x); [|discriminate].
    bind_inv H. injection H as <-. simpl. f_equal. apply IH, Ha.
Qed.

Lemma numbers_Raised (xs : list pyval) (e : exn) :
  numbers xs = Raised e -> e = TypeError.
Proof.
  induction xs as [|x xs IH]; simpl; [discriminate|].
  destruct (as_number x); [|congruence].
  destruct (numbers xs); simpl; [discriminate|].
  intros H. injection H as <-. apply IH. reflexivity.
Qed.

Lemma numbers_total (xs : list pyval) :
  Forall (fun x => is_number x = true) xs -> exists qs, numbers xs = Returned qs.
Proof.
  induction 1 as [|x xs Hx _ [qs IH]]; simpl; [eauto|].
  unfold is_number in Hx. destruct (as_number x); [|discriminate].
  rewrite IH. simpl. eauto.
Qed.

Section WithSqrt.

Variable sqrt : Qc -> Qc.

(** Whatever [stat_of] returns is ordered. *)
Lemma stat_of_ordered (xs : list pyval) (st : Stat) :
  stat_of sqrt xs = Returned st -> stat_ordered st.
Proof.
  unfold stat_of, mean, py_min, py_max. intros H.
  destruct (numbers xs) as [qs|e] eqn:Hq; [|discriminate].
  cbn [bind] in H. destruct qs as [|q rest]; [discriminate|].
  cbn [bind] in H. bind_inv H. injection H as <-.
  unfold stat_ordered. simpl.
  destruct (fold_smaller_spec rest q) as [_ Hlo].
  destruct (fold_larger_spec rest q) as [_ Hhi].
  split; [apply mean_of_lower | apply mean_of_upper];
    try discriminate; assumption.
Qed.

(** With two numbers or more, [stat_of] returns. *)
Lemma stat_of_returns (xs : list pyval) :
  (2 <= length xs)%nat -> Forall (fun x => is_number x = true) xs ->
  exists st, stat_of sqrt xs = Returned st.
Proof.
  intros Hlen Hnum. destruct (numbers_total xs Hnum) as [qs Hq].
  pose proof (numbers_length _ _ Hq) as Hl.
  unfold stat_of, mean, py_min, py_max, stdev. rewrite Hq. cbn [bind].
  destruct qs as [|q rest]; [simpl in Hl; lia|]. cbn [bind].
  destruct (Nat.ltb_spec (length xs) 2) as [Hlt|_]; [lia|].
  cbn [bind]. eauto.
Qed.

(** With a single datum, [stat_of] raises: [stdev] wants two. *)
Lemma stat_of_single (x : pyval) : exists e, stat_of sqrt [x] = Raised e.
Proof.
  unfold stat_of, mean, py_min, py_max, stdev. simpl numbers.
  destruct (as_number x); simpl; eauto.
Qed.

Lemma Qc_of_nat_S_nonzero (n : nat) : Qc_eqb (Qc_of_nat (S n)) (Q2Qc 0) = false.
Proof.
  destruct (Qc_eqb (Qc_of_nat (S n)) (Q2Qc 0)) eqn:E; [|reflexivity].
  apply Qc_eqb_eq in E. unfold Qc_of_nat in E. apply Q2Qc_eq_iff in E.
  unfold Qeq in E. simpl in E. lia.
Qed.

Lemma success_rate_of_cons (m : InvocationResult) (ms : list InvocationResult) :
  success_rate_of (m :: ms) =
  Returned (Qc_of_nat (successes (m :: ms)) / Qc_of_nat (length (m :: ms))
            * Qc_of_nat 100).
Proof.
  unfold success_rate_of, py_truediv. cbn [length].
  rewrite Qc_of_nat_S_nonzero. reflexivity.
Qed.

Lemma successes_le (ms : list InvocationResult) : (successes ms <= length ms)%nat.
Proof. unfold successes. apply filter_length_le. Qed.

(** The rate of a non-empty series lies between 0 and 100. *)
Lemma rate_in_range (k n : nat) :
  (k <= n)%nat -> (0 < n)%nat ->
  Q2Qc 0 <= Qc_of_nat k / Qc_of_nat n * Qc_of_nat 100
  /\ Qc_of_nat k / Qc_of_nat n * Qc_of_nat 100 <= Qc_of_nat 100.
Proof.
  intros Hk Hn.
  assert (Hpos : Q2Qc 0 < Qc_of_nat n) by (apply Qc_of_nat_pos, Hn).
  assert (Hnz : Qc_of_nat n <> Q2Qc 0) by (apply Qc_of_nat_nonzero, Hn).
  assert (H100 : Q2Qc 0 <= Qc_of_nat 100) by (apply (Qc_of_nat_le 0 100); lia).
  assert (Hq0 : Q2Qc 0 <= Qc_of_nat k / Qc_of_nat n).
  { apply Qcmult_lt_0_le_reg_r with (z := Qc_of_nat n); [exact Hpos|].
    rewrite Qcdiv_mult_cancel, Qcmult_0_l by exact Hnz.
    apply (Qc_of_nat_le 0 k). lia. }
  assert (Hq1 : Qc_of_nat k / Qc_of_nat n <= Q2Qc 1).
  { apply Qcmult_lt_0_le_reg_r with (z := Qc_of_nat n); [exact Hpos|].
    rewrite Qcdiv_mult_cancel, Qcmult_1_l by exact Hnz.
    apply Qc_of_nat_le, Hk. }
  split.
  - rewrite <- (Qcmult_0_l (Qc_of_nat 100)).
    apply Qcmult_le_compat_r; assumption.
  - rewrite <- (Qcmult_1_l (Qc_of_nat 100)) at 2.
    apply Qcmult_le_compat_r; assumption.
Qed.

Lemma numeric_fields (ms : list InvocationResult) :
  Forall (fun m => numeric_result m = true) ms ->
  Forall (fun x => is_number x = true) (map initTime ms)
  /\ Forall (fun x => is_number x = true) (map waitTime ms)
  /\ Forall (fun x => is_number x = true) (map duration ms)
  /\ Forall (fun x => is_number x = true) (map client_elapsed_time ms).
Proof.
  induction 1 as [|m ms Hm _ (H1 & H2 & H3 & H4)]; simpl.
  - repeat split; constructor.
  - unfold numeric_result in Hm.
    apply andb_true_iff in Hm. destruct Hm as [Hm Hd].
    apply andb_true_iff in Hm. destruct Hm as [Hm Hc].
    apply andb_true_iff in Hm. destruct Hm as [Ha Hb].
    repeat split; constructor; assumption.
Qed.

(** With two numeric samples or more, [benchmark_statistics] returns; the
    rate is [successes / total * 100], within [0, 100], and each dimension
    has [min <= avg <= max]. *)
Lemma benchmark_statistics_returns (ms : list InvocationResult) :
  (2 <= length ms)%nat ->
  Forall (fun m => numeric_result m = true) ms ->
  exists st,
    benchmark_statistics sqrt ms = Returned st
    /\ success_rate st
       = Qc_of_nat (successes ms) / Qc_of_nat (length ms) * Qc_of_nat 100
    /\ Q2Qc 0 <= success_rate st /\ success_rate st <= Qc_of_nat 100
    /\ stat_ordered (st_initTime st) /\ stat_ordered (st_waitTime st)
    /\ stat_ordered (st_duration st)
    /\ stat_ordered (st_client_elapsed_time st).
Proof.
  intros Hlen Hnum.
  destruct (numeric_fields ms Hnum) as (N1 & N2 & N3 & N4).
  destruct (stat_of_returns (map initTime ms)) as [s1 E1];
    [rewrite length_map; exact Hlen | exact N1 |].
  destruct (stat_of_returns (map waitTime ms)) as [s2 E2];
    [rewrite length_map; exact Hlen | exact N2 |].
  destruct (stat_of_returns (map duration ms)) as [s3 E3];
    [rewrite length_map; exact Hlen | exact N3 |].
  destruct (stat_of_returns (map client_elapsed_time ms)) as [s4 E4];
    [rewrite length_map; exact Hlen | exact N4 |].
  unfold benchmark_statistics.
  destruct ms as [|m ms']; [simpl in Hlen; lia|].
  rewrite success_rate_of_cons. cbn [bind].
  rewrite E1, E2, E3, E4. cbn [bind].
  eexists. split; [reflexivity|]. cbn [success_rate st_initTime st_waitTime
    st_duration st_client_elapsed_time].
  split; [reflexivity|].
  destruct (rate_in_range (successes (m :: ms')) (length (m :: ms')))
    as [R0 R1]; [apply successes_le | simpl; lia |].
  repeat split; try assumption;
    eapply stat_of_ordered; eassumption.
Qed.

(** Whatever [benchmark_statistics] returns carries the rate of line 41 and
    ordered statistics. *)
Lemma benchmark_statistics_sound (ms : list InvocationResult) (st : Stats) :
  benchmark_statistics sqrt ms = Returned st ->
  success_rate st
  = Qc_of_nat (successes ms) / Qc_of_nat (length ms) * Qc_of_nat 100
  /\ stat_ordered (st_initTime st) /\ stat_ordered (st_waitTime st)
  /\ stat_ordered (st_duration st)
  /\ stat_ordered (st_client_elapsed_time st).
Proof.
  unfold benchmark_statistics. intros H.
  destruct ms as [|m ms']; [discriminate|].
  rewrite success_rate_of_cons in H. cbn [bind] in H.
  bind_inv H. bind_inv H. bind_inv H. bind_inv H. injection H as <-.
  cbn [success_rate st_initTime st_waitTime st_duration st_client_elapsed_time].
  repeat split; try (eapply stat_of_ordered; eassumption).
Qed.

End WithSqrt.

(** On boolean [success] fields, the successes are the results whose field
    is [True]. *)
Lemma successes_bool (ms : list InvocationResult) :
  Forall (fun m => exists b, success m = PyBool b) ms ->
  successes ms
  = length (filter (fun m => match success m with
                             | PyBool true => true
                             | _ => false
                             end) ms).
Proof.
  unfold successes. induction 1 as [|m ms [b Hb] _ IH]; [reflexivity|].
  simpl. rewrite Hb. destruct b; simpl; congruence.
Qed.

(** ** Order independence *)

Lemma numbers_perm (xs ys : list pyval) :
  Permutation xs ys ->
  forall qs, numbers xs = Returned qs ->
  exists qs', numbers ys = Returned qs' /\ Permutation qs qs'.
Proof.
  induction 1 as [|x l l' _ IH|x y l|l l' l'' _ IH1 _ IH2]; intros qs Hq.
  - exists qs. split; [exact Hq|]. apply Permutation_refl.
  - simpl in Hq |- *. destruct (as_number x) as [q|]; [|discriminate].
    bind_inv Hq. injection Hq as <-.
    destruct (IH _ Ha) as (qs' & E & P). rewrite E. simpl.
    exists (q :: qs'). split; [reflexivity|]. constructor. exact P.
  - simpl in Hq |- *.
    destruct (as_number y) as [qy|]; [|discriminate].
    destruct (as_number x) as [qx|]; [|discriminate].
    destruct (numbers l) as [ql|]; [|discriminate].
    simpl in Hq |- *. injection Hq as <-.
    exists (qx :: qy :: ql). split; [reflexivity|]. apply perm_swap.
  - destruct (IH1 _ Hq) as (q1 & E1 & P1).
    destruct (IH2 _ E1) as (q2 & E2 & P2).
    exists q2. split; [exact E2|]. eapply Permutation_trans; eassumption.
Qed.

(** A computation on the numbers of a list that does not depend on their
    order does not depend on the order of the list. *)
Lemma bind_numbers_perm {B : Type} (f : list Qc -> outcome B) (xs ys : list pyval) :
  (forall qs qs', Permutation qs qs' -> f qs = f qs') ->
  Permutation xs ys ->
  bind (numbers xs) f = bind (numbers ys) f.
Proof.
  intros Hf P. destruct (numbers xs) as [qs|e] eqn:Ex.
  - destruct (numbers_perm _ _ P _ Ex) as (qs' & Ey & Pq).
    rewrite Ey. simpl. apply Hf, Pq.
  - destruct (numbers ys) as [qs'|e'] eqn:Ey.
    + destruct (numbers_perm _ _ (Permutation_sym P) _ Ey) as (qs & Ex' & _).
      congruence.
    + apply numbers_Raised in Ex, Ey. subst. reflexivity.
Qed.

Lemma total_perm (qs qs' : list Qc) : Permutation qs qs' -> total qs = total qs'.
Proof.
  induction 1 as [|x l l' _ IH|x y l|l l' l'' _ IH1 _ IH2]; simpl.
  - reflexivity.
  - rewrite IH. reflexivity.
  - ring.
  - congruence.
Qed.

Lemma mean_of_perm (qs qs' : list Qc) :
  Permutation qs qs' -> mean_of qs = mean_of qs'.
Proof.
  intros P. unfold mean_of.
  rewrite (total_perm _ _ P), (Permutation_length P). reflexivity.
Qed.

Lemma variance_of_perm (qs qs' : list Qc) :
  Permutation qs qs' -> variance_of qs = variance_of qs'.
Proof.
  intros P. unfold variance_of, sum_sq.
  rewrite (mean_of_perm _ _ P), (Permutation_length P). f_equal.
  apply total_perm, Permutation_map, P.
Qed.

Lemma least_unique (l l' : list Qc) (a b : Qc) :
  Permutation l l' ->
  In a l -> Forall (fun x => a <= x) l ->
  In b l' -> Forall (fun x => b <= x) l' ->
  a = b.
Proof.
  intros P Ia La Ib Lb.
  rewrite Forall_forall in La, Lb. apply Qcle_antisym.
  - apply La. eapply Permutation_in; [apply Permutation_sym, P | exact Ib].
  - apply Lb. eapply Permutation_in; [exact P | exact Ia].
Qed.

Lemma greatest_unique (l l' : list Qc) (a b : Qc) :
  Permutation l l' ->
  In a l -> Forall (fun x => x <= a) l ->
  In b l' -> Forall (fun x => x <= b) l' ->
  a = b.
Proof.
  intros P Ia La Ib Lb.
  rewrite Forall_forall in La, Lb. apply Qcle_antisym.
  - apply Lb. eapply Permutation_in; [exact P | exact Ia].
  - apply La. eapply Permutation_in; [apply Permutation_sym, P | exact Ib].
Qed.

Lemma mean_perm (xs ys : list pyval) : Permutation xs ys -> mean xs = mean ys.
Proof.
  intros P. unfold mean. apply bind_numbers_perm; [|exact P].
  intros qs qs' Pq. destruct qs as [|q qs], qs' as [|q' qs'].
  - reflexivity.
  - apply Permutation_nil in Pq. discriminate.
  - apply Permutation_sym, Permutation_nil in Pq. discriminate.
  - f_equal. apply mean_of_perm, Pq.
Qed.

Lemma py_min_perm (xs ys : list pyval) : Permutation xs ys -> py_min xs = py_min ys.
Proof.
  intros P. unfold py_min. apply bind_numbers_perm; [|exact P].
  intros qs qs' Pq. destruct qs as [|q qs], qs' as [|q' qs'].
  - reflexivity.
  - apply Permutation_nil in Pq. discriminate.
  - apply Permutation_sym, Permutation_nil in Pq. discriminate.
  - f_equal.
    destruct (fold_smaller_spec qs q) as [I1 L1].
    destruct (fold_smaller_spec qs' q') as [I2 L2].
    eapply least_unique; eassumption.
Qed.

Lemma py_max_perm (xs ys : list pyval) : Permutation xs ys -> py_max xs = py_max ys.
Proof.
  intros P. unfold py_max. apply bind_numbers_perm; [|exact P].
  intros qs qs' Pq. destruct qs as [|q qs], qs' as [|q' qs'].
  - reflexivity.
  - apply Permutation_nil in Pq. discriminate.
  - apply Permutation_sym, Permutation_nil in Pq. discriminate.
  - f_equal.
    destruct (fold_larger_spec qs q) as [I1 L1].
    destruct (fold_larger_spec qs' q') as [I2 L2].
    eapply greatest_unique; eassumption.
Qed.

Lemma stdev_perm (sqrt : Qc -> Qc) (xs ys : list pyval) :
  Permutation xs ys -> stdev sqrt xs = stdev sqrt ys.
Proof.
  intros P. unfold stdev. rewrite (Permutation_length P).
  destruct (Nat.ltb (length ys) 2); [reflexivity|].
  apply bind_numbers_perm; [|exact P].
  intros qs qs' Pq. rewrite (variance_of_perm _ _ Pq). reflexivity.
Qed.

Lemma stat_of_perm (sqrt : Qc -> Qc) (xs ys : list pyval) :
  Permutation xs ys -> stat_of sqrt xs = stat_of sqrt ys.
Proof.
  intros P. unfold stat_of.
  rewrite (mean_perm _ _ P), (py_min_perm _ _ P), (py_max_perm _ _ P),
    (stdev_perm sqrt _ _ P).
  reflexivity.
Qed.

Lemma successes_perm (ms ms' : list InvocationResult) :
  Permutation ms ms' -> successes ms = successes ms'.
Proof.
  unfold successes.
  induction 1 as [|x l l' _ IH|x y l|l l' l'' _ IH1 _ IH2]; simpl.
  - reflexivity.
  - destruct (truthy (success x)); simpl; congruence.
  - destruct (truthy (success x)), (truthy (success y)); reflexivity.
  - congruence.
Qed.

Lemma success_rate_of_perm (ms ms' : list InvocationResult) :
  Permutation ms ms' -> success_rate_of ms = success_rate_of ms'.
Proof.
  intros P. destruct ms as [|m ms], ms' as [|m' ms'].
  - reflexivity.
  - apply Permutation_nil in P. discriminate.
  - apply Permutation_sym, Permutation_nil in P. discriminate.
  - rewrite !success_rate_of_cons, (successes_perm _ _ P), (Permutation_length P).
    reflexivity.
Qed.

(* ================================================================== *)
(** * The claims on benchmark_statistics                               *)
(* ================================================================== *)

(** C3 at a series of one sample: line 41 computes the rate (100 or 0), but
    [benchmark_statistics] then raises and returns no rate. *)
Theorem single_sample_rate_not_returned (sqrt : Qc -> Qc) (m : InvocationResult) :
  success_rate_of [m]
  = Returned (if truthy (success m) then Qc_of_nat 100 else Q2Qc 0)
  /\ exists e, benchmark_statistics sqrt [m] = Raised e.
Proof.
  split.
  - rewrite success_rate_of_cons. unfold successes. simpl.
    destruct (truthy (success m)); simpl; f_equal;
      apply Qc_is_canon; reflexivity.
  - unfold benchmark_statistics. rewrite success_rate_of_cons. cbn [bind map].
    destruct (stat_of_single sqrt (initTime m)) as [e He].
    rewrite He. exists e. reflexivity.
Qed.

(** C5 as stated fails.  On the empty series the code raises no error of
    its own and none that names the empty input: the exception is the
    [ZeroDivisionError] of the operator [/], raised at line 41 when the
    count of successes (0, already computed) is divided by the length (0),
    as for any other zero divisor.  The error of [statistics] for data that
    are too few, the [StatisticsError] [statistics.mean] raises on [[]],
    is another exception and is not the one that comes out. *)
Lemma empty_series_error_is_zero_division :
  benchmark_statistics Fixture.sqrt0 [] = Raised ZeroDivisionError
  /\ py_truediv (Qc_of_nat (successes [])) (Qc_of_nat (length (@nil InvocationResult)))
     = Raised ZeroDivisionError
  /\ py_truediv (Qc_of_nat 3) (Q2Qc 0) = Raised ZeroDivisionError
  /\ mean [] = Raised StatisticsError
  /\ benchmark_statistics Fixture.sqrt0 [] <> Raised StatisticsError.
Proof. repeat split. discriminate. Qed.

(** C5, as the code has it: on the empty series [benchmark_statistics]
    returns no statistics and raises [ZeroDivisionError]; the exception is
    that of the division of line 41, and whatever line 41 raises leaves
    [benchmark_statistics] before [statistics.mean], [min], [max] or
    [statistics.stdev] is called on any dimension. *)
Theorem empty_series_fails (sqrt : Qc -> Qc) :
  benchmark_statistics sqrt [] = Raised ZeroDivisionError
  /\ (forall st, benchmark_statistics sqrt [] <> Returned st)
  /\ success_rate_of []
     = (quotient <- py_truediv (Qc_of_nat 0) (Qc_of_nat 0) ;;
        Returned (quotient * Qc_of_nat 100)%Qc)
  /\ py_truediv (Qc_of_nat 0) (Qc_of_nat 0) = Raised ZeroDivisionError
  /\ (forall ms e,
        success_rate_of ms = Raised e -> benchmark_statistics sqrt ms = Raised e).
Proof.
  repeat split.
  - discriminate.
  - intros ms e H. unfold benchmark_statistics. rewrite H. reflexivity.
Qed.

(** C6 at a series of one sample: [benchmark_statistics] returns no
    statistics at all; on a numeric sample the exception is the
    [StatisticsError] of [statistics.stdev]. *)
Theorem single_sample_statistics_raise (sqrt : Qc -> Qc) (m : InvocationResult) :
  (forall st, benchmark_statistics sqrt [m] <> Returned st)
  /\ (is_number (initTime m) = true ->
      benchmark_statistics sqrt [m] = Raised StatisticsError).
Proof.
  unfold benchmark_statistics. rewrite success_rate_of_cons. cbn [bind map].
  split.
  - intros st. destruct (stat_of_single sqrt (initTime m)) as [e He].
    rewrite He. discriminate.
  - unfold is_number, stat_of, mean, py_min, py_max, stdev. simpl numbers.
    destruct (as_number (initTime m)); [|discriminate]. reflexivity.
Qed.



(* ================================================================== *)
(** * The runner                                                       *)
(* ================================================================== *)

Local Open Scope run_scope.

Lemma bindM_ext {A B : Type} (m : M A) (k k' : A -> M B) (w : World) :
  (forall a w', k a w' = k' a w') -> bindM m k w = bindM m k' w.
Proof.
  intros H. unfold bindM. destruct (m w) as [[a|e|] w']; auto.
Qed.

Lemma bindM_ext_on {A B : Type} (m : M A) (k k' : A -> M B) (w : World) :
  (forall a w', m w = (Ok a, w') -> k a w' = k' a w') ->
  bindM m k w = bindM m k' w.
Proof.
  intros H. unfold bindM. destruct (m w) as [[a|e|] w']; auto.
Qed.

Lemma bindM_cong {A B : Type} (m m' : M A) (k k' : A -> M B) (w : World) :
  m w = m' w -> (forall a w', k a w' = k' a w') -> bindM m k w = bindM m' k' w.
Proof.
  intros Hm H. unfold bindM. rewrite Hm.
  destruct (m' w) as [[a|e|] w']; auto.
Qed.

Lemma bindM_assoc {A B C : Type} (m : M A) (f : A -> M B) (g : B -> M C) (w : World) :
  bindM (bindM m f) g w = bindM m (fun a => bindM (f a) g) w.
Proof.
  unfold bindM. destruct (m w) as [[a|e|] w']; reflexivity.
Qed.

Lemma bindM_Ok {A B : Type} (m : M A) (k : A -> M B) (w w' : World) (b : B) :
  bindM m k w = (Ok b, w') ->
  exists a w1, m w = (Ok a, w1) /\ k a w1 = (Ok b, w').
Proof.
  unfold bindM. destruct (m w) as [[a|e|] w1]; intros H; try discriminate.
  eauto.
Qed.

Lemma for_range_ext {S : Type} (body body' : S -> M S) :
  (forall s w, body s w = body' s w) ->
  forall n s w, for_range n body s w = for_range n body' s w.
Proof.
  intros H. induction n as [|n IH]; intros s w; simpl; [reflexivity|].
  apply bindM_cong; auto.
Qed.

(** ** time_limit is never read *)

Lemma with_time_limit_same (c : Config) : with_time_limit (time_limit c) c = c.
Proof. destruct c. reflexivity. Qed.

Lemma with_time_limit_twice (t t' : Z) (c : Config) :
  with_time_limit t (with_time_limit t' c) = with_time_limit t c.
Proof. reflexivity. Qed.

Section TimeLimit.

Variable t : Z.
Variable config : Config.

Let config' : Config := with_time_limit t config.

Lemma sync_call_time_limit (w : World) : sync_call config' w = sync_call config w.
Proof. reflexivity. Qed.

Lemma poll_time_limit (fuel : nat) (u : string) (w : World) :
  poll fuel config' u w = poll fuel config u w.
Proof.
  revert w. induction fuel as [|fuel IH]; intros w; simpl; [reflexivity|].
  apply bindM_ext. intros r w1.
  destruct (Z.eqb (status_code r) 200); [reflexivity|].
  apply bindM_ext. intros _ w2. apply IH.
Qed.

Lemma async_call_time_limit (fuel : nat) (w : World) :
  async_call fuel config' w = async_call fuel config w.
Proof.
  unfold async_call.
  apply bindM_ext; intros start w1.
  apply bindM_ext; intros post w2.
  apply bindM_ext; intros body w3.
  apply bindM_ext; intros aid w4.
  apply bindM_ext; intros u w5.
  apply bindM_cong; [apply poll_time_limit | reflexivity].
Qed.

Lemma extract_metrics_time_limit (response : Response) :
  extract_metrics response config' = extract_metrics response config.
Proof. reflexivity. Qed.

Lemma bench_single_invocations_time_limit (fuel : nat) (w : World) :
  bench_single_invocations fuel config' w = bench_single_invocations fuel config w.
Proof.
  unfold bench_single_invocations.
  change (blocking config') with (blocking config).
  destruct (blocking config).
  - reflexivity.
  - apply bindM_cong; [apply async_call_time_limit|].
    intros [post get] w'. reflexivity.
Qed.

Lemma bench_multiple_invocations_time_limit (fuel : nat) (warmup : bool) (w : World) :
  bench_multiple_invocations fuel config' warmup w
  = bench_multiple_invocations fuel config warmup w.
Proof.
  unfold bench_multiple_invocations. destruct warmup.
  - apply bindM_cong; [|reflexivity].
    apply for_range_ext. intros s w'.
    apply bindM_cong; [apply bench_single_invocations_time_limit | reflexivity].
  - apply bindM_cong; [|reflexivity].
    apply for_range_ext. intros s w'.
    apply bindM_cong; [apply bench_single_invocations_time_limit | reflexivity].
Qed.

Lemma collect_metrics_time_limit (fuel : nat) (w : World) :
  collect_metrics fuel config' w = collect_metrics fuel config w.
Proof.
  unfold collect_metrics.
  apply bindM_cong; [apply bench_multiple_invocations_time_limit|].
  intros _ w1. apply for_range_ext. intros s w2.
  apply bindM_cong; [apply bench_multiple_invocations_time_limit | reflexivity].
Qed.

End TimeLimit.

(** C8: changing [time_limit] alone changes nothing: from the same world,
    with the same fuel, [run_benchmark] ends the same way, with the same
    series and statistics, and leaves the same world, hence the same
    requests and sleeps in the same order. *)
Theorem time_limit_is_inert (sqrt : Qc -> Qc) (fuel : nat) (t : Z)
  (config : Config) (w : World) :
  run_benchmark sqrt fuel (with_time_limit t config) w
  = run_benchmark sqrt fuel config w.
Proof.
  unfold run_benchmark.
  apply bindM_cong; [apply collect_metrics_time_limit | reflexivity].
Qed.

(** ** The polling loop *)

Lemma lift_run {A : Type} (o : outcome A) (w : World) :
  lift o w = (result_of o, w).
Proof. destruct o; reflexivity. Qed.

Lemma reply_at_after_pause (config : Config) (u : string) (w : World) (k : nat) :
  reply_at (after_pause config u w) config u k = reply_at w config u (S k).
Proof. unfold reply_at. simpl. f_equal. lia. Qed.

Lemma pauses_after_pause (config : Config) (u : string) (w : World) (k : nat) :
  pauses (after_pause config u w) config k = pauses w config (S k).
Proof.
  unfold pauses. destruct (sleep_error (poll_pause config)); [reflexivity|].
  simpl. do 2 f_equal. lia.
Qed.

Lemma waits_after_pause (config : Config) (u : string) (w : World) (k : nat) :
  waits (after_pause config u w) config u k = waits w config u (S k).
Proof. unfold waits. rewrite reply_at_after_pause, pauses_after_pause. reflexivity. Qed.

(** One turn of the loop, by cases on the reply to its GET and on the pause
    that follows a reply with another status than 200. *)
Lemma poll_step (fuel : nat) (config : Config) (u : string) (w : World) :
  poll (S fuel) config u w =
  match reply_at w config u 0 with
  | Unreachable => (Err ConnectionError, after_get config u w)
  | Answer st b el =>
      if Z.eqb st 200 then (Ok (mkResponse st b el None), after_get config u w)
      else if pauses w config 0 then poll fuel config u (after_pause config u w)
      else (Err (pause_exn config), after_get config u w)
  end.
Proof.
  unfold reply_at, pauses, pause_exn. rewrite Nat.add_0_r, Nat.add_1_r.
  cbn [poll]. unfold bindM at 1. unfold requests_get, http.
  fold (get_request config u). fold (after_get config u w).
  destruct (server w (exchanges w) (get_request config u)) as [st b el|];
    [|reflexivity].
  cbn [status_code]. destruct (Z.eqb st 200); [reflexivity|].
  unfold bindM, time_sleep. fold (poll_pause config).
  destruct (sleep_error (poll_pause config)); [reflexivity|].
  cbn [os_refuses exchanges after_get].
  destruct (os_refuses w (S (exchanges w)) (poll_pause config)); reflexivity.
Qed.

Lemma poll_trace_snoc (config : Config) (u : string) (n : nat) :
  poll_trace config u n
    ++ [EvSleep (poll_pause config); EvRequest (get_request config u)]
  = poll_trace config u (S n).
Proof.
  induction n as [|n IH]; [reflexivity|].
  change (poll_trace config u (S n)) with
    (EvRequest (get_request config u) :: EvSleep (poll_pause config)
       :: poll_trace config u n) at 1.
  simpl app. rewrite IH. reflexivity.
Qed.

(** The world after [n] turns and one more GET: only the count of exchanges
    and the trace have changed. *)
Lemma after_pauses_world (config : Config) (u : string) (n : nat) :
  forall w,
    server (after_get config u (after_pauses config u n w)) = server w
    /\ wall_clock (after_get config u (after_pauses config u n w)) = wall_clock w
    /\ clock_reads (after_get config u (after_pauses config u n w)) = clock_reads w
    /\ os_refuses (after_get config u (after_pauses config u n w)) = os_refuses w
    /\ exchanges (after_get config u (after_pauses config u n w))
       = (exchanges w + S n)%nat
    /\ trace (after_get config u (after_pauses config u n w))
       = poll_trace config u n ++ trace w.
Proof.
  induction n as [|n IH]; intros w.
  - simpl. repeat split. lia.
  - cbn [after_pauses].
    destruct (IH (after_pause config u w)) as (Hs & Hc & Hr & Ho & He & Ht).
    rewrite Hs, Hc, Hr, Ho, He, Ht.
    cbn [after_pause server wall_clock clock_reads os_refuses exchanges trace].
    repeat split; [lia|].
    rewrite <- poll_trace_snoc, <- app_assoc. reflexivity.
Qed.

(** A loop that returns has met a first reply with status 200 after turns
    that all went on; it hands back the response to that reply. *)
Lemma poll_Ok (config : Config) (u : string) (fuel : nat) :
  forall (w w' : World) (r : Response),
    poll fuel config u w = (Ok r, w') ->
    exists n,
      (n < fuel)%nat
      /\ completes (reply_at w config u n) = true
      /\ (forall k, (k < n)%nat -> waits w config u k = true)
      /\ response_to (reply_at w config u n) = Some r
      /\ w' = after_get config u (after_pauses config u n w).
Proof.
  induction fuel as [|fuel IH]; intros w w' r H; [discriminate|].
  rewrite poll_step in H.
  destruct (reply_at w config u 0) as [st b el|] eqn:E0; [|discriminate].
  destruct (Z.eqb st 200) eqn:Est.
  - injection H as <- <-. exists 0%nat. rewrite E0. simpl.
    repeat split; try lia; try assumption.
  - destruct (pauses w config 0) eqn:Ep; [|discriminate].
    destruct (IH _ _ _ H) as (n & Hn & Hc & Hp & Hr & Hw).
    exists (S n). rewrite reply_at_after_pause in Hc, Hr.
    repeat split; try assumption; try lia.
    intros [|k] Hk.
    + unfold waits. rewrite E0, Ep. simpl. rewrite Est. reflexivity.
    + rewrite <- waits_after_pause. apply Hp. lia.
Qed.

(** A first reply with status 200 after [n] turns that all went on makes
    the loop return at its [n+1]-th GET. *)
Lemma poll_completes (config : Config) (u : string) (n : nat) :
  forall w fuel,
    (n < fuel)%nat ->
    completes (reply_at w config u n) = true ->
    (forall k, (k < n)%nat -> waits w config u k = true) ->
    exists r,
      response_to (reply_at w config u n) = Some r
      /\ status_code r = 200%Z
      /\ poll fuel config u w
         = (Ok r, after_get config u (after_pauses config u n w)).
Proof.
  induction n as [|n IH]; intros w fuel Hf Hc Hp;
    (destruct fuel as [|fuel]; [lia|]); rewrite poll_step.
  - destruct (reply_at w config u 0) as [st b el|]; [|discriminate].
    simpl in Hc. rewrite Hc. apply Z.eqb_eq in Hc. eexists. repeat split.
    exact Hc.
  - specialize (Hp 0%nat ltac:(lia)) as Hp0. unfold waits in Hp0.
    apply andb_true_iff in Hp0. destruct Hp0 as [Hp0 Hs0].
    destruct (reply_at w config u 0) as [st b el|]; [|discriminate].
    simpl in Hp0. apply negb_true_iff in Hp0. rewrite Hp0, Hs0.
    destruct (IH (after_pause config u w) fuel ltac:(lia)) as (r & Hr & Hst & H).
    + rewrite reply_at_after_pause. exact Hc.
    + intros k Hk. rewrite waits_after_pause. apply Hp. lia.
    + exists r. rewrite reply_at_after_pause in Hr. repeat split; assumption.
Qed.

(** While the turns go on the loop does, whatever the fuel. *)
Lemma poll_pending (config : Config) (u : string) (fuel : nat) :
  forall w,
    (forall k, (k < fuel)%nat -> waits w config u k = true) ->
    poll fuel config u w = (Diverge, after_pauses config u fuel w).
Proof.
  induction fuel as [|fuel IH]; intros w Hp; [reflexivity|].
  rewrite poll_step.
  specialize (Hp 0%nat ltac:(lia)) as Hp0. unfold waits in Hp0.
  apply andb_true_iff in Hp0. destruct Hp0 as [Hp0 Hs0].
  destruct (reply_at w config u 0) as [st b el|]; [|discriminate].
  simpl in Hp0. apply negb_true_iff in Hp0. rewrite Hp0, Hs0.
  apply IH. intros k Hk. rewrite waits_after_pause. apply Hp. lia.
Qed.

(** [async_call] up to its loop, by cases on the reply to the POST. *)
Lemma async_call_post (fuel : nat) (config : Config) (w : World) :
  async_call fuel config w =
  match server w (exchanges w) (post_request config "false") with
  | Answer st b el =>
      (body <- lift (response_json (mkResponse st b el None)) ;;
       activation_id <- lift (py_getitem body "activationId") ;;
       u <- lift (activation_url config activation_id) ;;
       get_response <- poll fuel config u ;;
       now <- time_time ;;
       ret (mkResponse st b el None,
            set_client_elapsed_time get_response
              ((now - wall_clock w (clock_reads w)) * Qc_of_Z 1000)%Qc))
        (loop_start config w)
  | Unreachable => (Err ConnectionError, loop_start config w)
  end.
Proof.
  unfold async_call, loop_start. unfold bindM at 1. unfold time_time at 1.
  fold (after_clock w). unfold bindM at 1. unfold requests_post, http.
  fold (post_request config "false"). cbn [server exchanges after_clock].
  destruct (server w (exchanges w) (post_request config "false")) as [st b el|];
    reflexivity.
Qed.

(** A reply to the POST without a usable activation id ends the call there. *)
Lemma async_call_refused (fuel : nat) (config : Config) (w : World)
  (st : Z) (b : Body) (el : Qc) (e : exn) :
  server w (exchanges w) (post_request config "false") = Answer st b el ->
  activation_id_error (decoded b) = Some e ->
  async_call fuel config w = (Err e, loop_start config w).
Proof.
  intros Hs He. rewrite async_call_post, Hs.
  unfold activation_id_error in He.
  unfold bindM at 1. unfold response_json. cbn [content].
  destruct (decoded b) as [body|e0]; [|injection He as <-; reflexivity].
  cbn [lift ret].
  destruct body as [| | | | |d];
    try (injection He as <-; reflexivity).
  unfold bindM at 1. cbn [py_getitem].
  destruct (dict_get d "activationId") as [[| | |a| |]|];
    try discriminate; injection He as <-; reflexivity.
Qed.

(** With an activation id the call is the loop on its URL, one more reading
    of the clock, and the two responses. *)
Lemma async_call_accepted (fuel : nat) (config : Config) (w : World)
  (st : Z) (b : Body) (el : Qc) (a : string) :
  server w (exchanges w) (post_request config "false") = Answer st b el ->
  activation_id_of (Answer st b el) = Some a ->
  async_call fuel config w =
  (get_response <- poll fuel config (poll_url config a) ;;
   now <- time_time ;;
   ret (mkResponse st b el None,
        set_client_elapsed_time get_response
          ((now - wall_clock w (clock_reads w)) * Qc_of_Z 1000)%Qc))
    (loop_start config w).
Proof.
  intros Hs Ha. rewrite async_call_post, Hs.
  unfold activation_id_of in Ha.
  unfold bindM at 1. unfold response_json. cbn [content].
  destruct (decoded b) as [[| | | | |d]|e0]; try discriminate.
  cbn [lift ret]. unfold bindM at 1. cbn [py_getitem].
  destruct (dict_get d "activationId") as [[| | |a'| |]|]; try discriminate.
  injection Ha as ->. reflexivity.
Qed.

Lemma activation_id_cases (r : Reply) :
  match r with
  | Unreachable => activation_id_of r = None
  | Answer st b el =>
      (exists a, activation_id_of r = Some a /\ activation_id_error (decoded b) = None)
      \/ (exists e, activation_id_of r = None /\ activation_id_error (decoded b) = Some e)
  end.
Proof.
  destruct r as [st b el|]; [|reflexivity].
  unfold activation_id_of, activation_id_error.
  destruct (decoded b) as [[| | | | |d]|e0]; eauto.
  destruct (dict_get d "activationId") as [[| | |a| |]|]; eauto.
Qed.

(** What a call that returns has done. *)
Lemma async_call_Ok (fuel : nat) (config : Config) (w w' : World)
  (post_response get_response : Response) :
  async_call fuel config w = (Ok (post_response, get_response), w') ->
  exists a n r,
    (n < fuel)%nat
    /\ activation_id_of (server w (exchanges w) (post_request config "false")) = Some a
    /\ response_to (server w (exchanges w) (post_request config "false"))
       = Some post_response
    /\ completes (reply_at (loop_start config w) config (poll_url config a) n) = true
    /\ (forall k, (k < n)%nat ->
          waits (loop_start config w) config (poll_url config a) k = true)
    /\ response_to (reply_at (loop_start config w) config (poll_url config a) n)
       = Some r
    /\ get_response
       = set_client_elapsed_time r
           ((wall_clock w (S (clock_reads w)) - wall_clock w (clock_reads w))
            * Qc_of_Z 1000)%Qc
    /\ w' = after_clock
              (after_get config (poll_url config a)
                 (after_pauses config (poll_url config a) n (loop_start config w))).
Proof.
  intros H.
  pose proof (activation_id_cases
                (server w (exchanges w) (post_request config "false"))) as Hc.
  destruct (server w (exchanges w) (post_request config "false"))
    as [st b el|] eqn:Hs.
  2:{ rewrite async_call_post, Hs in H. discriminate. }
  destruct Hc as [(a & Ha & _) | (e & _ & He)].
  2:{ rewrite (async_call_refused fuel config w st b el e Hs He) in H.
      discriminate. }
  rewrite (async_call_accepted fuel config w st b el a Hs Ha) in H.
  apply bindM_Ok in H. destruct H as (r & w1 & Hpoll & H).
  destruct (poll_Ok _ _ _ _ _ _ Hpoll) as (n & Hn & Hcm & Hp & Hr & Hw).
  exists a, n, r.
  destruct (after_pauses_world config (poll_url config a) n (loop_start config w))
    as (_ & Hwc & Hcr & _).
  unfold bindM, time_time, ret in H. injection H as <- <- <-.
  subst w1.
  repeat split; try assumption; try reflexivity.
  rewrite Hwc, Hcr. reflexivity.
Qed.

(** ** The lengths [time.sleep] takes *)

Lemma Qle_bool_Qred_r (a b : Q) : Qle_bool a (Qred b) = Qle_bool a b.
Proof.
  destruct (Qle_bool a b) eqn:E.
  - apply Qle_bool_iff. rewrite Qred_correct. apply Qle_bool_iff, E.
  - destruct (Qle_bool a (Qred b)) eqn:E'; [|reflexivity].
    apply Qle_bool_iff in E'. rewrite Qred_correct in E'.
    apply Qle_bool_iff in E'. congruence.
Qed.

Lemma poll_pause_frac (config : Config) :
  poll_pause config = Q2Qc (time_precision config # 1000).
Proof.
  unfold poll_pause, Qc_of_Z. apply Qc_is_canon. unfold Qcdiv, Qcmult, Qcinv.
  cbn [this Q2Qc]. rewrite !Qred_correct.
  unfold Qeq, Qmult, Qinv, inject_Z. simpl. lia.
Qed.

Lemma Qc_leb_frac (a : Qc) (tp : Z) :
  Qc_leb a (Q2Qc (tp # 1000)) = (Qnum a * 1000 <=? tp * Zpos (Qden a))%Z.
Proof.
  unfold Qc_leb. cbn [this Q2Qc]. rewrite Qle_bool_Qred_r. reflexivity.
Qed.

(** In terms of [time_precision], an [int] of milliseconds: the pause is
    taken from 0 up to 9223372036854 ms; below that range [time.sleep]
    raises [ValueError] down to -9223372036854 ms; beyond, on either side,
    the count of nanoseconds overflows. *)
Lemma sleep_error_poll_pause (config : Config) :
  sleep_error (poll_pause config)
  = if (9223372036855 <=? time_precision config)%Z then Some OverflowError
    else if (0 <=? time_precision config)%Z then None
    else if (-9223372036855 <? time_precision config)%Z then Some ValueError
    else Some OverflowError.
Proof.
  unfold sleep_error. rewrite poll_pause_frac, !Qc_leb_frac.
  change (Qnum sleep_range) with 18014398509481984%Z.
  change (Zpos (Qden sleep_range)) with 1953125%Z.
  change (Qnum (- sleep_range)%Qc) with (-18014398509481984)%Z.
  change (Zpos (Qden (- sleep_range)%Qc)) with 1953125%Z.
  change (Qnum (Q2Qc 0)) with 0%Z. change (Zpos (Qden (Q2Qc 0))) with 1%Z.
  repeat match goal with |- context [Z.leb ?a ?b] => destruct (Z.leb_spec a b) end;
  repeat match goal with |- context [Z.ltb ?a ?b] => destruct (Z.ltb_spec a b) end;
  try reflexivity; lia.
Qed.

Lemma sleep_error_in_range (config : Config) :
  (0 <= time_precision config < 9223372036855)%Z ->
  sleep_error (poll_pause config) = None.
Proof.
  intros [H0 H1]. rewrite sleep_error_poll_pause.
  destruct (Z.leb_spec 9223372036855 (time_precision config)); [lia|].
  destruct (Z.leb_spec 0 (time_precision config)); [reflexivity | lia].
Qed.

Lemma patient_reply (config : Config) (u : string) (bound k : nat) :
  reply_at (loop_start config (patient_world bound)) config u k
  = if Nat.leb (S k) bound then Answer 202 (body_of None) (Q2Qc 0)
    else Answer 200 (body_of None) (Q2Qc 0).
Proof. reflexivity. Qed.

(** C7: [async_call] returns exactly when the reply to its POST carries an
    activation id and, polling that activation's URL, some GET is answered
    with status 200 after GETs that were answered with other statuses and
    each followed by a sleep of [time_precision/1000] seconds; the call has
    then read the clock, made the POST, made one GET per reply with exactly
    one such sleep between two successive GETs, and read the clock again,
    and the activation it hands back has status 200.  Nothing bounds the
    number of polls: while every GET is answered with another status and
    followed by its sleep the loop goes on, whatever the fuel; and with a
    [time_precision] that [time.sleep] takes (from 0 to 9223372036854 ms),
    for every [bound] some transport keeps the loop polling beyond [bound]
    GETs before the call returns. *)
Theorem polling_loop (config : Config) (w : World) :
  ((exists fuel r w', async_call fuel config w = (Ok r, w'))
   <-> (exists a n,
          activation_id_of (server w (exchanges w) (post_request config "false"))
          = Some a
          /\ completes (reply_at (loop_start config w) config (poll_url config a) n)
             = true
          /\ forall k, (k < n)%nat ->
                       waits (loop_start config w) config (poll_url config a) k
                       = true))
  /\ (forall fuel post_response get_response w',
        async_call fuel config w = (Ok (post_response, get_response), w') ->
        exists a n,
          (n < fuel)%nat
          /\ activation_id_of
               (server w (exchanges w) (post_request config "false")) = Some a
          /\ status_code get_response = 200%Z
          /\ exchanges w' = (exchanges w + n + 2)%nat
          /\ trace w'
             = EvClock (wall_clock w (S (clock_reads w)))
                 :: poll_trace config (poll_url config a) n
                 ++ EvRequest (post_request config "false")
                 :: EvClock (wall_clock w (clock_reads w)) :: trace w)
  /\ (forall a,
        activation_id_of (server w (exchanges w) (post_request config "false"))
        = Some a ->
        (forall k, waits (loop_start config w) config (poll_url config a) k = true) ->
        forall fuel, fst (async_call fuel config w) = Diverge)
  /\ ((0 <= time_precision config < 9223372036855)%Z ->
      forall bound,
        fst (async_call bound config (patient_world bound)) = Diverge
        /\ exists r w',
             async_call (S bound) config (patient_world bound) = (Ok r, w')
             /\ exchanges w' = (bound + 2)%nat).
Proof.
  split; [split|split; [|split]].
  - intros (fuel & [post_response get_response] & w' & H).
    destruct (async_call_Ok _ _ _ _ _ _ H) as (a & n & r & _ & Ha & _ & Hc & Hp & _).
    eauto.
  - intros (a & n & Ha & Hc & Hp).
    destruct (server w (exchanges w) (post_request config "false"))
      as [st b el|] eqn:Hs; [|discriminate].
    destruct (poll_completes config (poll_url config a) n (loop_start config w)
                (S n) ltac:(lia) Hc Hp) as (r & _ & _ & Hpoll).
    exists (S n). eexists. eexists.
    rewrite (async_call_accepted (S n) config w st b el a Hs Ha).
    unfold bindM at 1. rewrite Hpoll. reflexivity.
  - intros fuel post_response get_response w' H.
    destruct (async_call_Ok _ _ _ _ _ _ H)
      as (a & n & r & Hn & Ha & _ & Hc & _ & Hr & Hg & Hw).
    exists a, n.
    destruct (after_pauses_world config (poll_url config a) n (loop_start config w))
      as (_ & Hwc & Hcr & _ & He & Ht).
    repeat split; try assumption.
    + subst get_response. cbn [set_client_elapsed_time status_code].
      destruct (reply_at (loop_start config w) config (poll_url config a) n)
        as [st b el|]; [|discriminate].
      injection Hr as <-. simpl in Hc. apply Z.eqb_eq in Hc. exact Hc.
    + subst w'. cbn [after_clock exchanges]. rewrite He. simpl. lia.
    + subst w'. cbn [after_clock trace]. rewrite Hwc, Hcr, Ht. reflexivity.
  - intros a Ha Hw fuel.
    destruct (server w (exchanges w) (post_request config "false"))
      as [st b el|] eqn:Hs; [|discriminate].
    rewrite (async_call_accepted fuel config w st b el a Hs Ha).
    unfold bindM at 1. rewrite (poll_pending _ _ _ _ (fun k _ => Hw k)).
    reflexivity.
  - intros Htp bound. pose proof (sleep_error_in_range config Htp) as Hsl.
    assert (Hs : server (patient_world bound) (exchanges (patient_world bound))
                   (post_request config "false")
                 = Answer 202 (body_of (Some (PyDict [("activationId", PyStr "a1")])))
                     (Q2Qc 0)) by reflexivity.
    assert (Hw : forall k, (k < bound)%nat ->
                 waits (loop_start config (patient_world bound)) config
                   (poll_url config "a1") k = true).
    { intros k Hk. unfold waits, pauses. rewrite Hsl, patient_reply.
      destruct (Nat.leb_spec (S k) bound); [reflexivity | lia]. }
    split.
    + rewrite (async_call_accepted bound config _ _ _ _ "a1" Hs eq_refl).
      unfold bindM at 1. rewrite (poll_pending _ _ _ _ Hw). reflexivity.
    + destruct (poll_completes config (poll_url config "a1") bound
                  (loop_start config (patient_world bound)) (S bound)
                  ltac:(lia)) as (r & _ & _ & Hpoll); [|exact Hw|].
      { rewrite patient_reply.
        destruct (Nat.leb_spec (S bound) bound); [lia | reflexivity]. }
      eexists. eexists.
      rewrite (async_call_accepted (S bound) config _ _ _ _ "a1" Hs eq_refl).
      unfold bindM at 1. rewrite Hpoll. split; [reflexivity|].
      cbn [bindM time_time ret snd exchanges].
      destruct (after_pauses_world config (poll_url config "a1") bound
                  (loop_start config (patient_world bound)))
        as (_ & _ & _ & _ & He & _).
      rewrite He. simpl. lia.
Qed.

Lemma polling_loop_witness :
  (0 <= time_precision (Fixture.config_of false 2 3 1) < 9223372036855)%Z
  /\ exists r w',
       async_call 3 (Fixture.config_of false 2 3 1) (patient_world 2) = (Ok r, w')
       /\ exchanges w' = 4%nat.
Proof.
  split; [simpl; lia|].
  exact (proj2 (proj2 (proj2 (proj2 (polling_loop (Fixture.config_of false 2 3 1)
                                       (patient_world 2)))) ltac:(simpl; lia)
                 2%nat)).
Defined.

(** ** The loops of the run *)

Section Loops.

Variable fuel : nat.
Variable config : Config.

Local Abbreviation single := (bench_single_invocations fuel config).
Local Abbreviation flat := (invocations fuel config).

Lemma invocations_length (n : nat) :
  forall w w' rs, flat n w = (Ok rs, w') -> length rs = n.
Proof.
  induction n as [|n IH]; intros w w' rs H.
  - injection H as <- _. reflexivity.
  - cbn [invocations] in H.
    apply bindM_Ok in H. destruct H as (r & w1 & _ & H).
    apply bindM_Ok in H. destruct H as (rs' & w2 & H' & H).
    injection H as <- _. simpl. f_equal. eapply IH. exact H'.
Qed.

Lemma invocations_app (n m : nat) (w : World) :
  flat (n + m) w
  = (x <- flat n ;; y <- flat m ;; ret (x ++ y)) w.
Proof.
  revert w. induction n as [|n IH]; intros w.
  - cbn [Nat.add invocations]. unfold bindM, ret.
    destruct (invocations fuel config m w) as [[y|e|] w']; reflexivity.
  - cbn [invocations Nat.add].
    rewrite bindM_assoc. apply bindM_ext. intros r w1.
    rewrite bindM_assoc.
    rewrite (bindM_cong _ _ _ _ w1 (IH w1) (fun a w' => eq_refl)).
    rewrite bindM_assoc. apply bindM_ext. intros x w2.
    rewrite bindM_assoc. reflexivity.
Qed.

(** The warmup loop makes its invocations and keeps nothing. *)
Lemma warmup_loop (n : nat) (w : World) :
  for_range n (fun _ => single ;;; ret tt) tt w = (flat n ;;; ret tt) w.
Proof.
  revert w. induction n as [|n IH]; intros w; [reflexivity|].
  cbn [for_range invocations]. rewrite !bindM_assoc.
  apply bindM_ext. intros r w1.
  change (for_range n (fun _ => single;;; ret tt) tt w1
          = ((rs <- invocations fuel config n;; ret (r :: rs));;; ret tt) w1).
  rewrite IH, bindM_assoc. reflexivity.
Qed.

(** The measurement loop appends the results of its invocations, in order. *)
Lemma measure_loop (n : nat) :
  forall acc w,
    for_range n (fun metrics_list => metrics <- single ;; ret (metrics_list ++ [metrics]))
      acc w
    = (rs <- flat n ;; ret (acc ++ rs)) w.
Proof.
  induction n as [|n IH]; intros acc w.
  - cbn [for_range invocations]. unfold bindM, ret. rewrite app_nil_r.
    reflexivity.
  - cbn [for_range invocations]. rewrite !bindM_assoc.
    apply bindM_ext. intros r w1.
    change (for_range n
              (fun metrics_list => metrics <- single;; ret (metrics_list ++ [metrics]))
              (acc ++ [r]) w1
            = (rs <- (rs <- invocations fuel config n;; ret (r :: rs));;
               ret (acc ++ rs)) w1).
    rewrite IH, bindM_assoc. apply bindM_ext. intros rs w2.
    unfold bindM, ret. rewrite <- app_assoc. reflexivity.
Qed.

Lemma bench_multiple_invocations_measure (w : World) :
  bench_multiple_invocations fuel config false w
  = (rs <- flat (range_len (num_invocations config)) ;; ret (Some rs)) w.
Proof.
  unfold bench_multiple_invocations.
  rewrite (bindM_cong _ _ _ _ w (measure_loop _ [] w) (fun a w' => eq_refl)).
  rewrite bindM_assoc. reflexivity.
Qed.

(** The loop over the runs appends run after run. *)
Lemma runs_loop (runs : nat) :
  forall acc w,
    for_range runs
      (fun all_metrics =>
         metrics_list <- bench_multiple_invocations fuel config false ;;
         lift (extend all_metrics metrics_list))
      acc w
    = (rs <- flat (runs * range_len (num_invocations config)) ;; ret (acc ++ rs)) w.
Proof.
  induction runs as [|runs IH]; intros acc w.
  - cbn [for_range Nat.mul invocations]. unfold bindM, ret.
    rewrite app_nil_r. reflexivity.
  - cbn [for_range Nat.mul].
    rewrite (bindM_cong _ _ _ _ w (invocations_app _ _ w) (fun a w' => eq_refl)).
    rewrite !bindM_assoc.
    rewrite (bindM_cong _ _ _ _ w (bench_multiple_invocations_measure w)
               (fun a w' => eq_refl)).
    rewrite !bindM_assoc. apply bindM_ext. intros x w1.
    change (for_range runs
              (fun all_metrics =>
                 metrics_list <- bench_multiple_invocations fuel config false;;
                 lift (extend all_metrics metrics_list))
              (acc ++ x) w1
            = (rs <- (y <- flat (runs * range_len (num_invocations config));;
                      ret (x ++ y));;
               ret (acc ++ rs)) w1).
    rewrite IH, bindM_assoc. apply bindM_ext. intros y w2.
    unfold bindM, ret. rewrite app_assoc. reflexivity.
Qed.

(** [collect_metrics] is the flat sequence of all invocations, warmup first,
    with the warmup results dropped. *)
Lemma collect_metrics_flat (w : World) :
  collect_metrics fuel config w
  = (all <- flat (range_len (warmup_invocations config)
                  + range_len (num_runs config)
                    * range_len (num_invocations config)) ;;
     ret (skipn (range_len (warmup_invocations config)) all)) w.
Proof.
  unfold collect_metrics, bench_multiple_invocations.
  rewrite bindM_assoc.
  rewrite (bindM_cong _ _ _ _ w (warmup_loop _ w) (fun a w' => eq_refl)).
  rewrite (bindM_cong _ _ _ _ w (invocations_app _ _ w) (fun a w' => eq_refl)).
  rewrite !bindM_assoc. apply bindM_ext_on. intros x w1 Hx.
  apply invocations_length in Hx.
  change (for_range (range_len (num_runs config))
            (fun all_metrics =>
               metrics_list <- bench_multiple_invocations fuel config false;;
               lift (extend all_metrics metrics_list))
            [] w1
          = (all <- (y <- flat (range_len (num_runs config)
                                * range_len (num_invocations config));;
                     ret (x ++ y));;
             ret (skipn (range_len (warmup_invocations config)) all)) w1).
  rewrite runs_loop, bindM_assoc. apply bindM_ext. intros y w2.
  unfold bindM, ret. rewrite <- Hx, skipn_app, skipn_all, Nat.sub_diag.
  reflexivity.
Qed.

End Loops.

(** Whatever the signs of the counts, the series handed to
    [benchmark_statistics] holds [max 0 num_runs * max 0 num_invocations]
    results: those of the invocations made after the warmup ones, in the
    order they were made. *)
Lemma series_length_any_counts (fuel : nat) (config : Config) (w w' : World)
  (ms : list InvocationResult) :
  collect_metrics fuel config w = (Ok ms, w') ->
  Z.of_nat (length ms)
  = (Z.max 0 (num_runs config) * Z.max 0 (num_invocations config))%Z
  /\ exists warm,
       length warm = range_len (warmup_invocations config)
       /\ invocations fuel config
            (range_len (warmup_invocations config)
             + range_len (num_runs config) * range_len (num_invocations config))
            w
          = (Ok (warm ++ ms), w').
Proof.
  intros H. rewrite collect_metrics_flat in H.
  apply bindM_Ok in H. destruct H as (all & w1 & Hall & H).
  injection H as <- <-.
  pose proof (invocations_length _ _ _ _ _ _ Hall) as Hlen.
  split.
  - rewrite length_skipn, Hlen. unfold range_len. lia.
  - exists (firstn (range_len (warmup_invocations config)) all). split.
    + rewrite length_firstn, Hlen. lia.
    + rewrite firstn_skipn. exact Hall.
Qed.

(** C4: for counts that are not negative, when [run_benchmark] reaches
    [benchmark_statistics] the series it hands over holds exactly
    [num_runs * num_invocations] results; the whole run is the flat sequence
    of [warmup + num_runs * num_invocations] invocations, and the series is
    what the invocations after the first [warmup] ones returned, in the
    order they were made, whatever [warmup_invocations] is. *)
Theorem collected_series (fuel : nat) (config : Config) (w w' : World)
  (ms : list InvocationResult) :
  (0 <= num_runs config)%Z ->
  (0 <= num_invocations config)%Z ->
  collect_metrics fuel config w = (Ok ms, w') ->
  Z.of_nat (length ms) = (num_runs config * num_invocations config)%Z
  /\ exists warm,
       length warm = range_len (warmup_invocations config)
       /\ invocations fuel config
            (range_len (warmup_invocations config)
             + range_len (num_runs config) * range_len (num_invocations config))
            w
          = (Ok (warm ++ ms), w').
Proof.
  intros Hr Hi H.
  destruct (series_length_any_counts _ _ _ _ _ H) as [Hlen Hflat].
  split; [|exact Hflat]. rewrite Hlen. lia.
Qed.

Lemma collected_series_witness :
  fixture_run = (Ok (Fixture.series_of (fst fixture_run)), snd fixture_run)
  /\ Z.of_nat (length (Fixture.series_of (fst fixture_run))) = 6%Z
  /\ exchanges (snd fixture_run) = 15%nat.
Proof.
  assert (E : fixture_run
              = (Ok (Fixture.series_of (fst fixture_run)), snd fixture_run))
    by (vm_compute; reflexivity).
  split; [exact E|]. split.
  - refine (proj1 (collected_series _ _ _ _ _ _ _ E)); simpl; lia.
  - vm_compute; reflexivity.
Defined.

(** A negative count gives no iteration: with [num_runs = -1] and
    [num_invocations = -1] the series is empty. *)
Lemma negative_counts_collect_nothing :
  fst (collect_metrics 4 (Fixture.config_of true (-1) (-1) 1) Fixture.world0)
  = Ok [].
Proof. vm_compute; reflexivity. Qed.

(** When [run_benchmark] returns, its series is the one [collect_metrics]
    gathered and its statistics are [benchmark_statistics] of that series. *)
Lemma run_benchmark_Ok (sqrt : Qc -> Qc) (fuel : nat) (config : Config)
  (w w' : World) (ms : list InvocationResult) (st : Stats) :
  run_benchmark sqrt fuel config w = (Ok (ms, st), w') ->
  collect_metrics fuel config w = (Ok ms, w')
  /\ benchmark_statistics sqrt ms = Returned st.
Proof.
  unfold run_benchmark. intros H.
  apply bindM_Ok in H. destruct H as (all & w1 & Hc & H).
  apply bindM_Ok in H. destruct H as (stats & w2 & Hs & H).
  injection H as <- <- <-.
  destruct (benchmark_statistics sqrt all) as [x|e]; [|discriminate].
  injection Hs as <- <-. split; [exact Hc | reflexivity].
Qed.

(** The non-blocking scenario: the POST returns the activation id, the first
    GET is answered 202 and the second 200; one result comes out, after one
    sleep of a tenth of a second between the two GETs and a reading of the
    clock at each end. *)
Example one_non_blocking_invocation :
  exists r w',
    bench_single_invocations 2 (Fixture.config_of false 2 3 1) Fixture.world0
    = (Ok r, w')
    /\ initTime r = num 5 /\ duration r = num 10 /\ success r = PyBool true
    /\ client_elapsed_time r = num 1000
    /\ map (fun e => match e with
                     | EvRequest rq => (meth rq, url rq)
                     | EvSleep _ => (GET, "sleep")
                     | EvClock _ => (GET, "clock")
                     end) (trace w')
       = [(GET, "clock");
          (GET, "https://host/api/v1/namespaces/_/activations/a1");
          (GET, "sleep");
          (GET, "https://host/api/v1/namespaces/_/activations/a1");
          (POST, "https://host/api/v1/namespaces/_/actions/hello?blocking=false&result=true&workers=1");
          (GET, "clock")].
Proof.
  eexists. eexists. split; [vm_compute; reflexivity|].
  repeat split; apply f_equal; apply Qc_is_canon; reflexivity.
Qed.

(** The end-to-end scenario: 2 runs of 3 blocking invocations after 1
    warmup give 6 results, each with [initTime] 5 and [duration] 10, a rate
    of 100 and an average duration of 10 with deviation 0. *)
Example end_to_end_blocking :
  exists ms st w',
    run_benchmark Fixture.sqrt0 1 (Fixture.config_of true 2 3 1) Fixture.world0
    = (Ok (ms, st), w')
    /\ length ms = 6%nat
    /\ Forall (fun m => initTime m = num 5 /\ waitTime m = num 0
                        /\ duration m = num 10 /\ success m = PyBool true) ms
    /\ success_rate st = Qc_of_nat 100
    /\ avg (st_duration st) = Qc_of_nat 10
    /\ std (st_duration st) = Qc_of_nat 0
    /\ exchanges w' = 7%nat.
Proof.
  eexists. eexists. eexists. split; [vm_compute; reflexivity|].
  split; [reflexivity|]. split; [repeat constructor|].
  repeat split; apply Qc_is_canon; reflexivity.
Qed.

(* ================================================================== *)
(** * Further properties of extract_metrics                            *)
(* ================================================================== *)

Local Open Scope py_scope.

Lemma annotations_of_raises (items : list pyval) :
  forall acc e,
    annotations_of items acc = Raised e -> e = KeyError \/ e = TypeError.
Proof.
  induction items as [|item rest IH]; intros acc e H; [discriminate|].
  cbn [annotations_of] in H.
  destruct item as [| | | | |d]; try (injection H as <-; right; reflexivity).
  cbn [py_getitem bind] in H.
  destruct (dict_get d "key") as [k|];
    [|injection H as <-; left; reflexivity].
  cbn [bind] in H.
  destruct (dict_get d "value") as [v|];
    [|injection H as <-; left; reflexivity].
  cbn [bind] in H. unfold dict_setitem in H.
  destruct (hashable k); [|injection H as <-; right; reflexivity].
  cbn [bind] in H. eapply IH. exact H.
Qed.

Lemma success_of_raises (body : pyval) (config : Config) (e : exn) :
  success_of body config = Raised e -> e = AttributeError.
Proof.
  unfold success_of. destruct (blocking config).
  - destruct body; simpl; try congruence.
    destruct (dict_get d "success"); discriminate.
  - destruct body as [| | | | |d]; simpl; try congruence.
    destruct (dict_get d "response") as [[| | | | |rd]|]; simpl; try congruence.
    + destruct (dict_get rd "status") as [[| | | | |]|]; simpl; congruence.
Qed.

Lemma extract_metrics_try_raises (response : Response) (config : Config) (e : exn) :
  extract_metrics_try response config = Raised e ->
  response_json response = Raised e
  \/ ((exists body, response_json response = Returned body)
      /\ (e = KeyError \/ e = AttributeError \/ e = TypeError)).
Proof.
  unfold extract_metrics_try.
  destruct (response_json response) as [body|e0]; [|intros [= <-]; auto].
  cbn [bind]. intros H. right. split; [eauto|]. revert H.
  destruct body as [| | | | |d]; try (intros [= <-]; auto).
  rewrite !py_get_dict. cbn [bind].
  destruct (py_iter (get_default d "annotations" (PyList []))) as [items|e1] eqn:Ei.
  - cbn [bind].
    destruct (annotations_of items []) as [anns|e2] eqn:Ea.
    + cbn [bind].
      destruct (success_of (PyDict d) config) as [s|e3] eqn:Es; [discriminate|].
      cbn [bind]. intros [= <-]. apply success_of_raises in Es. auto.
    + cbn [bind]. intros [= <-].
      destruct (annotations_of_raises _ _ _ Ea) as [-> | ->]; auto.
  - cbn [bind]. intros [= <-].
    destruct (get_default d "annotations" (PyList [])); simpl in Ei;
      try discriminate; injection Ei as <-; auto.
Qed.

(** X1: [ValueError] and [KeyError] never leave [extract_metrics].  What
    leaves it is either the exception [response.json()] raised, unchanged
    (a [RecursionError] on JSON nested too deep, say), or an
    [AttributeError] or a [TypeError] met on a body that decoded; and every
    exception of [response.json()] that the [except] clause does not name
    does leave it, while one it names gives the zero record. *)
Theorem extract_metrics_escapes (response : Response) (config : Config) :
  (forall e,
     extract_metrics response config = Raised e ->
     caught e = false
     /\ (response_json response = Raised e
         \/ ((exists body, response_json response = Returned body)
             /\ (e = AttributeError \/ e = TypeError))))
  /\ (forall e,
        response_json response = Raised e ->
        extract_metrics response config
        = if caught e then Returned zero_result else Raised e).
Proof.
  split.
  - intros e. unfold extract_metrics.
    destruct (extract_metrics_try response config) as [r|e'] eqn:E; [discriminate|].
    destruct (extract_metrics_try_raises _ _ _ E) as [Hj | (Hb & [-> | [-> | ->]])].
    + destruct e'; try discriminate; intros [= <-]; split; auto.
    + discriminate.
    + intros [= <-]. split; [reflexivity | right; auto].
    + intros [= <-]. split; [reflexivity | right; auto].
  - intros e He. unfold extract_metrics, extract_metrics_try. rewrite He.
    destruct e; reflexivity.
Qed.

Lemma extract_metrics_escapes_witness :
  extract_metrics
    (mkResponse 200
       {| decoded := Raised RecursionError; loaded := LoadsRaised RecursionError;
          pformatted := Returned "{...}" |} (Q2Qc 1) None)
    (Fixture.config_of true 2 3 1) = Raised RecursionError
  /\ extract_metrics (Fixture.response_of (Some (PyList [])) None)
       (Fixture.config_of true 2 3 1) = Raised AttributeError.
Proof.
  split.
  - exact (proj2 (extract_metrics_escapes
                    (mkResponse 200
                       {| decoded := Raised RecursionError;
                          loaded := LoadsRaised RecursionError;
                          pformatted := Returned "{...}" |} (Q2Qc 1) None)
                    (Fixture.config_of true 2 3 1)) RecursionError eq_refl).
  - reflexivity.
Defined.

(** X2: in non-blocking mode the [success] field of every record
    [extract_metrics] returns is a Python [bool], whatever the body holds;
    the blocking predicate passes the body's member through unchecked. *)
Theorem non_blocking_success_is_bool (response : Response) (config : Config)
  (r : InvocationResult) :
  blocking config = false ->
  extract_metrics response config = Returned r ->
  exists b, success r = PyBool b.
Proof.
  intros Hm H. unfold extract_metrics in H.
  destruct (extract_metrics_try response config) as [r'|e] eqn:E.
  - injection H as <-. unfold extract_metrics_try in E.
    bind_inv E. bind_inv E. bind_inv E. bind_inv E. bind_inv E. bind_inv E.
    injection E as <-. cbn [success].
    unfold success_of in Ha4. rewrite Hm in Ha4.
    bind_inv Ha4. bind_inv Ha4. bind_inv Ha4. injection Ha4 as <-. eauto.
  - destruct e; try discriminate; injection H as <-; exists false; reflexivity.
Qed.

Lemma non_blocking_success_is_bool_witness :
  blocking (Fixture.config_of false 2 3 1) = false
  /\ extract_metrics
       (Fixture.response_of
          (Some (PyDict [("response", PyDict [("status", PyStr "SUCCESS")])]))
          None)
       (Fixture.config_of false 2 3 1)
     = Returned {| initTime := num 0; waitTime := num 0; duration := num 0;
                   client_elapsed_time := num 0; success := PyBool true |}
  /\ exists b,
       success {| initTime := num 0; waitTime := num 0; duration := num 0;
                  client_elapsed_time := num 0; success := PyBool true |}
       = PyBool b.
Proof.
  split; [reflexivity|]. split; [reflexivity|].
  exact (non_blocking_success_is_bool
           (Fixture.response_of
              (Some (PyDict [("response", PyDict [("status", PyStr "SUCCESS")])]))
              None)
           (Fixture.config_of false 2 3 1) _ eq_refl eq_refl).
Defined.

(** X3: when every annotation entry is an object with a hashable key and a
    value and none is named [name], the record gets the default 0 for that
    name ([initTime], [waitTime]). *)
Theorem absent_annotation_defaults (response : Response) (config : Config)
  (d : list (string * pyval)) (items : list pyval) (s : pyval) :
  response_json response = Returned (PyDict d) ->
  dict_get d "annotations" = Some (PyList items) ->
  Forall (fun it => entry_complete it = true) items ->
  success_of (PyDict d) config = Returned s ->
  exists r,
    extract_metrics response config = Returned r
    /\ (Forall (fun it => entry_named "initTime" it = false) items ->
        initTime r = num 0)
    /\ (Forall (fun it => entry_named "waitTime" it = false) items ->
        waitTime r = num 0).
Proof.
  intros Hb Ha Hall Hs.
  destruct (entries_exist items Hall) as [kvs F].
  assert (Hk : forall name,
             Forall (fun it => entry_named name it = false) items ->
             Forall (fun kv => py_eqb (fst kv) (PyStr name) = false) kvs).
  { intros name Hn. clear - F Hn. induction F as [|it kv items kvs E _ IH].
    - constructor.
    - inversion Hn as [|? ? H1 H2]; subst. constructor; [|apply IH, H2].
      unfold entry_named in H1. rewrite E in H1. destruct kv. exact H1. }
  unfold extract_metrics, extract_metrics_try.
  rewrite Hb. cbn [bind]. rewrite py_get_dict. unfold get_default at 1.
  rewrite Ha. cbn [bind py_iter].
  rewrite (annotations_of_entries _ _ F). cbn [bind].
  rewrite py_get_dict. cbn [bind]. rewrite Hs. cbn [bind].
  eexists. split; [reflexivity|]. cbn [initTime waitTime].
  split; intros Hn; rewrite pydict_get_fold_other by (apply Hk, Hn);
    reflexivity.
Qed.

Lemma absent_annotation_defaults_witness :
  exists r,
    extract_metrics
      (Fixture.response_of
         (Some (PyDict [("annotations",
                         PyList [Fixture.annotation "initTime" (num 5);
                                 Fixture.annotation "limits" PyNone]);
                        ("success", PyBool true)]))
         (Some (Q2Qc 7)))
      (Fixture.config_of true 2 3 1) = Returned r
    /\ waitTime r = num 0.
Proof.
  destruct (absent_annotation_defaults
              (Fixture.response_of
                 (Some (PyDict [("annotations",
                                 PyList [Fixture.annotation "initTime" (num 5);
                                         Fixture.annotation "limits" PyNone]);
                                ("success", PyBool true)]))
                 (Some (Q2Qc 7)))
              (Fixture.config_of true 2 3 1)
              _ _ (PyBool true) eq_refl eq_refl)
    as (r & Hr & _ & Hw).
  - repeat constructor.
  - reflexivity.
  - exists r. split; [exact Hr|]. apply Hw. repeat constructor.
Defined.

(* ================================================================== *)
(** * Further properties of benchmark_statistics                       *)
(* ================================================================== *)

Local Open Scope Qc_scope.

Lemma numbers_Forall2 (xs : list pyval) (qs : list Qc) :
  numbers xs = Returned qs ->
  Forall2 (fun x q => as_number x = Some q) xs qs.
Proof.
  revert qs. induction xs as [|x xs IH]; simpl; intros qs H.
  - injection H as <-. constructor.
  - destruct (as_number x) as [q|] eqn:E; [|discriminate].
    bind_inv H. injection H as <-. constructor; [exact E | apply IH, Ha].
Qed.

Lemma numbers_is_number (xs : list pyval) (qs : list Qc) :
  numbers xs = Returned qs -> Forall (fun x => is_number x = true) xs.
Proof.
  intros H. apply numbers_Forall2 in H.
  induction H as [|x q xs qs E _ IH]; constructor; [|exact IH].
  unfold is_number. rewrite E. reflexivity.
Qed.

Lemma stat_of_Returned (sqrt : Qc -> Qc) (xs : list pyval) (st : Stat) :
  stat_of sqrt xs = Returned st ->
  exists q rest,
    numbers xs = Returned (q :: rest)
    /\ (2 <= length xs)%nat
    /\ st = {| avg := mean_of (q :: rest);
               min := fold_left smaller rest q;
               max := fold_left larger rest q;
               std := sqrt (variance_of (q :: rest)) |}.
Proof.
  unfold stat_of, mean, py_min, py_max, stdev. intros H.
  destruct (numbers xs) as [qs|e] eqn:Hq; [|discriminate].
  cbn [bind] in H. destruct qs as [|q rest]; [discriminate|].
  cbn [bind] in H.
  destruct (Nat.ltb_spec (length xs) 2) as [Hlt|Hge]; [discriminate|].
  cbn [bind] in H. injection H as <-. eauto.
Qed.

(** X4: [benchmark_statistics] returns statistics only for series of two
    samples or more whose four numeric fields all hold numbers: a series
    with [None], a string, a list or an object in one of these fields, and
    a series of fewer than two samples, never get statistics. *)
Theorem benchmark_statistics_domain (sqrt : Qc -> Qc) (ms : list InvocationResult)
  (st : Stats) :
  benchmark_statistics sqrt ms = Returned st ->
  (2 <= length ms)%nat /\ Forall (fun m => numeric_result m = true) ms.
Proof.
  intros H. unfold benchmark_statistics in H.
  bind_inv H. bind_inv H. bind_inv H. bind_inv H. bind_inv H. clear H.
  apply stat_of_Returned in Ha0, Ha1, Ha2, Ha3.
  destruct Ha0 as (q0 & r0 & N0 & L0 & _), Ha1 as (q1 & r1 & N1 & _ & _),
           Ha2 as (q2 & r2 & N2 & _ & _), Ha3 as (q3 & r3 & N3 & _ & _).
  rewrite length_map in L0. split; [exact L0|].
  apply numbers_is_number in N0, N1, N2, N3.
  rewrite Forall_map in N0, N1, N2, N3.
  rewrite Forall_forall in *. intros m Hm. unfold numeric_result.
  rewrite (N0 m Hm), (N1 m Hm), (N2 m Hm), (N3 m Hm). reflexivity.
Qed.

Lemma benchmark_statistics_domain_witness :
  (2 <= length [Fixture.sample 5 0 10 1000 true; Fixture.sample 7 1 12 900 false])%nat
  /\ Forall (fun m => numeric_result m = true)
       [Fixture.sample 5 0 10 1000 true; Fixture.sample 7 1 12 900 false].
Proof.
  exact (benchmark_statistics_domain Fixture.sqrt0
           [Fixture.sample 5 0 10 1000 true; Fixture.sample 7 1 12 900 false]
           _ eq_refl).
Defined.

Lemma benchmark_statistics_dimension (sqrt : Qc -> Qc)
  (ms : list InvocationResult) (st : Stats) :
  benchmark_statistics sqrt ms = Returned st ->
  forall dm, stat_of sqrt (map (field_of dm) ms) = Returned (stat_for dm st).
Proof.
  unfold benchmark_statistics. intros H.
  bind_inv H. bind_inv H. bind_inv H. bind_inv H. bind_inv H.
  injection H as <-. intros []; assumption.
Qed.

(** X5: in the statistics [benchmark_statistics] returns, the minimum and
    the maximum of each dimension are values of samples of the series, and
    every sample lies between them. *)
Theorem extremes_attained (sqrt : Qc -> Qc) (ms : list InvocationResult)
  (st : Stats) (dm : Dimension) :
  benchmark_statistics sqrt ms = Returned st ->
  (exists m, In m ms /\ as_number (field_of dm m) = Some (min (stat_for dm st)))
  /\ (exists m, In m ms /\ as_number (field_of dm m) = Some (max (stat_for dm st)))
  /\ (forall m q, In m ms -> as_number (field_of dm m) = Some q ->
                  min (stat_for dm st) <= q /\ q <= max (stat_for dm st)).
Proof.
  intros H. pose proof (benchmark_statistics_dimension _ _ _ H dm) as Hd.
  apply stat_of_Returned in Hd. destruct Hd as (q0 & rest & Hn & _ & ->).
  apply numbers_Forall2 in Hn. cbn [min max].
  destruct (fold_smaller_spec rest q0) as [Imin Lmin].
  destruct (fold_larger_spec rest q0) as [Imax Lmax].
  assert (Hin : forall q, In q (q0 :: rest) ->
                 exists m, In m ms /\ as_number (field_of dm m) = Some q).
  { clear - Hn. remember (map (field_of dm) ms) as xs eqn:Exs.
    revert ms Exs. induction Hn as [|x q xs qs E _ IH]; intros ms Exs q' Hq.
    - destruct Hq.
    - destruct ms as [|m ms']; [discriminate|]. injection Exs as -> ->.
      destruct Hq as [<-|Hq].
      + exists m. split; [left; reflexivity | exact E].
      + destruct (IH ms' eq_refl q' Hq) as (m' & Hm' & E').
        exists m'. split; [right; exact Hm' | exact E']. }
  assert (Hall : forall m q, In m ms -> as_number (field_of dm m) = Some q ->
                  In q (q0 :: rest)).
  { clear - Hn. remember (map (field_of dm) ms) as xs eqn:Exs.
    remember (q0 :: rest) as qs eqn:Eqs. clear Eqs.
    revert ms Exs. induction Hn as [|x q xs qs E _ IH]; intros ms Exs m q' Hm Hq.
    - destruct ms; [destruct Hm | discriminate].
    - destruct ms as [|m0 ms']; [discriminate|]. injection Exs as -> ->.
      destruct Hm as [<-|Hm].
      + left. congruence.
      + right. eapply IH; eauto. }
  split; [apply Hin, Imin|]. split; [apply Hin, Imax|].
  intros m q Hm Hq. rewrite Forall_forall in Lmin, Lmax.
  split; [apply Lmin | apply Lmax]; eapply Hall; eassumption.
Qed.

Lemma extremes_attained_witness :
  exists st,
    benchmark_statistics Fixture.sqrt0
      [Fixture.sample 5 0 10 1000 true; Fixture.sample 7 1 12 900 false] = Returned st
    /\ exists m,
         In m [Fixture.sample 5 0 10 1000 true; Fixture.sample 7 1 12 900 false]
         /\ as_number (duration m) = Some (max (st_duration st)).
Proof.
  eexists. split; [reflexivity|].
  exact (proj1 (proj2 (extremes_attained Fixture.sqrt0
                         [Fixture.sample 5 0 10 1000 true;
                          Fixture.sample 7 1 12 900 false]
                         _ DDuration eq_refl))).
Defined.

Lemma Qc_square_nonneg (a : Qc) : Q2Qc 0 <= a * a.
Proof.
  destruct (Qclt_le_dec a (Q2Qc 0)) as [Hneg|Hpos].
  - assert (H0 : Q2Qc 0 <= - a).
    { apply Qclt_le_weak in Hneg. apply Qcopp_le_compat in Hneg.
      exact Hneg. }
    replace (a * a) with ((- a) * (- a)) by ring.
    rewrite <- (Qcmult_0_l (- a)) at 1.
    apply Qcmult_le_compat_r; assumption.
  - rewrite <- (Qcmult_0_l a) at 1. apply Qcmult_le_compat_r; assumption.
Qed.

Lemma Qcdiv_nonneg (x y : Qc) : Q2Qc 0 <= x -> Q2Qc 0 <= y -> Q2Qc 0 <= x / y.
Proof.
  intros Hx Hy. unfold Qcdiv.
  assert (Hi : Q2Qc 0 <= / y).
  { unfold Qcle, Qcinv in *. cbn [this Q2Qc] in *.
    rewrite !Qred_correct in *. apply Qinv_le_0_compat, Hy. }
  rewrite <- (Qcmult_0_l (/ y)) at 1. apply Qcmult_le_compat_r; assumption.
Qed.

Lemma total_nonneg (qs : list Qc) :
  Forall (fun x => Q2Qc 0 <= x) qs -> Q2Qc 0 <= total qs.
Proof.
  intros H. apply total_lower in H. rewrite Qcmult_0_r in H. exact H.
Qed.

Lemma variance_of_nonneg (qs : list Qc) : Q2Qc 0 <= variance_of qs.
Proof.
  unfold variance_of. apply Qcdiv_nonneg.
  - unfold sum_sq. apply total_nonneg. apply Forall_map, Forall_forall.
    intros x _. apply Qc_square_nonneg.
  - apply (Qc_of_nat_le 0). lia.
Qed.

Lemma Forall2_map_fields {A : Type} (f : A -> pyval) (ms : list A) (qs : list Qc) :
  Forall2 (fun x q => as_number x = Some q) (map f ms) qs ->
  Forall2 (fun m q => as_number (f m) = Some q) ms qs.
Proof.
  revert qs. induction ms as [|m ms IH]; intros qs H; inversion H; subst;
    constructor; auto.
Qed.

(** The sum of the squared deviations from any centre [c]. *)
Lemma total_squared_deviations (c : Qc) (qs : list Qc) :
  total (map (fun x => (x - c) * (x - c)) qs)
  = total (map (fun x => x * x) qs) - (Q2Qc 1 + Q2Qc 1) * c * total qs
    + Qc_of_nat (length qs) * c * c.
Proof.
  induction qs as [|q qs IH].
  - simpl. rewrite Qc_of_nat_0. ring.
  - cbn [map total fold_right length]. fold (total (map (fun x => (x - c) * (x - c)) qs)).
    fold (total (map (fun x => x * x) qs)). fold (total qs).
    rewrite IH, Qc_of_nat_S. ring.
Qed.

(** The textbook identity behind the sample variance:
    [n * sum((x - mean)^2) = n * sum(x^2) - sum(x)^2]. *)
Lemma sum_sq_expanded (qs : list Qc) :
  qs <> [] ->
  Qc_of_nat (length qs) * sum_sq qs
  = Qc_of_nat (length qs) * total (map (fun x => x * x) qs) - total qs * total qs.
Proof.
  intros Hne. unfold sum_sq, mean_of. rewrite total_squared_deviations.
  assert (Hn : Qc_of_nat (length qs) <> Q2Qc 0).
  { apply Qc_of_nat_nonzero. destruct qs; [contradiction | simpl; lia]. }
  field. exact Hn.
Qed.

(** X6: every standard deviation [benchmark_statistics] returns is the
    square root of the sample variance of the dimension, the one with the
    divisor [n - 1]: a number [v] that is not negative and such that
    [n * (n - 1) * v = n * sum(x^2) - sum(x)^2] over the [n] values [x] of
    the field. *)
Theorem deviation_of_nonnegative (sqrt : Qc -> Qc) (ms : list InvocationResult)
  (st : Stats) (dm : Dimension) :
  benchmark_statistics sqrt ms = Returned st ->
  exists qs v,
    Forall2 (fun m q => as_number (field_of dm m) = Some q) ms qs
    /\ std (stat_for dm st) = sqrt v
    /\ Q2Qc 0 <= v
    /\ Qc_of_nat (length ms) * Qc_of_nat (length ms - 1) * v
       = Qc_of_nat (length ms) * total (map (fun q => q * q) qs)
         - total qs * total qs.
Proof.
  intros H. pose proof (benchmark_statistics_dimension _ _ _ H dm) as Hd.
  apply stat_of_Returned in Hd. destruct Hd as (q0 & rest & Hn & Hlen & ->).
  pose proof (numbers_length _ _ Hn) as Hl. rewrite length_map in Hl, Hlen.
  apply numbers_Forall2, Forall2_map_fields in Hn.
  exists (q0 :: rest), (variance_of (q0 :: rest)).
  split; [exact Hn|]. split; [reflexivity|]. split; [apply variance_of_nonneg|].
  rewrite <- Hl, <- sum_sq_expanded by discriminate.
  unfold variance_of.
  assert (H1 : Qc_of_nat (length (q0 :: rest) - 1) <> Q2Qc 0).
  { apply Qc_of_nat_nonzero. lia. }
  field. exact H1.
Qed.

Lemma deviation_of_nonnegative_witness :
  exists st,
    benchmark_statistics Fixture.sqrt0
      [Fixture.sample 5 0 10 1000 true; Fixture.sample 7 1 12 900 false] = Returned st
    /\ exists qs v,
         Forall2 (fun m q => as_number (initTime m) = Some q)
           [Fixture.sample 5 0 10 1000 true; Fixture.sample 7 1 12 900 false] qs
         /\ std (st_initTime st) = Fixture.sqrt0 v
         /\ Q2Qc 0 <= v
         /\ Qc_of_nat 2 * Qc_of_nat 1 * v
            = Qc_of_nat 2 * total (map (fun q => q * q) qs) - total qs * total qs.
Proof.
  eexists. split; [reflexivity|].
  exact (deviation_of_nonnegative Fixture.sqrt0
           [Fixture.sample 5 0 10 1000 true; Fixture.sample 7 1 12 900 false]
           _ DInitTime eq_refl).
Defined.

Lemma Qc_of_nat_inj (n m : nat) : Qc_of_nat n = Qc_of_nat m -> n = m.
Proof.
  unfold Qc_of_nat. intros H. apply Q2Qc_eq_iff in H.
  unfold Qeq in H. simpl in H. lia.
Qed.

Lemma total_zero (qs : list Qc) :
  Forall (fun x => x = Q2Qc 0) qs -> total qs = Q2Qc 0.
Proof.
  induction 1 as [|x qs -> _ IH]; simpl; [reflexivity|].
  rewrite IH. apply Qcplus_0_l.
Qed.

Lemma fold_smaller_const (q : Qc) (l : list Qc) :
  Forall (eq q) l -> fold_left smaller l q = q.
Proof.
  intros H. destruct (fold_smaller_spec l q) as [Hin _].
  destruct Hin as [<-|Hin]; [reflexivity|].
  rewrite Forall_forall in H. symmetry. apply H, Hin.
Qed.

Lemma fold_larger_const (q : Qc) (l : list Qc) :
  Forall (eq q) l -> fold_left larger l q = q.
Proof.
  intros H. destruct (fold_larger_spec l q) as [Hin _].
  destruct Hin as [<-|Hin]; [reflexivity|].
  rewrite Forall_forall in H. symmetry. apply H, Hin.
Qed.

Lemma mean_of_const (q : Qc) (qs : list Qc) :
  qs <> [] -> Forall (eq q) qs -> mean_of qs = q.
Proof.
  intros Hne H. apply Qcle_antisym.
  - apply mean_of_upper; [exact Hne|].
    eapply Forall_impl; [|exact H]. intros x <-. apply Qcle_refl.
  - apply mean_of_lower; [exact Hne|].
    eapply Forall_impl; [|exact H]. intros x <-. apply Qcle_refl.
Qed.

Lemma variance_of_const (q : Qc) (qs : list Qc) :
  qs <> [] -> Forall (eq q) qs -> variance_of qs = Q2Qc 0.
Proof.
  intros Hne H. unfold variance_of, sum_sq.
  rewrite (mean_of_const q qs Hne H), total_zero.
  - unfold Qcdiv. apply Qcmult_0_l.
  - apply Forall_map. eapply Forall_impl; [|exact H].
    intros x <-. ring.
Qed.

(** X7: when all samples of a series hold the same number [q] in a
    dimension, the statistics [benchmark_statistics] returns for it are
    average, minimum and maximum [q] and deviation [sqrt 0]. *)
Theorem constant_dimension (sqrt : Qc -> Qc) (ms : list InvocationResult)
  (st : Stats) (dm : Dimension) (q : Qc) :
  benchmark_statistics sqrt ms = Returned st ->
  Forall (fun m => as_number (field_of dm m) = Some q) ms ->
  stat_for dm st = {| avg := q; min := q; max := q; std := sqrt (Q2Qc 0) |}.
Proof.
  intros H Hq. pose proof (benchmark_statistics_dimension _ _ _ H dm) as Hd.
  apply stat_of_Returned in Hd. destruct Hd as (q0 & rest & Hn & _ & ->).
  apply numbers_Forall2 in Hn.
  assert (Hall : Forall (eq q) (q0 :: rest)).
  { clear - Hn Hq. remember (map (field_of dm) ms) as xs eqn:Exs.
    remember (q0 :: rest) as qs eqn:Eqs. clear Eqs.
    revert ms Exs Hq. induction Hn as [|x y xs qs E _ IH]; intros ms Exs Hq.
    - constructor.
    - destruct ms as [|m ms']; [discriminate|]. injection Exs as -> ->.
      inversion Hq as [|? ? H1 H2]; subst.
      constructor; [congruence | eapply IH; eauto]. }
  assert (Hhead : q = q0) by (inversion Hall; assumption).
  assert (Hrest : Forall (eq q) rest) by (inversion Hall; assumption).
  subst q0.
  rewrite fold_smaller_const, fold_larger_const by exact Hrest.
  rewrite mean_of_const with (q := q), variance_of_const with (q := q);
    try assumption; try discriminate.
  reflexivity.
Qed.

Lemma constant_dimension_witness :
  exists st,
    benchmark_statistics Fixture.sqrt0
      [Fixture.sample 5 0 10 1000 true; Fixture.sample 7 0 12 900 false;
       Fixture.sample 6 0 11 950 true] = Returned st
    /\ st_waitTime st
       = {| avg := Q2Qc 0; min := Q2Qc 0; max := Q2Qc 0;
            std := Fixture.sqrt0 (Q2Qc 0) |}.
Proof.
  eexists. split; [reflexivity|].
  refine (constant_dimension Fixture.sqrt0
            [Fixture.sample 5 0 10 1000 true; Fixture.sample 7 0 12 900 false;
             Fixture.sample 6 0 11 950 true]
            _ DWaitTime (Q2Qc 0) eq_refl _).
  repeat constructor.
Defined.

Lemma successes_all (ms : list InvocationResult) :
  successes ms = length ms <-> Forall (fun m => truthy (success m) = true) ms.
Proof.
  unfold successes. induction ms as [|m ms IH]; simpl.
  - split; [constructor | reflexivity].
  - destruct (truthy (success m)) eqn:E; simpl.
    + split.
      * intros H. constructor; [exact E | apply IH; lia].
      * intros H. inversion H; subst. f_equal. apply IH. assumption.
    + split.
      * intros H.
        pose proof (filter_length_le (fun m => truthy (success m)) ms). lia.
      * intros H. inversion H; subst. congruence.
Qed.

Lemma successes_none (ms : list InvocationResult) :
  successes ms = 0%nat <-> Forall (fun m => truthy (success m) = false) ms.
Proof.
  unfold successes. induction ms as [|m ms IH]; simpl.
  - split; [constructor | reflexivity].
  - destruct (truthy (success m)) eqn:E; simpl.
    + split; [discriminate|]. intros H. inversion H; subst. congruence.
    + split.
      * intros H. constructor; [exact E | apply IH, H].
      * intros H. inversion H; subst. apply IH. assumption.
Qed.

Lemma rate_full (k n : nat) :
  (0 < n)%nat ->
  (Qc_of_nat k / Qc_of_nat n * Qc_of_nat 100 = Qc_of_nat 100 <-> k = n).
Proof.
  intros Hn.
  assert (Hnz : Qc_of_nat n <> Q2Qc 0) by (apply Qc_of_nat_nonzero, Hn).
  assert (Hc : Qc_of_nat 100 <> Q2Qc 0) by (apply Qc_of_nat_nonzero; lia).
  split.
  - intros H. apply Qc_of_nat_inj.
    replace (Qc_of_nat k)
      with (Qc_of_nat k / Qc_of_nat n * Qc_of_nat 100 * Qc_of_nat n / Qc_of_nat 100)
      by (field; split; assumption).
    rewrite H. field. exact Hc.
  - intros ->. field. exact Hnz.
Qed.

Lemma rate_null (k n : nat) :
  (0 < n)%nat ->
  (Qc_of_nat k / Qc_of_nat n * Qc_of_nat 100 = Q2Qc 0 <-> k = 0%nat).
Proof.
  intros Hn.
  assert (Hnz : Qc_of_nat n <> Q2Qc 0) by (apply Qc_of_nat_nonzero, Hn).
  assert (Hc : Qc_of_nat 100 <> Q2Qc 0) by (apply Qc_of_nat_nonzero; lia).
  split.
  - intros H. apply Qc_of_nat_inj. rewrite Qc_of_nat_0.
    replace (Qc_of_nat k)
      with (Qc_of_nat k / Qc_of_nat n * Qc_of_nat 100 * Qc_of_nat n / Qc_of_nat 100)
      by (field; split; assumption).
    rewrite H. field. exact Hc.
  - intros ->. rewrite Qc_of_nat_0. field. exact Hnz.
Qed.

(** X8: the success rate [benchmark_statistics] returns is 100 exactly when
    the [success] field of every sample is true for Python, and 0 exactly
    when none is. *)
Theorem success_rate_extremes (sqrt : Qc -> Qc) (ms : list InvocationResult)
  (st : Stats) :
  benchmark_statistics sqrt ms = Returned st ->
  (success_rate st = Qc_of_nat 100
   <-> Forall (fun m => truthy (success m) = true) ms)
  /\ (success_rate st = Q2Qc 0
      <-> Forall (fun m => truthy (success m) = false) ms).
Proof.
  intros H.
  destruct (benchmark_statistics_sound sqrt ms st H) as [-> _].
  assert (Hn : (0 < length ms)%nat).
  { destruct ms; [discriminate H | simpl; lia]. }
  rewrite (rate_full _ _ Hn), (rate_null _ _ Hn), successes_all, successes_none.
  split; reflexivity.
Qed.

Lemma success_rate_extremes_witness :
  exists st,
    benchmark_statistics Fixture.sqrt0
      [Fixture.sample 5 0 10 1000 true; Fixture.sample 7 1 12 900 true] = Returned st
    /\ success_rate st = Qc_of_nat 100.
Proof.
  eexists. split; [reflexivity|].
  apply (proj1 (success_rate_extremes Fixture.sqrt0
                  [Fixture.sample 5 0 10 1000 true; Fixture.sample 7 1 12 900 true]
                  _ eq_refl)).
  repeat constructor.
Defined.

(* ================================================================== *)
(** * Further properties of the runner                                 *)
(* ================================================================== *)

Local Open Scope run_scope.

Lemma emits_refl (P : Event -> Prop) (w : World) : emits P w w.
Proof. repeat split. exists []. split; [reflexivity | constructor]. Qed.

Lemma emits_trans (P : Event -> Prop) (w1 w2 w3 : World) :
  emits P w1 w2 -> emits P w2 w3 -> emits P w1 w3.
Proof.
  intros (S1 & C1 & e1 & T1 & F1) (S2 & C2 & e2 & T2 & F2).
  repeat split; try congruence.
  exists (e2 ++ e1). split.
  - rewrite T2, T1, app_assoc. reflexivity.
  - apply Forall_app. split; assumption.
Qed.

Lemma emits_one (P : Event -> Prop) (w w' : World) (ev : Event) :
  server w' = server w -> wall_clock w' = wall_clock w ->
  trace w' = ev :: trace w -> P ev -> emits P w w'.
Proof.
  intros Hs Hc Ht Hp. repeat split; try assumption.
  exists [ev]. split; [exact Ht | repeat constructor; exact Hp].
Qed.

Section Emitting.

Variable P : Event -> Prop.

Lemma emitting_ret {A : Type} (a : A) : emitting P (ret a).
Proof. intros w. apply emits_refl. Qed.

Lemma emitting_raise {A : Type} (e : exn) : emitting P (@raise A e).
Proof. intros w. apply emits_refl. Qed.

Lemma emitting_lift {A : Type} (o : outcome A) : emitting P (lift o).
Proof. destruct o; [apply emitting_ret | apply emitting_raise]. Qed.

Lemma emitting_bind_lift {A B : Type} (o : outcome A) (k : A -> M B) :
  (forall a, o = Returned a -> emitting P (k a)) ->
  emitting P (bindM (lift o) k).
Proof.
  intros Hk. destruct o as [a|e].
  - intros w. exact (Hk a eq_refl w).
  - intros w. apply emits_refl.
Qed.

Lemma emitting_bind {A B : Type} (m : M A) (k : A -> M B) :
  emitting P m -> (forall a, emitting P (k a)) -> emitting P (bindM m k).
Proof.
  intros Hm Hk w. specialize (Hm w). unfold bindM.
  destruct (m w) as [[a|e|] w1]; simpl in Hm |- *; try exact Hm.
  eapply emits_trans; [exact Hm | apply Hk].
Qed.

Lemma emitting_http (rq : Request) : P (EvRequest rq) -> emitting P (http rq).
Proof.
  intros Hp w. unfold http.
  destruct (server w (exchanges w) rq); simpl;
    eapply emits_one; try reflexivity; exact Hp.
Qed.

Lemma emitting_time_time : (forall t, P (EvClock t)) -> emitting P time_time.
Proof. intros Hp w. simpl. eapply emits_one; try reflexivity. apply Hp. Qed.

Lemma emitting_time_sleep (secs : Qc) : P (EvSleep secs) -> emitting P (time_sleep secs).
Proof.
  intros Hp w. unfold time_sleep.
  destruct (sleep_error secs); [apply emits_refl|].
  destruct (os_refuses w (exchanges w) secs); simpl.
  - apply emits_refl.
  - eapply emits_one; try reflexivity. exact Hp.
Qed.

Lemma emitting_for_range {S : Type} (body : S -> M S) :
  (forall s, emitting P (body s)) ->
  forall n s, emitting P (for_range n body s).
Proof.
  intros Hb. induction n as [|n IH]; intros s; simpl.
  - apply emitting_ret.
  - apply emitting_bind; [apply Hb | intros s'; apply IH].
Qed.

End Emitting.

Section ConfiguredRun.

Variable config : Config.

Local Abbreviation good := (configured_event config).

Lemma emitting_sync_call :
  blocking config = true -> emitting good (sync_call config).
Proof.
  intros Hm. unfold sync_call. apply emitting_bind.
  - apply emitting_http. simpl. rewrite Hm. auto.
  - intros r. apply emitting_ret.
Qed.

Lemma emitting_poll (fuel : nat) (a : string) :
  blocking config = false ->
  emitting good
    (poll fuel config (apihost config ++ "/namespaces/_/activations/" ++ a)%string).
Proof.
  intros Hm. induction fuel as [|fuel IH]; simpl.
  - intros w. apply emits_refl.
  - apply emitting_bind.
    + apply emitting_http. simpl. repeat split; eauto.
    + intros r. destruct (Z.eqb (status_code r) 200); [apply emitting_ret|].
      apply emitting_bind; [|intros _; exact IH].
      apply emitting_time_sleep. simpl. split; [exact Hm | reflexivity].
Qed.

Lemma emitting_async_call (fuel : nat) :
  blocking config = false -> emitting good (async_call fuel config).
Proof.
  intros Hm. unfold async_call.
  apply emitting_bind; [apply emitting_time_time; intros t; exact Hm | intros start].
  apply emitting_bind; [apply emitting_http; simpl; rewrite Hm; auto | intros post].
  apply emitting_bind_lift. intros body _.
  apply emitting_bind_lift. intros aid _.
  apply emitting_bind_lift. intros u Hu.
  destruct aid as [| | |a| |]; try discriminate. injection Hu as <-.
  apply emitting_bind; [apply emitting_poll, Hm | intros g].
  apply emitting_bind;
    [apply emitting_time_time; intros t; exact Hm | intros now; apply emitting_ret].
Qed.

Lemma emitting_bench_single_invocations (fuel : nat) :
  emitting good (bench_single_invocations fuel config).
Proof.
  unfold bench_single_invocations. destruct (blocking config) eqn:Hm.
  - apply emitting_bind; [apply emitting_sync_call, Hm|].
    intros r. apply emitting_bind_lift. intros text _.
    apply emitting_bind; [apply emitting_ret | intros _; apply emitting_lift].
  - apply emitting_bind; [apply emitting_async_call, Hm|].
    intros [post get]. apply emitting_bind_lift. intros post_text _.
    apply emitting_bind; [apply emitting_ret | intros _].
    apply emitting_bind_lift. intros get_text _.
    apply emitting_bind; [apply emitting_ret | intros _; apply emitting_lift].
Qed.

Lemma emitting_bench_multiple_invocations (fuel : nat) (warmup : bool) :
  emitting good (bench_multiple_invocations fuel config warmup).
Proof.
  unfold bench_multiple_invocations. destruct warmup.
  - apply emitting_bind; [|intros; apply emitting_ret].
    apply emitting_for_range. intros _.
    apply emitting_bind; [apply emitting_bench_single_invocations|].
    intros; apply emitting_ret.
  - apply emitting_bind; [|intros; apply emitting_ret].
    apply emitting_for_range. intros acc.
    apply emitting_bind; [apply emitting_bench_single_invocations|].
    intros; apply emitting_ret.
Qed.

Lemma emitting_collect_metrics (fuel : nat) :
  emitting good (collect_metrics fuel config).
Proof.
  unfold collect_metrics.
  apply emitting_bind; [apply emitting_bench_multiple_invocations | intros _].
  apply emitting_for_range. intros acc.
  apply emitting_bind; [apply emitting_bench_multiple_invocations|].
  intros ml. apply emitting_lift.
Qed.

End ConfiguredRun.

(** X9: however [run_benchmark] ends (statistics, an exception, or a loop
    still polling), it has put on the wire only the POST of its mode to the
    configured action with the configured payload and, in non-blocking mode
    only, GETs of activations under [apihost]; every request carried the
    configured credential, every sleep lasted [time_precision / 1000]
    seconds, and the clock was read in non-blocking mode only. *)
Theorem run_benchmark_traffic (sqrt : Qc -> Qc) (fuel : nat) (config : Config)
  (w : World) :
  exists evs,
    trace (snd (run_benchmark sqrt fuel config w)) = evs ++ trace w
    /\ Forall (configured_event config) evs.
Proof.
  assert (H : emitting (configured_event config) (run_benchmark sqrt fuel config)).
  { unfold run_benchmark.
    apply emitting_bind; [apply emitting_collect_metrics | intros ms].
    apply emitting_bind_lift. intros st _. apply emitting_ret. }
  destruct (H w) as (_ & _ & evs & Ht & Hf). eauto.
Qed.

(** ** One invocation, by cases on the reply to its POST *)

Lemma bench_single_blocking (fuel : nat) (config : Config) (w : World) :
  blocking config = true ->
  bench_single_invocations fuel config w =
  match server w (exchanges w) (post_request config "true") with
  | Answer st b el =>
      (result_of (recorded
                    (mkResponse st b el (Some (el * Qc_of_Z 1000)%Qc)) config),
       after_post config "true" w)
  | Unreachable => (Err ConnectionError, after_post config "true" w)
  end.
Proof.
  intros Hm. unfold bench_single_invocations. rewrite Hm.
  unfold bindM at 1. unfold sync_call, requests_post, bindM at 1, http.
  fold (post_request config "true"). fold (after_post config "true" w).
  destruct (server w (exchanges w) (post_request config "true")) as [st b el|];
    [|reflexivity].
  unfold ret at 1. cbn [elapsed]. unfold set_client_elapsed_time.
  cbn [status_code content elapsed]. unfold recorded, log_info.
  destruct (format_response_dict
              (mkResponse st b el (Some (el * Qc_of_Z 1000)%Qc))) as [text|e];
    [|reflexivity].
  cbn [bind]. unfold bindM, lift at 1, ret. apply lift_run.
Qed.

Lemma repeat_shift {A : Type} (x : A) (n : nat) (l : list A) :
  repeat x n ++ x :: l = x :: repeat x n ++ l.
Proof. induction n as [|n IH]; simpl; [reflexivity | rewrite IH; reflexivity]. Qed.

Lemma skipn_repeat {A : Type} (x : A) (a b : nat) :
  skipn a (repeat x (a + b)) = repeat x b.
Proof. induction a as [|a IH]; simpl; [reflexivity | exact IH]. Qed.

Lemma invocations_blocking (fuel : nat) (config : Config) (n : nat) :
  blocking config = true ->
  forall w w' rs,
    invocations fuel config n w = (Ok rs, w') ->
    exchanges w' = (exchanges w + n)%nat
    /\ clock_reads w' = clock_reads w
    /\ trace w' = repeat (EvRequest (post_request config "true")) n ++ trace w.
Proof.
  intros Hm. induction n as [|n IH]; intros w w' rs H.
  - injection H as _ <-. repeat split. symmetry. apply Nat.add_0_r.
  - cbn [invocations] in H.
    apply bindM_Ok in H. destruct H as (r & w1 & H1 & H).
    apply bindM_Ok in H. destruct H as (rs' & w2 & H2 & H).
    injection H as _ <-.
    rewrite (bench_single_blocking _ _ _ Hm) in H1.
    destruct (server w (exchanges w) (post_request config "true"));
      [|discriminate].
    injection H1 as _ <-.
    destruct (IH _ _ _ H2) as (He & Hc & Ht). simpl in He, Hc, Ht.
    repeat split.
    + rewrite He. lia.
    + exact Hc.
    + rewrite Ht. simpl. apply repeat_shift.
Qed.

(** X10: in blocking mode, a run that reaches its statistics has made
    exactly one exchange per invocation, warmup included
    ([max 0 warmup + max 0 num_runs * max 0 num_invocations] POSTs of the
    same request), no GET, no sleep and no reading of the clock. *)
Theorem blocking_run_requests (sqrt : Qc -> Qc) (fuel : nat) (config : Config)
  (w w' : World) (ms : list InvocationResult) (st : Stats) :
  blocking config = true ->
  run_benchmark sqrt fuel config w = (Ok (ms, st), w') ->
  exchanges w'
  = (exchanges w + (range_len (warmup_invocations config)
                    + range_len (num_runs config)
                      * range_len (num_invocations config)))%nat
  /\ clock_reads w' = clock_reads w
  /\ trace w'
     = repeat (EvRequest (post_request config "true"))
         (range_len (warmup_invocations config)
          + range_len (num_runs config) * range_len (num_invocations config))
       ++ trace w.
Proof.
  intros Hm H. apply run_benchmark_Ok in H. destruct H as [Hc _].
  destruct (series_length_any_counts _ _ _ _ _ Hc) as (_ & warm & _ & Hflat).
  exact (invocations_blocking _ _ _ Hm _ _ _ Hflat).
Qed.

Lemma blocking_run_requests_witness :
  exists ms st w',
    run_benchmark Fixture.sqrt0 1 (Fixture.config_of true 2 3 1) Fixture.world0
    = (Ok (ms, st), w')
    /\ exchanges w' = 7%nat /\ clock_reads w' = 0%nat.
Proof.
  destruct (run_benchmark Fixture.sqrt0 1 (Fixture.config_of true 2 3 1)
              Fixture.world0) as [[[ms st]|e|] w'] eqn:E.
  - exists ms, st, w'. split; [reflexivity|].
    destruct (blocking_run_requests Fixture.sqrt0 1 (Fixture.config_of true 2 3 1)
                Fixture.world0 w' ms st eq_refl E) as (He & Hc & _).
    split; [exact He | exact Hc].
  - exfalso. vm_compute in E. discriminate E.
  - exfalso. vm_compute in E. discriminate E.
Defined.

(** X11: in non-blocking mode, a reply to the POST whose body does not
    decode, is not an object, has no ['activationId'] or has one that is
    not a string makes the invocation raise (the exception of
    [response.json()], [ValueError] on text that is not JSON; [TypeError];
    [KeyError]; [TypeError]) right after that single exchange: no GET is
    made and no degraded record is produced. *)
Theorem post_without_activation_id (fuel : nat) (config : Config) (w : World)
  (st : Z) (b : Body) (el : Qc) (e : exn) :
  blocking config = false ->
  server w (exchanges w) (post_request config "false") = Answer st b el ->
  activation_id_error (decoded b) = Some e ->
  bench_single_invocations fuel config w
  = (Err e, after_post config "false" (after_clock w)).
Proof.
  intros Hm Hr He. unfold bench_single_invocations. rewrite Hm.
  unfold bindM at 1. rewrite (async_call_refused fuel config w st b el e Hr He).
  reflexivity.
Qed.

Lemma post_without_activation_id_witness :
  activation_id_error
    (decoded (body_of (Some (PyDict [("error", PyStr "not found")])))) = Some KeyError
  /\ bench_single_invocations 3 (Fixture.config_of false 2 3 1)
       (constant_world
          (Answer 404 (body_of (Some (PyDict [("error", PyStr "not found")]))) (Q2Qc 1)))
     = (Err KeyError,
        after_post (Fixture.config_of false 2 3 1) "false"
          (after_clock
             (constant_world
                (Answer 404 (body_of (Some (PyDict [("error", PyStr "not found")])))
                   (Q2Qc 1))))).
Proof.
  split; [reflexivity|].
  exact (post_without_activation_id 3 (Fixture.config_of false 2 3 1)
           (constant_world
              (Answer 404 (body_of (Some (PyDict [("error", PyStr "not found")]))) (Q2Qc 1)))
           404 (body_of (Some (PyDict [("error", PyStr "not found")]))) (Q2Qc 1) KeyError
           eq_refl eq_refl eq_refl).
Defined.

Lemma bindM_Err {A B : Type} (m : M A) (k : A -> M B) (w w' : World) (e : exn) :
  m w = (Err e, w') -> bindM m k w = (Err e, w').
Proof. intros H. unfold bindM. rewrite H. reflexivity. Qed.

Lemma bench_single_unreachable (fuel : nat) (config : Config) (w : World) :
  server w (exchanges w)
    (post_request config (if blocking config then "true" else "false"))
  = Unreachable ->
  fst (bench_single_invocations fuel config w) = Err ConnectionError
  /\ exchanges (snd (bench_single_invocations fuel config w)) = S (exchanges w).
Proof.
  intros Hr. destruct (blocking config) eqn:Hm.
  - rewrite (bench_single_blocking _ _ _ Hm), Hr. split; reflexivity.
  - unfold bench_single_invocations. rewrite Hm.
    unfold bindM. rewrite async_call_post, Hr.
    split; reflexivity.
Qed.

(** X12: when the transport fails on the first POST and at least one
    invocation is to be made, warmup included, [run_benchmark] ends with
    that [ConnectionError] after this single exchange: nothing is retried
    and no statistics are computed. *)
Theorem transport_failure_aborts (sqrt : Qc -> Qc) (fuel : nat) (config : Config)
  (w : World) :
  (0 < range_len (warmup_invocations config)
       + range_len (num_runs config) * range_len (num_invocations config))%nat ->
  server w (exchanges w)
    (post_request config (if blocking config then "true" else "false"))
  = Unreachable ->
  fst (run_benchmark sqrt fuel config w) = Err ConnectionError
  /\ exchanges (snd (run_benchmark sqrt fuel config w)) = S (exchanges w).
Proof.
  intros Hn Hr.
  destruct (bench_single_unreachable fuel config w Hr) as [H1 H2].
  destruct (bench_single_invocations fuel config w) as [r1 w1] eqn:E1.
  simpl in H1, H2. subst r1.
  assert (E : run_benchmark sqrt fuel config w = (Err ConnectionError, w1)).
  { unfold run_benchmark. apply bindM_Err. rewrite collect_metrics_flat.
    apply bindM_Err.
    destruct (range_len (warmup_invocations config)
              + range_len (num_runs config) * range_len (num_invocations config))%nat
      as [|n]; [lia|].
    cbn [invocations]. apply bindM_Err. exact E1. }
  rewrite E. split; [reflexivity | exact H2].
Qed.

Lemma transport_failure_aborts_witness :
  fst (run_benchmark Fixture.sqrt0 3 (Fixture.config_of false 2 3 1)
         (constant_world Unreachable))
  = Err ConnectionError.
Proof.
  refine (proj1 (transport_failure_aborts Fixture.sqrt0 3
                   (Fixture.config_of false 2 3 1)
                   (constant_world Unreachable) _ eq_refl)).
  simpl. lia.
Defined.

Lemma format_response_dict_content (r r' : Response) :
  content r = content r' -> format_response_dict r = format_response_dict r'.
Proof. unfold format_response_dict. intros ->. reflexivity. Qed.

Lemma recorded_undecodable (st : Z) (b : Body) (el : Qc) (ms : option Qc)
  (config : Config) :
  undecodable (Answer st b el) = true ->
  loggable (Answer st b el) = true ->
  recorded (mkResponse st b el ms) config = Returned zero_result.
Proof.
  unfold undecodable, loggable, recorded. intros Hd Hl.
  rewrite (format_response_dict_content (mkResponse st b el ms)
             (mkResponse st b el None) eq_refl).
  destruct (format_response_dict (mkResponse st b el None)); [|discriminate].
  cbn [bind]. unfold extract_metrics, extract_metrics_try, response_json.
  cbn [content]. destruct (decoded b) as [v|[]]; try discriminate. reflexivity.
Qed.

Lemma invocations_undecodable (fuel : nat) (config : Config) (n : nat) :
  blocking config = true ->
  forall w,
    (forall k rq, undecodable (server w k rq) = true
                  /\ loggable (server w k rq) = true) ->
    exists w',
      invocations fuel config n w = (Ok (repeat zero_result n), w').
Proof.
  intros Hm. induction n as [|n IH]; intros w Hs.
  - exists w. reflexivity.
  - cbn [invocations]. unfold bindM at 1.
    rewrite (bench_single_blocking _ _ _ Hm).
    destruct (Hs (exchanges w) (post_request config "true")) as [Hd Hl].
    destruct (server w (exchanges w) (post_request config "true"))
      as [st b el|]; [|discriminate].
    rewrite (recorded_undecodable _ _ _ _ _ Hd Hl). cbn [result_of].
    destruct (IH (after_post config "true" w) Hs) as [w' Hw'].
    unfold bindM. rewrite Hw'. exists w'. reflexivity.
Qed.

(** X13: in blocking mode the text for the log is built from each reply
    before its metrics are extracted.  When every reply is an HTTP response
    on which [response.json()] raises [ValueError] and which
    [format_response_dict] formats, no invocation aborts the run: the
    series handed to [benchmark_statistics] is
    [max 0 num_runs * max 0 num_invocations] copies of the all-zero record
    with [success] false.  When [format_response_dict] raises on the reply
    to the first POST, the run ends there with that exception, whatever
    [extract_metrics] would have made of the body. *)
Theorem undecodable_replies_degrade (fuel : nat) (config : Config) (w : World) :
  blocking config = true ->
  ((forall k rq, undecodable (server w k rq) = true
                 /\ loggable (server w k rq) = true) ->
   exists w',
     collect_metrics fuel config w
     = (Ok (repeat zero_result
              (range_len (num_runs config) * range_len (num_invocations config))),
        w'))
  /\ (forall st b el e,
        (0 < range_len (warmup_invocations config)
             + range_len (num_runs config) * range_len (num_invocations config))%nat ->
        server w (exchanges w) (post_request config "true") = Answer st b el ->
        format_response_dict (mkResponse st b el None) = Raised e ->
        collect_metrics fuel config w = (Err e, after_post config "true" w)).
Proof.
  intros Hm. split.
  - intros Hs. rewrite collect_metrics_flat.
    destruct (invocations_undecodable fuel config
                (range_len (warmup_invocations config)
                 + range_len (num_runs config) * range_len (num_invocations config))
                Hm w Hs) as [w' Hw'].
    unfold bindM. rewrite Hw'. unfold ret. rewrite skipn_repeat.
    exists w'. reflexivity.
  - intros st b el e Hn Hr He. rewrite collect_metrics_flat.
    apply bindM_Err.
    destruct (range_len (warmup_invocations config)
              + range_len (num_runs config) * range_len (num_invocations config))%nat
      as [|n]; [lia|].
    cbn [invocations]. apply bindM_Err.
    rewrite (bench_single_blocking _ _ _ Hm), Hr. unfold recorded.
    rewrite (format_response_dict_content
               (mkResponse st b el (Some (el * Qc_of_Z 1000)%Qc))
               (mkResponse st b el None) eq_refl), He.
    reflexivity.
Qed.

Lemma undecodable_replies_degrade_witness :
  (exists w',
     collect_metrics 1 (Fixture.config_of true 2 3 1)
       (constant_world (Answer 502 (body_of None) (Q2Qc 1)))
     = (Ok (repeat zero_result 6), w'))
  /\ fst (collect_metrics 1 (Fixture.config_of true 2 3 1)
            (constant_world
               (Answer 200
                  {| decoded := Raised ValueError;
                     loaded := LoadsRaised ValueError;
                     pformatted := Returned "{...}" |} (Q2Qc 1))))
     = Err ValueError.
Proof.
  split.
  - refine (proj1 (undecodable_replies_degrade 1 (Fixture.config_of true 2 3 1)
                     (constant_world (Answer 502 (body_of None) (Q2Qc 1))) eq_refl)
              _).
    intros k rq. split; reflexivity.
  - rewrite (proj2 (undecodable_replies_degrade 1 (Fixture.config_of true 2 3 1)
                      (constant_world
                         (Answer 200
                            {| decoded := Raised ValueError;
                               loaded := LoadsRaised ValueError;
                               pformatted := Returned "{...}" |} (Q2Qc 1)))
                      eq_refl)
               200%Z _ (Q2Qc 1) ValueError ltac:(simpl; lia) eq_refl eq_refl).
    reflexivity.
Defined.

(** X14: [run_benchmark] reaches its statistics only when
    [max 0 num_runs * max 0 num_invocations] is at least 2; when that
    product is 0 and the warmup completes it ends with
    [ZeroDivisionError]. *)
Theorem run_needs_two_samples (sqrt : Qc -> Qc) (fuel : nat) (config : Config)
  (w : World) :
  (forall ms st w',
     run_benchmark sqrt fuel config w = (Ok (ms, st), w') ->
     (2 <= Z.max 0 (num_runs config) * Z.max 0 (num_invocations config))%Z)
  /\ (forall ms w',
        (Z.max 0 (num_runs config) * Z.max 0 (num_invocations config) = 0)%Z ->
        collect_metrics fuel config w = (Ok ms, w') ->
        run_benchmark sqrt fuel config w = (Err ZeroDivisionError, w')).
Proof.
  split.
  - intros ms st w' H. apply run_benchmark_Ok in H. destruct H as [Hc Hs].
    destruct (series_length_any_counts _ _ _ _ _ Hc) as [Hlen _].
    rewrite <- Hlen.
    pose proof (benchmark_statistics_dimension _ _ _ Hs DInitTime) as Hd.
    apply stat_of_Returned in Hd. destruct Hd as (q & rest & _ & Hl & _).
    rewrite length_map in Hl. lia.
  - intros ms w' H0 Hc.
    destruct (series_length_any_counts _ _ _ _ _ Hc) as [Hlen _].
    rewrite H0 in Hlen. destruct ms as [|m ms]; [|simpl in Hlen; lia].
    unfold run_benchmark, bindM. rewrite Hc. reflexivity.
Qed.

Lemma run_needs_two_samples_witness :
  run_benchmark Fixture.sqrt0 1 (Fixture.config_of true 0 3 1) Fixture.world0
  = (Err ZeroDivisionError,
     snd (collect_metrics 1 (Fixture.config_of true 0 3 1) Fixture.world0)).
Proof.
  refine (proj2 (run_needs_two_samples Fixture.sqrt0 1
                   (Fixture.config_of true 0 3 1) Fixture.world0)
            [] _ eq_refl _).
  vm_compute; reflexivity.
Defined.

(** ** Where the client time comes from *)

Lemma extract_metrics_client_time (response : Response) (config : Config)
  (r : InvocationResult) :
  extract_metrics response config = Returned r ->
  r = zero_result
  \/ client_elapsed_time r = getattr_client_elapsed_time response.
Proof.
  unfold extract_metrics. intros H.
  destruct (extract_metrics_try response config) as [r'|e] eqn:E.
  - injection H as <-. right. unfold extract_metrics_try in E.
    bind_inv E. bind_inv E. bind_inv E. bind_inv E. bind_inv E. bind_inv E.
    injection E as <-. reflexivity.
  - destruct e; try discriminate; injection H as <-; left; reflexivity.
Qed.

Lemma recorded_Returned (response : Response) (config : Config)
  (r : InvocationResult) :
  recorded response config = Returned r ->
  (exists text, format_response_dict response = Returned text)
  /\ extract_metrics response config = Returned r.
Proof.
  unfold recorded. destruct (format_response_dict response) as [text|e];
    [|discriminate].
  cbn [bind]. eauto.
Qed.

(** A non-blocking invocation that returns: the call returned, both texts
    for the log were built, and the record is extracted from the completed
    activation. *)
Lemma bench_single_non_blocking_Ok (fuel : nat) (config : Config) (w w' : World)
  (r : InvocationResult) :
  blocking config = false ->
  bench_single_invocations fuel config w = (Ok r, w') ->
  exists post_response get_response,
    async_call fuel config w = (Ok (post_response, get_response), w')
    /\ (exists text, format_response_dict post_response = Returned text)
    /\ recorded get_response config = Returned r.
Proof.
  intros Hm H. unfold bench_single_invocations in H. rewrite Hm in H.
  apply bindM_Ok in H. destruct H as ([post get] & w1 & Ha & H).
  exists post, get. unfold recorded, log_info in *.
  destruct (format_response_dict post) as [post_text|e]; [|discriminate].
  destruct (format_response_dict get) as [get_text|e]; [|discriminate].
  unfold bindM, lift at 1 2, ret in H. rewrite lift_run in H.
  injection H as H <-. cbn [bind].
  destruct (extract_metrics get config) as [r'|e]; [|discriminate].
  injection H as ->. eauto.
Qed.

(** X15: the [client_elapsed_time] of a record that is not the degraded
    one is, in blocking mode, 1000 times the [elapsed] seconds the
    transport reports for the POST, the only event of the invocation (the
    clock is not read); in non-blocking mode it is 1000 times the
    difference between two readings of the clock, the one made before the
    POST is sent and the one made after the GET that is answered 200, the
    first and the last event of the invocation. *)
Theorem client_time_source (fuel : nat) (config : Config) (w w' : World)
  (r : InvocationResult) :
  bench_single_invocations fuel config w = (Ok r, w') ->
  r = zero_result
  \/ (if blocking config
      then trace w' = EvRequest (post_request config "true") :: trace w
           /\ exists st b el,
                server w (exchanges w) (post_request config "true") = Answer st b el
                /\ client_elapsed_time r = PyNum (el * Qc_of_Z 1000)%Qc
      else exists a n,
             trace w'
             = EvClock (wall_clock w (S (clock_reads w)))
                 :: poll_trace config (poll_url config a) n
                 ++ EvRequest (post_request config "false")
                 :: EvClock (wall_clock w (clock_reads w)) :: trace w
             /\ client_elapsed_time r
                = PyNum ((wall_clock w (S (clock_reads w))
                          - wall_clock w (clock_reads w)) * Qc_of_Z 1000)%Qc).
Proof.
  intros H. destruct (blocking config) eqn:Hm.
  - rewrite (bench_single_blocking _ _ _ Hm) in H.
    destruct (server w (exchanges w) (post_request config "true"))
      as [st b el|] eqn:Hr; [|discriminate].
    injection H as H <-.
    destruct (recorded (mkResponse st b el (Some (el * Qc_of_Z 1000)%Qc))
                config) as [r'|e] eqn:E; [|discriminate].
    injection H as ->. apply recorded_Returned in E. destruct E as [_ E].
    destruct (extract_metrics_client_time _ _ _ E) as [->|Hc]; [left; reflexivity|].
    right. split; [reflexivity|]. exists st, b, el. split; [reflexivity | exact Hc].
  - destruct (bench_single_non_blocking_Ok _ _ _ _ _ Hm H)
      as (post & get & Ha & _ & E).
    apply recorded_Returned in E. destruct E as [_ E].
    destruct (extract_metrics_client_time _ _ _ E) as [->|Hc]; [left; reflexivity|].
    right.
    destruct (async_call_Ok _ _ _ _ _ _ Ha)
      as (a & n & r0 & _ & _ & _ & _ & _ & _ & Hg & Hw).
    exists a, n.
    destruct (after_pauses_world config (poll_url config a) n (loop_start config w))
      as (_ & Hwc & Hcr & _ & _ & Ht).
    split.
    + subst w'. cbn [after_clock trace]. rewrite Hwc, Hcr, Ht. reflexivity.
    + rewrite Hc, Hg. reflexivity.
Qed.

Lemma client_time_source_witness :
  exists r w',
    bench_single_invocations 2 (Fixture.config_of false 2 3 1) Fixture.world0
    = (Ok r, w')
    /\ (r = zero_result
        \/ exists a n,
             trace w'
             = EvClock (Qc_of_nat 1)
                 :: poll_trace (Fixture.config_of false 2 3 1)
                      (poll_url (Fixture.config_of false 2 3 1) a) n
                 ++ [EvRequest (post_request (Fixture.config_of false 2 3 1) "false");
                     EvClock (Qc_of_nat 0)]
             /\ client_elapsed_time r
                = PyNum ((Qc_of_nat 1 - Qc_of_nat 0) * Qc_of_Z 1000)%Qc).
Proof.
  destruct (bench_single_invocations 2 (Fixture.config_of false 2 3 1)
              Fixture.world0) as [[r|e|] w'] eqn:E.
  - exists r, w'. split; [reflexivity|].
    exact (client_time_source 2 (Fixture.config_of false 2 3 1) Fixture.world0
             w' r E).
  - exfalso. vm_compute in E. discriminate E.
  - exfalso. vm_compute in E. discriminate E.
Defined.

(** X16: with a negative [time_precision] the polling loop never makes a
    second GET: a first reply with a status other than 200 makes
    [time.sleep] raise before anything is slept, [ValueError] down to
    -9223372036854 ms and [OverflowError] below. *)
Theorem negative_precision_stops_polling (config : Config) (u : string)
  (fuel : nat) (w : World) :
  (time_precision config < 0)%Z ->
  (exchanges (snd (poll fuel config u w)) <= S (exchanges w))%nat
  /\ (pending (reply_at w config u 0) = true ->
      poll (S fuel) config u w
      = (Err (if (-9223372036855 <? time_precision config)%Z
              then ValueError else OverflowError),
         after_get config u w)).
Proof.
  intros Htp.
  assert (Hs : sleep_error (poll_pause config)
               = Some (if (-9223372036855 <? time_precision config)%Z
                       then ValueError else OverflowError)).
  { rewrite sleep_error_poll_pause.
    destruct (Z.leb_spec 9223372036855 (time_precision config)); [lia|].
    destruct (Z.leb_spec 0 (time_precision config)); [lia|].
    destruct (Z.ltb_spec (-9223372036855) (time_precision config)); reflexivity. }
  assert (Hp : pauses w config 0 = false) by (unfold pauses; rewrite Hs; reflexivity).
  assert (He : pause_exn config
               = if (-9223372036855 <? time_precision config)%Z
                 then ValueError else OverflowError)
    by (unfold pause_exn; rewrite Hs; reflexivity).
  split.
  - destruct fuel as [|fuel]; [simpl; lia|]. rewrite poll_step.
    destruct (reply_at w config u 0) as [st b el|]; [|simpl; lia].
    destruct (Z.eqb st 200); [simpl; lia|]. rewrite Hp. simpl. lia.
  - intros Hpend. rewrite poll_step.
    destruct (reply_at w config u 0) as [st b el|]; [|discriminate].
    simpl in Hpend. apply negb_true_iff in Hpend. rewrite Hpend, Hp, He.
    reflexivity.
Qed.

Lemma negative_precision_stops_polling_witness :
  poll 5 (with_time_precision_of (Fixture.config_of false 2 3 1) (-1))
    "https://host/api/v1/namespaces/_/activations/a1" (slow_world 2)
  = (Err ValueError,
     after_get (with_time_precision_of (Fixture.config_of false 2 3 1) (-1))
       "https://host/api/v1/namespaces/_/activations/a1" (slow_world 2)).
Proof.
  refine (proj2 (negative_precision_stops_polling
                   (with_time_precision_of (Fixture.config_of false 2 3 1) (-1))
                   "https://host/api/v1/namespaces/_/activations/a1" 4
                   (slow_world 2) _) eq_refl).
  simpl. lia.
Defined.

(* ================================================================== *)
(** * Presenting the results                                           *)
(* ================================================================== *)

Import Presentation.

Lemma slice_to_length (n : nat) (s : string) :
  String.length (slice_to n s) = Nat.min n (String.length s).
Proof.
  revert s. induction n as [|n IH]; intros [|c s]; simpl; try reflexivity.
  rewrite IH. reflexivity.
Qed.

Lemma string_app_length (s t : string) :
  String.length (s ++ t) = (String.length s + String.length t)%nat.
Proof. induction s as [|c s IH]; simpl; [reflexivity | rewrite IH; reflexivity]. Qed.

Lemma slice_to_prefix (n : nat) (s : string) :
  exists rest, s = (slice_to n s ++ rest)%string.
Proof.
  revert s. induction n as [|n IH]; intros s.
  - exists s. destruct s; reflexivity.
  - destruct s as [|c s]; [exists EmptyString; reflexivity|].
    destruct (IH s) as [rest Hr]. exists rest. simpl. rewrite <- Hr. reflexivity.
Qed.

(** X17: the payload [format_results] shows is the dump itself when it has
    at most 500 characters; a longer dump is cut to its first 500 characters
    followed by ["... (truncated)"], 515 characters in all. *)
Theorem truncate_payload_bound (payload_str : string) :
  (String.length (truncate_payload payload_str) <= 515)%nat
  /\ ((String.length payload_str <= 500)%nat ->
      truncate_payload payload_str = payload_str)
  /\ ((500 < String.length payload_str)%nat ->
      String.length (truncate_payload payload_str) = 515%nat
      /\ exists head rest,
           String.length head = 500%nat
           /\ payload_str = (head ++ rest)%string
           /\ truncate_payload payload_str = (head ++ "... (truncated)")%string).
Proof.
  unfold truncate_payload.
  destruct (Nat.ltb_spec 500 (String.length payload_str)) as [Hlong|Hshort].
  - assert (Hl : String.length (slice_to 500 payload_str) = 500%nat).
    { rewrite slice_to_length. apply Nat.min_l. lia. }
    assert (Ht : String.length (slice_to 500 payload_str ++ "... (truncated)")
                 = 515%nat).
    { rewrite string_app_length, Hl. reflexivity. }
    split; [rewrite Ht; lia|]. split; [lia|]. intros _. split; [exact Ht|].
    destruct (slice_to_prefix 500 payload_str) as [rest Hr].
    exists (slice_to 500 payload_str), rest. repeat split; assumption.
  - split; [lia|]. split; [reflexivity | lia].
Qed.

Section Rendered.

Variable format_spec : string -> Qc -> outcome string.
Variable json_dumps : pyval -> option nat -> outcome string.
Variable tabulate : list (list string) -> list string -> outcome string.
Variable csv_lines : Stats -> list string.

Local Abbreviation formatted := (format_results format_spec json_dumps tabulate).
Local Abbreviation presented := (present format_spec json_dumps tabulate csv_lines).

(** X18: [write_results_to_file_csv] never completes and never writes a
    line: [csv] is not bound in [metrics.py], so once the file is opened,
    hence created or emptied, the call raises [NameError]. *)
Theorem csv_file_never_written (stats : Stats) (config : Config) (o : Outside) :
  fst (write_results_to_file_csv csv_lines stats config o) <> Reported
  /\ (forall p,
        files (snd (write_results_to_file_csv csv_lines stats config o)) p = files o p
        \/ files (snd (write_results_to_file_csv csv_lines stats config o)) p = Some [])
  /\ (forall path,
        output_file config = Some path -> can_open o path = true ->
        write_results_to_file_csv csv_lines stats config o
        = (Failed NameError, truncated path o)).
Proof.
  unfold write_results_to_file_csv.
  destruct (output_file config) as [path|].
  - destruct (can_open o path) eqn:Hc.
    + change (name_bound "csv") with false. cbn iota. repeat split.
      * discriminate.
      * intros p. simpl. destruct (String.eqb p path); auto.
      * intros path' [= <-] _. reflexivity.
    + repeat split; try discriminate; auto. intros path' [= <-]. congruence.
  - repeat split; try discriminate; auto.
Qed.

(** The first number [format_results] formats is the average of
    [initTime]: an exception there leaves the function. *)
Lemma format_results_first (stats : Stats) (config : Config) (e : exn) :
  format_spec ".4f" (avg (st_initTime stats)) = Raised e ->
  formatted stats config = Raised e.
Proof.
  intros H. unfold format_results, rows, cells. rewrite H.
  destruct (print_csv config); reflexivity.
Qed.


End Rendered.


(* ================================================================== *)
(** * What an invocation reads of the replies                          *)
(* ================================================================== *)

(** X20: in blocking mode the HTTP status of the reply plays no part: two
    replies with the same body and elapsed time give the same record or
    the same exception, whatever their status codes. *)
Theorem blocking_ignores_status (fuel : nat) (config : Config) (w1 w2 : World)
  (st1 st2 : Z) (b : Body) (el : Qc) :
  blocking config = true ->
  server w1 (exchanges w1) (post_request config "true") = Answer st1 b el ->
  server w2 (exchanges w2) (post_request config "true") = Answer st2 b el ->
  fst (bench_single_invocations fuel config w1)
  = fst (bench_single_invocations fuel config w2).
Proof.
  intros Hm H1 H2.
  rewrite !(bench_single_blocking _ _ _ Hm), H1, H2. reflexivity.
Qed.

Lemma blocking_ignores_status_witness :
  fst (bench_single_invocations 1 (Fixture.config_of true 2 3 1)
         (constant_world (Answer 200 (body_of (Some Fixture.activation)) (Q2Qc 1))))
  = fst (bench_single_invocations 1 (Fixture.config_of true 2 3 1)
           (constant_world (Answer 500 (body_of (Some Fixture.activation)) (Q2Qc 1)))).
Proof.
  exact (blocking_ignores_status 1 (Fixture.config_of true 2 3 1)
           (constant_world (Answer 200 (body_of (Some Fixture.activation)) (Q2Qc 1)))
           (constant_world (Answer 500 (body_of (Some Fixture.activation)) (Q2Qc 1)))
           200 500 (body_of (Some Fixture.activation)) (Q2Qc 1) eq_refl eq_refl eq_refl).
Defined.

Lemma activation_id_of_Some (st : Z) (b : Body) (el : Qc) (a : string) :
  activation_id_of (Answer st b el) = Some a ->
  exists d, decoded b = Returned (PyDict d)
            /\ dict_get d "activationId" = Some (PyStr a).
Proof.
  unfold activation_id_of.
  destruct (decoded b) as [[| | | | |d]|e]; try discriminate.
  destruct (dict_get d "activationId") as [[| | |a'| |]|] eqn:E; try discriminate.
  intros [= ->]. eauto.
Qed.

(** X21: a non-blocking invocation that returns a record has read the
    activation id [a] off the POST reply, polled
    [{apihost}/namespaces/_/activations/{a}] until the first reply with
    status 200, all earlier replies having another status, and extracted
    the record from the body of that reply alone; it made [n + 2] exchanges
    for [n] unfinished polls. *)
Theorem non_blocking_reads_completing_get (fuel : nat) (config : Config)
  (w w' : World) (r : InvocationResult) :
  blocking config = false ->
  bench_single_invocations fuel config w = (Ok r, w') ->
  exists st b el d a n gb gel ms,
    server w (exchanges w) (post_request config "false") = Answer st b el
    /\ decoded b = Returned (PyDict d)
    /\ dict_get d "activationId" = Some (PyStr a)
    /\ server w (S (exchanges w) + n)
         (get_request config
            (apihost config ++ "/namespaces/_/activations/" ++ a)%string)
       = Answer 200 gb gel
    /\ (forall k, (k < n)%nat ->
          pending (server w (S (exchanges w) + k)
                     (get_request config
                        (apihost config ++ "/namespaces/_/activations/" ++ a)%string))
          = true)
    /\ extract_metrics (mkResponse 200 gb gel (Some ms)) config = Returned r
    /\ exchanges w' = (exchanges w + n + 2)%nat.
Proof.
  intros Hm H.
  destruct (bench_single_non_blocking_Ok _ _ _ _ _ Hm H)
    as (post & get & Ha & _ & E).
  apply recorded_Returned in E. destruct E as [_ E].
  destruct (async_call_Ok _ _ _ _ _ _ Ha)
    as (a & n & r0 & _ & Hid & _ & Hc & Hp & Hr & Hg & Hw).
  destruct (server w (exchanges w) (post_request config "false"))
    as [st b el|] eqn:Hpost; [|discriminate].
  destruct (activation_id_of_Some _ _ _ _ Hid) as (d & Hd & Hda).
  unfold reply_at, poll_url in Hc, Hr. cbn [loop_start after_post after_clock
    server exchanges] in Hc, Hr.
  destruct (server w (S (exchanges w) + n)
              (get_request config
                 (apihost config ++ "/namespaces/_/activations/" ++ a)%string))
    as [gst gb gel|] eqn:Hget; [|discriminate].
  simpl in Hc. apply Z.eqb_eq in Hc. subst gst. injection Hr as <-.
  exists st, b, el, d, a, n, gb, gel,
    ((wall_clock w (S (clock_reads w)) - wall_clock w (clock_reads w))
     * Qc_of_Z 1000)%Qc.
  repeat split; try assumption; try reflexivity.
  - intros k Hk. specialize (Hp k Hk). unfold waits in Hp.
    apply andb_true_iff in Hp. destruct Hp as [Hp _].
    unfold reply_at, poll_url in Hp. exact Hp.
  - subst get. exact E.
  - subst w'.
    destruct (after_pauses_world config (poll_url config a) n (loop_start config w))
      as (_ & _ & _ & _ & He & _).
    cbn [after_clock exchanges]. rewrite He. simpl. lia.
Qed.

Lemma non_blocking_reads_completing_get_witness :
  exists r w' n,
    bench_single_invocations 2 (Fixture.config_of false 2 3 1) Fixture.world0
    = (Ok r, w')
    /\ exchanges w' = (n + 2)%nat.
Proof.
  destruct (bench_single_invocations 2 (Fixture.config_of false 2 3 1)
              Fixture.world0) as [[r|e|] w'] eqn:E.
  - destruct (non_blocking_reads_completing_get 2 (Fixture.config_of false 2 3 1)
                Fixture.world0 w' r eq_refl E)
      as (st & b & el & d & a & n & gb & gel & ms & _ & _ & _ & _ & _ & _ & He).
    exists r, w', n. split; [reflexivity | exact He].
  - exfalso. vm_compute in E. discriminate E.
  - exfalso. vm_compute in E. discriminate E.
Defined.
